(** * Air-quality server: the predictive forecast core

    A shallow embedding of the pure functions of the server's route module
    ([calculateWeatherImpact], [analyzeAQITrend], [generatePredictiveForecast],
    [getAQIStatus], [calculateDistance]) and the properties the design
    document states about them.

    The development then covers the rest of the server: the PM2.5 to AQI
    conversion, the sensor selection and the response of the forecast
    handler, the standalone server's helpers, and the in-memory storage.

    The code is embedded twice.  In the first embedding JavaScript numbers
    are the real numbers [R]: every arithmetic operation is exact, and [NaN]
    and the infinities do not exist.  It carries the properties that do not
    depend on rounding: the shape of the forecast, the status bands, the
    PM2.5 conversion, the handlers and the storage.  In the second embedding
    ([F64]) numbers are IEEE 754 binary64 numbers and every operation rounds
    as the running program does; it carries the properties that fix the
    values the numeric core returns.  Arrays are lists, an optional argument
    is an [option], string literal unions are inductive types. *)

From Stdlib Require Import Reals Lra Lia ZArith Bool String List.
From Stdlib Require PrimFloat.
From Stdlib Require Import SpecFloat FloatOps.
From Stdlib Require Import Permutation Sorted.
Import ListNotations.
Open Scope R_scope.

(** ** The fragment of the JavaScript runtime the code uses *)

Module JS.

(** [a < b], [a > b], [a <= b] on numbers. *)
Definition lt (a b : R) : bool := if Rlt_dec a b then true else false.
Definition gt (a b : R) : bool := lt b a.
Definition le (a b : R) : bool := if Rle_dec a b then true else false.

(** [v || d] where [v] is a number or [undefined] ([None]): [undefined]
    and [0] are falsy. *)
Definition or_default (v : option R) (d : R) : R :=
  match v with
  | None => d
  | Some x => if Req_dec_T x 0 then d else x
  end.

(** [Math.round]: the nearest integer, halves rounded towards [+oo]. *)
Definition Math_round (x : R) : R := IZR (Zfloor (x + / 2)).

Definition Math_max (a b : R) : R := Rmax a b.
Definition Math_min (a b : R) : R := Rmin a b.
Definition Math_sqrt (x : R) : R := sqrt x.
Definition Math_sin (x : R) : R := sin x.
Definition Math_cos (x : R) : R := cos x.
Definition Math_PI : R := PI.

(** [Math.pow] at a non-negative integer exponent. *)
Definition Math_pow (x : R) (n : nat) : R := x ^ n.

(** [Math.atan2 y x]: the angle of the point [(x, y)], in [(-PI, PI]]. *)
Definition Math_atan2 (y x : R) : R :=
  if Rlt_dec 0 x then atan (y / x)
  else if Rlt_dec x 0 then
    (if Rle_dec 0 y then atan (y / x) + PI else atan (y / x) - PI)
  else if Rlt_dec 0 y then PI / 2
  else if Rlt_dec y 0 then - (PI / 2)
  else 0.

(** [a.slice(-k)]: the last [k] elements, the whole array when it is
    shorter. *)
Definition slice_last {A : Type} (k : nat) (a : list A) : list A :=
  skipn (length a - k) a.

(** [a.reduce((acc, x) => f acc x, init)]. *)
Definition reduce {A B : Type} (f : B -> A -> B) (init : B) (a : list A) : B :=
  fold_left f a init.

(** [a.reduce((acc, x, i) => f acc x i, init)], the index counted from
    [from]. *)
Fixpoint reduce_from {A B : Type} (from : nat) (f : B -> A -> nat -> B)
    (init : B) (a : list A) : B :=
  match a with
  | [] => init
  | x :: rest => reduce_from (S from) f (f init x from) rest
  end.

Definition reducei {A B : Type} (f : B -> A -> nat -> B) (init : B)
    (a : list A) : B :=
  reduce_from 0 f init a.

(** [a.map((x, i) => f x i)], the index counted from [from]. *)
Fixpoint map_from {A B : Type} (from : nat) (f : A -> nat -> B)
    (a : list A) : list B :=
  match a with
  | [] => []
  | x :: rest => f x from :: map_from (S from) f rest
  end.

Definition mapi {A B : Type} (f : A -> nat -> B) (a : list A) : list B :=
  map_from 0 f a.

End JS.

(** ** Data model *)

(** A historical reading; the core reads its [aqi] field only. *)
Module Reading.
Record t : Type := mk { aqi : R }.
End Reading.

(** One point of the weather forecast. *)
Module Weather.
Record t : Type := mk {
  hour : Z;
  temperature : R;
  humidity : R;
  windSpeed : R;
  pressure : R
}.
End Weather.

Inductive Trend : Type := improving | stable | deteriorating.

Module TrendSummary.
Record t : Type := mk { trend : Trend; volatility : R; averageAQI : R }.
End TrendSummary.

Module Impact.
Record t : Type := mk {
  windEffect : R;
  humidityEffect : R;
  pressureEffect : R;
  temperatureEffect : R;
  totalMultiplier : R
}.
End Impact.

Module Factors.
Record t : Type := mk {
  windEffect : R;
  humidityEffect : R;
  pressureEffect : R;
  temperatureEffect : R
}.
End Factors.

Module Forecast.
Record t : Type := mk {
  hour : Z;
  aqi : R;
  status : string;
  confidence : R;
  weatherFactors : Factors.t;
  prediction : Trend
}.
End Forecast.

(** ** Weather impact model *)

(** [WEATHER_IMPACT_COEFFICIENTS], one record of three levels per factor. *)
Module Coeff.
Record levels : Type := mk { low : R; medium : R; high : R }.
Definition windSpeed : levels := mk 1.3 1.0 0.7.
Definition humidity : levels := mk 0.9 1.0 1.2.
Definition pressure : levels := mk 1.2 1.0 0.9.
(** [cold], [mild], [hot] in the source. *)
Definition temperature : levels := mk 0.9 1.0 1.15.
End Coeff.

Definition calculateWeatherImpact (weather : Weather.t) : Impact.t :=
  let windEffect :=
    if JS.lt (Weather.windSpeed weather) 5 then Coeff.low Coeff.windSpeed
    else if JS.gt (Weather.windSpeed weather) 15 then Coeff.high Coeff.windSpeed
    else Coeff.medium Coeff.windSpeed in
  let humidityEffect :=
    if JS.lt (Weather.humidity weather) 40 then Coeff.low Coeff.humidity
    else if JS.gt (Weather.humidity weather) 70 then Coeff.high Coeff.humidity
    else Coeff.medium Coeff.humidity in
  let pressureEffect :=
    if JS.lt (Weather.pressure weather) 1013 then Coeff.low Coeff.pressure
    else if JS.gt (Weather.pressure weather) 1023 then Coeff.high Coeff.pressure
    else Coeff.medium Coeff.pressure in
  let temperatureEffect :=
    if JS.lt (Weather.temperature weather) 15 then Coeff.low Coeff.temperature
    else if JS.gt (Weather.temperature weather) 25 then Coeff.high Coeff.temperature
    else Coeff.medium Coeff.temperature in
  let totalMultiplier :=
    (windEffect + humidityEffect + pressureEffect + temperatureEffect) / 4 in
  Impact.mk windEffect humidityEffect pressureEffect temperatureEffect
    totalMultiplier.

(** ** AQI classifier *)

Definition getAQIStatus (aqi : R) : string :=
  if JS.le aqi 50 then "Good"%string
  else if JS.le aqi 100 then "Moderate"%string
  else if JS.le aqi 150 then "Unhealthy for Sensitive Groups"%string
  else if JS.le aqi 200 then "Unhealthy"%string
  else if JS.le aqi 300 then "Very Unhealthy"%string
  else "Hazardous"%string.

(** ** Trend analyzer *)

Definition analyzeAQITrend (historical : list Reading.t) : TrendSummary.t :=
  if (length historical <? 2)%nat then
    TrendSummary.mk stable 0
      (JS.or_default (option_map Reading.aqi (nth_error historical 0)) 50)
  else
    let recent := JS.slice_last 6 historical in
    let aqiValues := map Reading.aqi recent in
    let averageAQI :=
      JS.reduce (fun a b => a + b) 0 aqiValues / INR (length aqiValues) in
    let n := INR (length aqiValues) in
    let xSum := (n * (n - 1)) / 2 in
    let ySum := JS.reduce (fun a b => a + b) 0 aqiValues in
    let xySum := JS.reducei (fun sum y i => sum + INR i * y) 0 aqiValues in
    let xxSum := (n * (n - 1) * (2 * n - 1)) / 6 in
    let slope := (n * xySum - xSum * ySum) / (n * xxSum - xSum * xSum) in
    let variance :=
      JS.reduce (fun sum aqi => sum + JS.Math_pow (aqi - averageAQI) 2) 0
        aqiValues / n in
    let volatility := JS.Math_sqrt variance in
    let trend :=
      if JS.lt slope (-0.5) then improving
      else if JS.gt slope 0.5 then deteriorating
      else stable in
    TrendSummary.mk trend volatility averageAQI.

(** ** Forecast generator *)

(** The [baseAQI] of a step: the primary average, blended with the regional
    one when a regional trend was computed. *)
Definition baseAQI (primaryTrend : TrendSummary.t)
    (regionalTrend : option TrendSummary.t) : R :=
  let baseAQI := TrendSummary.averageAQI primaryTrend in
  match regionalTrend with
  | Some regional =>
      let regionalWeight := 0.3 in
      baseAQI * (1 - regionalWeight)
      + TrendSummary.averageAQI regional * regionalWeight
  | None => baseAQI
  end.

Definition trendModifier (primaryTrend : TrendSummary.t) : R :=
  match TrendSummary.trend primaryTrend with
  | improving => 0.95
  | deteriorating => 1.05
  | stable => 1.0
  end.

(** The callback of [weatherForecast.map]. *)
Definition forecastStep (primaryTrend : TrendSummary.t)
    (regionalTrend : option TrendSummary.t) (weather : Weather.t)
    (index : nat) : Forecast.t :=
  let weatherImpact := calculateWeatherImpact weather in
  let baseAQI := baseAQI primaryTrend regionalTrend in
  let trendModifier := trendModifier primaryTrend in
  let timeMultiplier := JS.Math_pow trendModifier (index + 1) in
  let predictedAQI :=
    JS.Math_max 0
      (JS.Math_round
         (baseAQI * timeMultiplier * Impact.totalMultiplier weatherImpact)) in
  let confidence :=
    JS.Math_max 0.3
      (JS.Math_min 0.95
         (1 - TrendSummary.volatility primaryTrend / 100 - INR index * 0.05)) in
  let prediction :=
    if JS.lt (Impact.totalMultiplier weatherImpact) 0.95 then improving
    else if JS.gt (Impact.totalMultiplier weatherImpact) 1.05 then deteriorating
    else stable in
  Forecast.mk
    (Weather.hour weather)
    predictedAQI
    (getAQIStatus predictedAQI)
    (JS.Math_round (confidence * 100) / 100)
    (Factors.mk (Impact.windEffect weatherImpact)
       (Impact.humidityEffect weatherImpact)
       (Impact.pressureEffect weatherImpact)
       (Impact.temperatureEffect weatherImpact))
    prediction.

(** [regionalData] is [None] when the argument is omitted ([undefined]);
    an array, even an empty one, is truthy. *)
Definition generatePredictiveForecast (currentAQI : list Reading.t)
    (weatherForecast : list Weather.t)
    (regionalData : option (list Reading.t)) : list Forecast.t :=
  if (length currentAQI =? 0)%nat || (length weatherForecast =? 0)%nat then []
  else
    let primaryTrend := analyzeAQITrend currentAQI in
    let regionalTrend := option_map analyzeAQITrend regionalData in
    JS.mapi (forecastStep primaryTrend regionalTrend) weatherForecast.

(** ** Distance utility *)

Definition calculateDistance (lat1 lon1 lat2 lon2 : R) : R :=
  let R := 3959 in
  let dLat := (lat2 - lat1) * JS.Math_PI / 180 in
  let dLon := (lon2 - lon1) * JS.Math_PI / 180 in
  let a :=
    JS.Math_sin (dLat / 2) * JS.Math_sin (dLat / 2)
    + JS.Math_cos (lat1 * JS.Math_PI / 180)
      * JS.Math_cos (lat2 * JS.Math_PI / 180)
      * JS.Math_sin (dLon / 2) * JS.Math_sin (dLon / 2) in
  let c := 2 * JS.Math_atan2 (JS.Math_sqrt a) (JS.Math_sqrt (1 - a)) in
  R * c.

(** ** The design document's formulas *)

Module Spec.

(** The six status bands. *)
Definition bands : list string :=
  [ "Good"; "Moderate"; "Unhealthy for Sensitive Groups"; "Unhealthy";
    "Very Unhealthy"; "Hazardous" ]%string.

End Spec.

(** ** Concrete inputs used below *)

(** Calm, dry, cold weather under high pressure. *)
Definition calm_dry_cold : Weather.t := Weather.mk 0 10 30 0 1030.

(** Mild weather, every factor in its neutral range. *)
Definition mild_weather : Weather.t := Weather.mk 0 20 50 10 1015.

Definition reading (v : R) : Reading.t := Reading.mk v.

(** The history of the design document's scenario. *)
Definition rising_history : list Reading.t :=
  map reading [40; 42; 45; 48; 50; 55].

Definition flat_history : list Reading.t := map reading [60; 60; 60].

(** ** PM2.5 to AQI *)

Definition calculateAQI (pm25 : R) : R :=
  if JS.le pm25 12.0 then
    JS.Math_round ((50 / 12.0) * pm25)
  else if JS.le pm25 35.4 then
    JS.Math_round (50 + ((100 - 50) / (35.4 - 12.1)) * (pm25 - 12.1))
  else if JS.le pm25 55.4 then
    JS.Math_round (100 + ((150 - 100) / (55.4 - 35.5)) * (pm25 - 35.5))
  else if JS.le pm25 150.4 then
    JS.Math_round (150 + ((200 - 150) / (150.4 - 55.5)) * (pm25 - 55.5))
  else if JS.le pm25 250.4 then
    JS.Math_round (200 + ((300 - 200) / (250.4 - 150.5)) * (pm25 - 150.5))
  else
    JS.Math_round (300 + ((500 - 300) / (500.4 - 250.5)) * (pm25 - 250.5)).

(** ** Sensor selection of the air-quality handler *)

Module Sensor.
Record t : Type := mk {
  name : string;
  latitude : R;
  longitude : R;
  apiUrl : string;
  rawDataUrl : string
}.
End Sensor.

Definition sensorLocations : list Sensor.t :=
  [ Sensor.mk "Bandar Ipoh" 4.607211 101.090918
      "https://api.thingspeak.com/channels/1656794/feeds.json?api_key=18T27314PL23U160&results=1"
      "https://api.thingspeak.com/channels/2765275/feeds.json?api_key=RT85EGJQSJQKJ0ZL&results=1";
    Sensor.mk "Perindustrian Tasek" 4.639697 101.102087
      "https://api.thingspeak.com/channels/1656796/feeds.json?api_key=0Q18INS0V5WK69JV&results=1"
      "https://api.thingspeak.com/channels/2765301/feeds.json?api_key=2XWVN6TDCAV3VKFD&results=1" ].

(** A query parameter is truthy when it is present and not the empty
    string. *)
Definition truthy (q : option string) : bool :=
  match q with
  | None => false
  | Some s => negb (String.eqb s "")
  end.

(** The callback of [sensorLocations.reduce]: keep the closest so far unless
    the current sensor is strictly closer. *)
Definition closerSensor (latitude longitude : R) (closest current : Sensor.t)
    : Sensor.t :=
  let closestDistance :=
    calculateDistance latitude longitude
      (Sensor.latitude closest) (Sensor.longitude closest) in
  let currentDistance :=
    calculateDistance latitude longitude
      (Sensor.latitude current) (Sensor.longitude current) in
  if JS.lt currentDistance closestDistance then current else closest.

(** The sensor the handler reads, for a list of sensor locations: [None]
    stands for the [TypeError] an empty list ends in ([reduce] without an
    initial value, or the property read on [undefined]). *)
Definition selectSensorFrom (sensors : list Sensor.t) (latitude longitude : R)
    (apiUrl : option string) : option Sensor.t :=
  match sensors with
  | [] => None
  | first :: rest =>
      let selectedSensor := first in
      if truthy apiUrl then
        match find (fun sensor =>
                      match apiUrl with
                      | Some url => String.eqb (Sensor.apiUrl sensor) url
                      | None => false
                      end) sensors with
        | Some sensor => Some sensor
        | None => Some selectedSensor
        end
      else
        Some (fold_left (closerSensor latitude longitude) rest first)
  end.

Definition selectSensor : R -> R -> option string -> option Sensor.t :=
  selectSensorFrom sensorLocations.

(** ** The response of the forecast handler

    The part of the handler after the feeds are converted: [hourAt i] is
    the hour of day [i] hours from now, [random i] the [i]-th value drawn
    from [Math.random]. *)

Definition basicForecast (latestAQI : R) (hourAt : nat -> Z)
    (random : nat -> R) : list Forecast.t :=
  map (fun i =>
         Forecast.mk
           (hourAt i)
           (JS.Math_max 0 (JS.Math_round (latestAQI + (random i - 0.5) * 10)))
           (getAQIStatus latestAQI)
           0.6
           (Factors.mk 1.0 1.0 1.0 1.0)
           stable)
      (seq 0 8).

Definition forecastResponse (primaryAQIHistory : list Reading.t)
    (weatherForecast : list Weather.t) (secondaryAQIHistory : list Reading.t)
    (hourAt : nat -> Z) (random : nat -> R) : list Forecast.t :=
  let forecast :=
    generatePredictiveForecast primaryAQIHistory weatherForecast
      (if (0 <? length secondaryAQIHistory)%nat then Some secondaryAQIHistory
       else None) in
  if (length forecast =? 0)%nat then
    let latestAQI :=
      JS.or_default (option_map Reading.aqi (nth_error primaryAQIHistory 0)) 50 in
    basicForecast latestAQI hourAt random
  else forecast.

(** ** The standalone server *)

Module Standalone.

Definition calculateAQI (pm25 : R) : R :=
  if JS.le pm25 12 then JS.Math_round ((50 / 12) * pm25)
  else if JS.le pm25 35.4 then
    JS.Math_round (((100 - 51) / (35.4 - 12.1)) * (pm25 - 12.1) + 51)
  else if JS.le pm25 55.4 then
    JS.Math_round (((150 - 101) / (55.4 - 35.5)) * (pm25 - 35.5) + 101)
  else if JS.le pm25 150.4 then
    JS.Math_round (((200 - 151) / (150.4 - 55.5)) * (pm25 - 55.5) + 151)
  else if JS.le pm25 250.4 then
    JS.Math_round (((300 - 201) / (250.4 - 150.5)) * (pm25 - 150.5) + 201)
  else JS.Math_round (((500 - 301) / (500.4 - 250.5)) * (pm25 - 250.5) + 301).

Record point : Type := mkPoint { hour : Z; aqi : R; status : string }.

(** The loop of the forecast endpoint, from the current AQI and the current
    hour of day. *)
Definition forecastPoint (currentAqi : R) (currentHour : Z) (i : nat) : point :=
  let hour := Z.rem (currentHour + Z.of_nat i) 24 in
  let variation := (INR i * 2) - 5 in
  let forecastAqi := JS.Math_max 0 (JS.Math_min 500 (currentAqi + variation)) in
  mkPoint hour forecastAqi (getAQIStatus forecastAqi).

Definition forecast (currentAqi : R) (currentHour : Z) : list point :=
  fold_left (fun forecast i => forecast ++ [forecastPoint currentAqi currentHour i])
    (seq 0 8) [].

End Standalone.

(** ** In-memory storage *)

(** [Array.prototype.sort] with a comparator.  The sort is stable, and for a
    consistent comparator the stable sorted arrangement is unique; it is
    computed here by insertion from the right: [x] goes after the elements it
    compares greater than. *)
Module JSArray.

Fixpoint insert {A : Type} (compare : A -> A -> R) (x : A) (l : list A)
    : list A :=
  match l with
  | [] => [x]
  | y :: rest =>
      if JS.gt (compare x y) 0 then y :: insert compare x rest
      else x :: y :: rest
  end.

Definition sort {A : Type} (compare : A -> A -> R) (l : list A) : list A :=
  fold_right (insert compare) [] l.

End JSArray.

(** A [Map] with numeric keys, as the list of its entries in insertion
    order. *)
Module JSMap.

Definition t (V : Type) : Type := list (Z * V).

Definition empty {V : Type} : t V := [].

Fixpoint get {V : Type} (m : t V) (key : Z) : option V :=
  match m with
  | [] => None
  | (k, v) :: rest => if (k =? key)%Z then Some v else get rest key
  end.

(** [set] replaces the value of a key in place and appends a new key. *)
Fixpoint set {V : Type} (m : t V) (key : Z) (value : V) : t V :=
  match m with
  | [] => [(key, value)]
  | (k, v) :: rest =>
      if (k =? key)%Z then (key, value) :: rest
      else (k, v) :: set rest key value
  end.

Definition values {V : Type} (m : t V) : list V := map snd m.

Definition keys {V : Type} (m : t V) : list Z := map fst m.

End JSMap.

Module InsertUser.
Record t : Type := mk { username : string; password : string }.
End InsertUser.

Module User.
Record t : Type := mk { id : Z; username : string; password : string }.
End User.

Module InsertAirQualityData.
Record t : Type := mk {
  latitude : R;
  longitude : R;
  aqi : R;
  pm25 : option R;
  pm10 : option R;
  no2 : option R;
  o3 : option R;
  so2 : option R;
  co : option R
}.
End InsertAirQualityData.

(** A stored measurement; [timestamp] in milliseconds. *)
Module AirQualityData.
Record t : Type := mk {
  id : Z;
  latitude : R;
  longitude : R;
  aqi : R;
  pm25 : option R;
  pm10 : option R;
  no2 : option R;
  o3 : option R;
  so2 : option R;
  co : option R;
  timestamp : Z
}.
End AirQualityData.

Module InsertNewsArticle.
Record t : Type := mk {
  title : string;
  excerpt : string;
  content : string;
  category : string;
  imageUrl : option string
}.
End InsertNewsArticle.

Module NewsArticle.
Record t : Type := mk {
  id : Z;
  title : string;
  excerpt : string;
  content : string;
  category : string;
  imageUrl : option string;
  publishedAt : Z
}.
End NewsArticle.

Module InsertAirQualityStation.
Record t : Type := mk {
  name : string;
  latitude : R;
  longitude : R;
  aqi : R;
  status : string
}.
End InsertAirQualityStation.

Module AirQualityStation.
Record t : Type := mk {
  id : Z;
  name : string;
  latitude : R;
  longitude : R;
  aqi : R;
  status : string
}.
End AirQualityStation.

Module MemStorage.

Record t : Type := mk {
  users : JSMap.t User.t;
  airQualityData : JSMap.t AirQualityData.t;
  newsArticles : JSMap.t NewsArticle.t;
  airQualityStations : JSMap.t AirQualityStation.t;
  currentUserId : Z;
  currentAirQualityId : Z;
  currentNewsId : Z;
  currentStationId : Z
}.

Definition getUser (this : t) (id : Z) : option User.t :=
  JSMap.get (users this) id.

Definition getUserByUsername (this : t) (username : string) : option User.t :=
  find (fun user => String.eqb (User.username user) username)
    (JSMap.values (users this)).

Definition createUser (this : t) (insertUser : InsertUser.t) : User.t * t :=
  let id := currentUserId this in
  let user :=
    User.mk id (InsertUser.username insertUser) (InsertUser.password insertUser) in
  (user,
   mk (JSMap.set (users this) id user) (airQualityData this)
      (newsArticles this) (airQualityStations this)
      (currentUserId this + 1)%Z (currentAirQualityId this)
      (currentNewsId this) (currentStationId this)).

Definition getLatestAirQualityData (this : t) (latitude longitude : R)
    : option AirQualityData.t :=
  let tolerance := 0.01 in
  nth_error
    (JSArray.sort
       (fun a b =>
          IZR (AirQualityData.timestamp b) - IZR (AirQualityData.timestamp a))
       (filter
          (fun data =>
             JS.lt (Rabs (AirQualityData.latitude data - latitude)) tolerance
             && JS.lt (Rabs (AirQualityData.longitude data - longitude)) tolerance)
          (JSMap.values (airQualityData this))))
    0.

(** [now] is the instant [new Date()] reads. *)
Definition createAirQualityData (this : t) (data : InsertAirQualityData.t)
    (now : Z) : AirQualityData.t * t :=
  let id := currentAirQualityId this in
  let airQualityRecord :=
    AirQualityData.mk id
      (InsertAirQualityData.latitude data)
      (InsertAirQualityData.longitude data)
      (InsertAirQualityData.aqi data)
      (InsertAirQualityData.pm25 data)
      (InsertAirQualityData.pm10 data)
      (InsertAirQualityData.no2 data)
      (InsertAirQualityData.o3 data)
      (InsertAirQualityData.so2 data)
      (InsertAirQualityData.co data)
      now in
  (airQualityRecord,
   mk (users this) (JSMap.set (airQualityData this) id airQualityRecord)
      (newsArticles this) (airQualityStations this)
      (currentUserId this) (currentAirQualityId this + 1)%Z
      (currentNewsId this) (currentStationId this)).

Definition getAllNewsArticles (this : t) : list NewsArticle.t :=
  JSArray.sort
    (fun a b => IZR (NewsArticle.publishedAt b) - IZR (NewsArticle.publishedAt a))
    (JSMap.values (newsArticles this)).

Definition createNewsArticle (this : t) (article : InsertNewsArticle.t)
    (now : Z) : NewsArticle.t * t :=
  let id := currentNewsId this in
  let newsArticle :=
    NewsArticle.mk id
      (InsertNewsArticle.title article)
      (InsertNewsArticle.excerpt article)
      (InsertNewsArticle.content article)
      (InsertNewsArticle.category article)
      (InsertNewsArticle.imageUrl article)
      now in
  (newsArticle,
   mk (users this) (airQualityData this)
      (JSMap.set (newsArticles this) id newsArticle) (airQualityStations this)
      (currentUserId this) (currentAirQualityId this)
      (currentNewsId this + 1)%Z (currentStationId this)).

(** The distance in degrees the storage sorts stations by. *)
Definition degrees (latitude longitude : R) (station : AirQualityStation.t) : R :=
  JS.Math_sqrt
    (JS.Math_pow (AirQualityStation.latitude station - latitude) 2
     + JS.Math_pow (AirQualityStation.longitude station - longitude) 2).

(** [radius] is [None] when the argument is omitted; its default is 50. *)
Definition getNearbyStations (this : t) (latitude longitude : R)
    (radius : option R) : list AirQualityStation.t :=
  let radius := match radius with Some r => r | None => 50 end in
  JSArray.sort
    (fun a b =>
       let distanceA := degrees latitude longitude a in
       let distanceB := degrees latitude longitude b in
       distanceA - distanceB)
    (filter
       (fun station =>
          let distance := degrees latitude longitude station * 111 in
          JS.le distance radius)
       (JSMap.values (airQualityStations this))).

Definition createAirQualityStation (this : t)
    (station : InsertAirQualityStation.t) : AirQualityStation.t * t :=
  let id := currentStationId this in
  let airQualityStation :=
    AirQualityStation.mk id
      (InsertAirQualityStation.name station)
      (InsertAirQualityStation.latitude station)
      (InsertAirQualityStation.longitude station)
      (InsertAirQualityStation.aqi station)
      (InsertAirQualityStation.status station) in
  (airQualityStation,
   mk (users this) (airQualityData this) (newsArticles this)
      (JSMap.set (airQualityStations this) id airQualityStation)
      (currentUserId this) (currentAirQualityId this)
      (currentNewsId this) (currentStationId this + 1)%Z).

(** The sample stations of [initializeSampleData]. *)
Definition sampleStations : list InsertAirQualityStation.t :=
  [ InsertAirQualityStation.mk "Downtown SF" 37.7749 (-122.4094) 38 "Good";
    InsertAirQualityStation.mk "Mission District" 37.7599 (-122.4148) 65 "Moderate";
    InsertAirQualityStation.mk "Golden Gate Park" 37.7694 (-122.4862) 42 "Good" ].

(** The store with no entry and every counter at 1, as the constructor
    leaves it before it loads the sample data. *)
Definition blank : t :=
  mk JSMap.empty JSMap.empty JSMap.empty JSMap.empty 1 1 1 1.

(** The sample news of [initializeSampleData], each still without its id;
    [now k] is the instant the [k]-th call of [Date.now] reads. *)
Definition sampleNews (now : nat -> Z) : list (Z -> NewsArticle.t) :=
  [ (fun id =>
       NewsArticle.mk id
         "Global Air Quality Standards Updated: What You Need to Know"
         "The World Health Organization has announced new guidelines for air quality standards, affecting monitoring protocols worldwide..."
         "The World Health Organization has announced comprehensive updates to global air quality standards, introducing stricter guidelines that will affect monitoring protocols worldwide. These changes reflect the latest scientific research on air pollution's health impacts."
         "Environment"
         (Some "https://images.unsplash.com/photo-1571019613454-1cb2f99b2d8b"%string)
         (now 0%nat - 2 * 60 * 60 * 1000)%Z);
    (fun id =>
       NewsArticle.mk id
         "How Air Quality Affects Your Daily Exercise Routine"
         "Experts recommend adjusting outdoor activities based on real-time air quality readings..."
         "Health experts are increasingly recommending that people adjust their outdoor exercise routines based on real-time air quality readings. This guidance is particularly important for vulnerable populations."
         "Health"
         (Some "https://images.unsplash.com/photo-1581833971358-2c8b550f87b3"%string)
         (now 1%nat - 4 * 60 * 60 * 1000)%Z);
    (fun id =>
       NewsArticle.mk id
         "New IoT Sensors Revolutionize Air Quality Monitoring"
         "Advanced sensor networks provide more accurate and real-time environmental data..."
         "The deployment of advanced IoT sensor networks is revolutionizing how we monitor air quality, providing more accurate and comprehensive real-time environmental data than ever before."
         "Technology"
         (Some "https://images.unsplash.com/photo-1518709268805-4e9042af2176"%string)
         (now 2%nat - 6 * 60 * 60 * 1000)%Z);
    (fun id =>
       NewsArticle.mk id
         "Study Links Indoor Air Quality to Productivity"
         "Research shows significant correlation between air quality and workplace performance..."
         "A comprehensive study has revealed a significant correlation between indoor air quality and workplace productivity, with implications for office design and employee health."
         "Research"
         (Some "https://images.unsplash.com/photo-1497366216548-37526070297c"%string)
         (now 3%nat - 24 * 60 * 60 * 1000)%Z) ].

Definition initializeSampleData (this : t) (now : nat -> Z) : t :=
  let this :=
    fold_left
      (fun this article =>
         let id := currentNewsId this in
         mk (users this) (airQualityData this)
            (JSMap.set (newsArticles this) id (article id))
            (airQualityStations this)
            (currentUserId this) (currentAirQualityId this)
            (currentNewsId this + 1)%Z (currentStationId this))
      (sampleNews now) this in
  fold_left
    (fun this station =>
       let id := currentStationId this in
       mk (users this) (airQualityData this) (newsArticles this)
          (JSMap.set (airQualityStations this) id
             (AirQualityStation.mk id
                (InsertAirQualityStation.name station)
                (InsertAirQualityStation.latitude station)
                (InsertAirQualityStation.longitude station)
                (InsertAirQualityStation.aqi station)
                (InsertAirQualityStation.status station)))
          (currentUserId this) (currentAirQualityId this)
          (currentNewsId this) (currentStationId this + 1)%Z)
    sampleStations this.

(** The constructor. *)
Definition new (now : nat -> Z) : t := initializeSampleData blank now.

(** The keys of a map are 1, 2, ... up to the counter its next key comes
    from, in insertion order. *)
Definition numbered {V : Type} (m : JSMap.t V) (next : Z) : Prop :=
  (1 <= next)%Z /\
  JSMap.keys m = map Z.of_nat (seq 1 (Z.to_nat (next - 1))).

(** Every stored value carries the key it is stored under. *)
Definition keyed {V : Type} (id : V -> Z) (m : JSMap.t V) : Prop :=
  Forall (fun entry => id (snd entry) = fst entry) m.

Definition consistent (this : t) : Prop :=
  numbered (users this) (currentUserId this) /\
  numbered (airQualityData this) (currentAirQualityId this) /\
  numbered (newsArticles this) (currentNewsId this) /\
  numbered (airQualityStations this) (currentStationId this) /\
  keyed User.id (users this) /\
  keyed AirQualityData.id (airQualityData this) /\
  keyed NewsArticle.id (newsArticles this) /\
  keyed AirQualityStation.id (airQualityStations this).

(** The operations that change the store. *)
Inductive op : Type :=
| CreateUser (insertUser : InsertUser.t)
| CreateAirQualityData (data : InsertAirQualityData.t) (now : Z)
| CreateNewsArticle (article : InsertNewsArticle.t) (now : Z)
| CreateAirQualityStation (station : InsertAirQualityStation.t).

Definition apply (this : t) (o : op) : t :=
  match o with
  | CreateUser u => snd (createUser this u)
  | CreateAirQualityData d now => snd (createAirQualityData this d now)
  | CreateNewsArticle a now => snd (createNewsArticle this a now)
  | CreateAirQualityStation s => snd (createAirQualityStation this s)
  end.

Definition run (this : t) (ops : list op) : t := fold_left apply ops this.

(** Sample inputs. *)
Definition alice : InsertUser.t := InsertUser.mk "alice" "secret".

Definition alice_again : InsertUser.t := InsertUser.mk "alice" "other".

Definition ipoh_reading : InsertAirQualityData.t :=
  InsertAirQualityData.mk 4.6 101.1 42 None None None None None None.

Definition bulletin : InsertNewsArticle.t :=
  InsertNewsArticle.mk "Haze returns" "Haze..." "Haze returns to the valley."
    "Environment" None.

(** The store as the constructor leaves it when the clock reads one day
    after the epoch. *)
Definition sample_store : t := new (fun _ => 86400000%Z).

(** The constructed store after one measurement, taken at instant 1000. *)
Definition measured_store : t :=
  snd (createAirQualityData (new (fun _ => 0%Z)) ipoh_reading 1000).

End MemStorage.

(** ** Rounding to binary64, on integers

    The Standard Library specifies the binary64 operations by an algorithm
    on mantissas and exponents.  The definitions below describe what that
    algorithm computes: the exact result, counted in units of a power of
    two, rounded to the nearest number with ties to the even mantissa. *)

Module Round.

#[local] Open Scope Z_scope.

(** [x / 2^n] rounded to the nearest integer, ties to the even one. *)
Definition rne (n x : Z) : Z :=
  let q := x / 2 ^ n in
  match 2 * (x mod 2 ^ n) ?= 2 ^ n with
  | Lt => q
  | Gt => q + 1
  | Eq => if Z.even q then q else q + 1
  end.

(** The record after [k] shifts of [x]. *)
Definition shifted (x k : Z) : shr_record :=
  if k =? 0 then Build_shr_record x false false
  else Build_shr_record (x / 2 ^ k) (Z.odd (x / 2 ^ (k - 1)))
         (negb (x mod 2 ^ (k - 1) =? 0)).

(** [X], counted in units of [2^B], rounded to a binary64 number of sign
    [s]. *)
Definition RN (B : Z) (s : bool) (X : Z) : spec_float :=
  let t := fexp prec emax (Zdigits2 X + B) in
  let m := rne (t - B) X in
  if m =? 2 ^ 53 then
    if t + 1 <=? emax - prec then S754_finite s (2 ^ 52)%positive (t + 1)
    else S754_infinity s
  else
    match m with
    | Z.pos p => if t <=? emax - prec then S754_finite s p t
                 else S754_infinity s
    | _ => S754_zero s
    end.

(** A rank that orders numbers as [SFcompare] does, when mantissas are
    below [2^54] and exponents above [-1075]. *)
Definition rank (x : spec_float) : Z :=
  match x with
  | S754_zero _ => 0
  | S754_infinity s => cond_Zopp s (2 ^ 70)
  | S754_finite s m e => cond_Zopp s ((e + 1075) * 2 ^ 54 + Z.pos m)
  | S754_nan => 0
  end.

(** The numbers the rank orders. *)
Definition ranked (x : spec_float) : bool :=
  match x with
  | S754_finite _ m e => (-1074 <=? e) && (e <=? 971) && (Z.pos m <? 2 ^ 54)
  | S754_nan => false
  | _ => true
  end.

(** The magnitude of a finite number, in units of [2^B]. *)
Definition mag (B : Z) (x : spec_float) : Z :=
  match x with
  | S754_finite _ m e => Z.pos m * 2 ^ (e - B)
  | _ => 0
  end.

(** A finite number that is not negative. *)
Definition nonneg_finite (x : spec_float) : bool :=
  match x with
  | S754_zero _ => true
  | S754_finite false _ _ => true
  | _ => false
  end.

(** [D], counted in units of [2^B], rounded to a binary64 number; an exact
    zero is [+0]. *)
Definition RNs (B D : Z) : spec_float :=
  match D with
  | 0 => S754_zero false
  | Z.pos p => RN B false (Z.pos p)
  | Z.neg p => RN B true (Z.pos p)
  end.

(** The value of a finite number, in units of [2^B]. *)
Definition sv (B : Z) (x : spec_float) : Z :=
  match x with
  | S754_finite s m e => cond_Zopp s (Z.pos m * 2 ^ (e - B))
  | _ => 0
  end.

(** A finite number, or a zero. *)
Definition finite (x : spec_float) : bool :=
  match x with
  | S754_zero _ | S754_finite _ _ _ => true
  | _ => false
  end.

Definition sign (x : spec_float) : bool :=
  match x with
  | S754_zero s | S754_infinity s | S754_finite s _ _ => s
  | S754_nan => false
  end.

(** A number that is not negative: a zero, a positive finite number or
    [+oo], in canonical form. *)
Definition nonneg (x : spec_float) : bool :=
  valid_binary prec emax x
  && match x with
     | S754_zero _ | S754_infinity false | S754_finite false _ _ => true
     | _ => false
     end.

(** A binary64 number: in canonical form and not [NaN]. *)
Definition number (x : spec_float) : bool :=
  valid_binary prec emax x && ranked x.

End Round.

(** ** The numeric core on IEEE 754 binary64 numbers

    JavaScript numbers are binary64 floating-point numbers, and the results
    of the forecast core depend on their rounding.  This module embeds the
    core a second time on the Standard Library's specification of binary64
    ([spec_float] with 53 bits of precision): every operation rounds as the
    processor does, [NaN] and the infinities exist, and every definition
    evaluates. *)

Module F64.

#[local] Set Warnings "-inexact-float".
Import PrimFloat.

Definition t : Type := spec_float.

(** A number written in the source: the nearest binary64 number. *)
Definition lit (x : PrimFloat.float) : t := Prim2SF x.
Arguments lit x%_float.

Definition add : t -> t -> t := SFadd prec emax.
Definition sub : t -> t -> t := SFsub prec emax.
Definition mul : t -> t -> t := SFmul prec emax.
Definition div : t -> t -> t := SFdiv prec emax.

(** [a < b], [a > b], [a <= b]; all false when an argument is [NaN]. *)
Definition lt (a b : t) : bool := SFltb a b.
Definition gt (a b : t) : bool := SFltb b a.
Definition le (a b : t) : bool := SFleb a b.

Definition is_nan (x : t) : bool :=
  match x with
  | S754_nan => true
  | _ => false
  end.

(** A finite number: neither [NaN] nor an infinity. *)
Definition is_finite (x : t) : bool :=
  match x with
  | S754_zero _ | S754_finite _ _ _ => true
  | _ => false
  end.

(** [r] is a number of sign [s]: a zero, an infinity or a finite number,
    and not [NaN]. *)
Definition signed (s : bool) (r : t) : Prop :=
  r = S754_zero s \/ r = S754_infinity s
  \/ exists m e, r = S754_finite s m e.

(** The same number, bit for bit ([+0] and [-0] differ). *)
Definition same (a b : t) : bool :=
  match a, b with
  | S754_zero s1, S754_zero s2 => Bool.eqb s1 s2
  | S754_infinity s1, S754_infinity s2 => Bool.eqb s1 s2
  | S754_nan, S754_nan => true
  | S754_finite s1 m1 e1, S754_finite s2 m2 e2 =>
      Bool.eqb s1 s2 && Pos.eqb m1 m2 && Z.eqb e1 e2
  | _, _ => false
  end.

(** An array index or length as a number. *)
Definition of_nat (n : nat) : t :=
  binary_normalize prec emax (Z.of_nat n) 0 false.

Module Notations.
Declare Scope f64_scope.
Delimit Scope f64_scope with f64.
Infix "+" := add : f64_scope.
Infix "-" := sub : f64_scope.
Infix "*" := mul : f64_scope.
Infix "/" := div : f64_scope.
End Notations.
Import Notations.
#[local] Open Scope f64_scope.

(** [v || d] where [v] is a number or [undefined] ([None]): [undefined],
    [NaN] and both zeros are falsy. *)
Definition or_default (v : option t) (d : t) : t :=
  match v with
  | None => d
  | Some S754_nan => d
  | Some (S754_zero _) => d
  | Some x => x
  end.

Definition Math_sqrt : t -> t := SFsqrt prec emax.
Definition Math_abs : t -> t := SFabs.

(** [Math.max] and [Math.min]: [NaN] when an argument is [NaN], and [+0]
    counts as larger than [-0]. *)
Definition Math_max (a b : t) : t :=
  match a, b with
  | S754_nan, _ | _, S754_nan => S754_nan
  | S754_zero sa, S754_zero sb => S754_zero (sa && sb)
  | _, _ => if SFltb a b then b else a
  end.

Definition Math_min (a b : t) : t :=
  match a, b with
  | S754_nan, _ | _, S754_nan => S754_nan
  | S754_zero sa, S754_zero sb => S754_zero (sa || sb)
  | _, _ => if SFltb b a then b else a
  end.

(** [Math.round]: the nearest integer, halves rounded towards [+oo],
    computed exactly; a result of zero keeps the sign of the argument.  A
    number whose exponent is not negative is an integer already. *)
Definition Math_round (x : t) : t :=
  match x with
  | S754_finite s m (Zneg k) =>
      let n :=
        ((2 * cond_Zopp s (Zpos m) + 2 ^ Zpos k) / 2 ^ (Zpos k + 1))%Z in
      binary_normalize prec emax n 0 s
  | _ => x
  end.

(** [Math.pow(x, 2)], which the engines compute as the product [x * x]. *)
Definition Math_pow_2 (x : t) : t := x * x.

Definition Infinity : t := S754_infinity false.

(** *** Data *)

Module Reading.
Record t : Type := mk { aqi : F64.t }.
End Reading.

Module Weather.
Record t : Type := mk {
  hour : Z;
  temperature : F64.t;
  humidity : F64.t;
  windSpeed : F64.t;
  pressure : F64.t
}.
End Weather.

Module TrendSummary.
Record t : Type := mk { trend : Trend; volatility : F64.t; averageAQI : F64.t }.
End TrendSummary.

Module Impact.
Record t : Type := mk {
  windEffect : F64.t;
  humidityEffect : F64.t;
  pressureEffect : F64.t;
  temperatureEffect : F64.t;
  totalMultiplier : F64.t
}.
End Impact.

Module Factors.
Record t : Type := mk {
  windEffect : F64.t;
  humidityEffect : F64.t;
  pressureEffect : F64.t;
  temperatureEffect : F64.t
}.
End Factors.

Module Forecast.
Record t : Type := mk {
  hour : Z;
  aqi : F64.t;
  status : string;
  confidence : F64.t;
  weatherFactors : Factors.t;
  prediction : Trend
}.
End Forecast.

(** *** Weather impact model *)

Module Coeff.
Record levels : Type := mk { low : F64.t; medium : F64.t; high : F64.t }.
Definition windSpeed : levels := mk (lit 1.3) (lit 1.0) (lit 0.7).
Definition humidity : levels := mk (lit 0.9) (lit 1.0) (lit 1.2).
Definition pressure : levels := mk (lit 1.2) (lit 1.0) (lit 0.9).
(** [cold], [mild], [hot] in the source. *)
Definition temperature : levels := mk (lit 0.9) (lit 1.0) (lit 1.15).
End Coeff.

Definition calculateWeatherImpact (weather : Weather.t) : Impact.t :=
  let windEffect :=
    if lt (Weather.windSpeed weather) (lit 5) then Coeff.low Coeff.windSpeed
    else if gt (Weather.windSpeed weather) (lit 15)
         then Coeff.high Coeff.windSpeed
    else Coeff.medium Coeff.windSpeed in
  let humidityEffect :=
    if lt (Weather.humidity weather) (lit 40) then Coeff.low Coeff.humidity
    else if gt (Weather.humidity weather) (lit 70)
         then Coeff.high Coeff.humidity
    else Coeff.medium Coeff.humidity in
  let pressureEffect :=
    if lt (Weather.pressure weather) (lit 1013) then Coeff.low Coeff.pressure
    else if gt (Weather.pressure weather) (lit 1023)
         then Coeff.high Coeff.pressure
    else Coeff.medium Coeff.pressure in
  let temperatureEffect :=
    if lt (Weather.temperature weather) (lit 15)
    then Coeff.low Coeff.temperature
    else if gt (Weather.temperature weather) (lit 25)
         then Coeff.high Coeff.temperature
    else Coeff.medium Coeff.temperature in
  let totalMultiplier :=
    (windEffect + humidityEffect + pressureEffect + temperatureEffect)
    / lit 4 in
  Impact.mk windEffect humidityEffect pressureEffect temperatureEffect
    totalMultiplier.

(** *** AQI classifier *)

Definition getAQIStatus (aqi : t) : string :=
  if le aqi (lit 50) then "Good"%string
  else if le aqi (lit 100) then "Moderate"%string
  else if le aqi (lit 150) then "Unhealthy for Sensitive Groups"%string
  else if le aqi (lit 200) then "Unhealthy"%string
  else if le aqi (lit 300) then "Very Unhealthy"%string
  else "Hazardous"%string.

(** *** Trend analyzer *)

Definition analyzeAQITrend (historical : list Reading.t) : TrendSummary.t :=
  if (length historical <? 2)%nat then
    TrendSummary.mk stable (lit 0)
      (or_default (option_map Reading.aqi (nth_error historical 0)) (lit 50))
  else
    let recent := JS.slice_last 6 historical in
    let aqiValues := map Reading.aqi recent in
    let averageAQI :=
      JS.reduce (fun a b => a + b) (lit 0) aqiValues
      / of_nat (length aqiValues) in
    let n := of_nat (length aqiValues) in
    let xSum := (n * (n - lit 1)) / lit 2 in
    let ySum := JS.reduce (fun a b => a + b) (lit 0) aqiValues in
    let xySum :=
      JS.reducei (fun sum y i => sum + of_nat i * y) (lit 0) aqiValues in
    let xxSum := (n * (n - lit 1) * (lit 2 * n - lit 1)) / lit 6 in
    let slope := (n * xySum - xSum * ySum) / (n * xxSum - xSum * xSum) in
    let variance :=
      JS.reduce (fun sum aqi => sum + Math_pow_2 (aqi - averageAQI)) (lit 0)
        aqiValues / n in
    let volatility := Math_sqrt variance in
    let trend :=
      if lt slope (lit (-0.5)) then improving
      else if gt slope (lit 0.5) then deteriorating
      else stable in
    TrendSummary.mk trend volatility averageAQI.

(** *** Forecast generator

    [Math.pow] is implementation-approximated: its results for exponents
    other than 1 and 2 differ between engines in the last bit.  The
    generator is therefore embedded for any function [Math_pow], whose
    second argument is the exponent [index + 1]. *)

Section Generator.

Variable Math_pow : t -> nat -> t.

Definition baseAQI (primaryTrend : TrendSummary.t)
    (regionalTrend : option TrendSummary.t) : t :=
  let baseAQI := TrendSummary.averageAQI primaryTrend in
  match regionalTrend with
  | Some regional =>
      let regionalWeight := lit 0.3 in
      baseAQI * (lit 1 - regionalWeight)
      + TrendSummary.averageAQI regional * regionalWeight
  | None => baseAQI
  end.

Definition trendModifier (primaryTrend : TrendSummary.t) : t :=
  match TrendSummary.trend primaryTrend with
  | improving => lit 0.95
  | deteriorating => lit 1.05
  | stable => lit 1.0
  end.

(** The callback of [weatherForecast.map]. *)
Definition forecastStep (primaryTrend : TrendSummary.t)
    (regionalTrend : option TrendSummary.t) (weather : Weather.t)
    (index : nat) : Forecast.t :=
  let weatherImpact := calculateWeatherImpact weather in
  let baseAQI := baseAQI primaryTrend regionalTrend in
  let trendModifier := trendModifier primaryTrend in
  let timeMultiplier := Math_pow trendModifier (index + 1) in
  let predictedAQI :=
    Math_max (lit 0)
      (Math_round
         (baseAQI * timeMultiplier * Impact.totalMultiplier weatherImpact)) in
  let confidence :=
    Math_max (lit 0.3)
      (Math_min (lit 0.95)
         (lit 1 - TrendSummary.volatility primaryTrend / lit 100
          - of_nat index * lit 0.05)) in
  let prediction :=
    if lt (Impact.totalMultiplier weatherImpact) (lit 0.95) then improving
    else if gt (Impact.totalMultiplier weatherImpact) (lit 1.05)
         then deteriorating
    else stable in
  Forecast.mk
    (Weather.hour weather)
    predictedAQI
    (getAQIStatus predictedAQI)
    (Math_round (confidence * lit 100) / lit 100)
    (Factors.mk (Impact.windEffect weatherImpact)
       (Impact.humidityEffect weatherImpact)
       (Impact.pressureEffect weatherImpact)
       (Impact.temperatureEffect weatherImpact))
    prediction.

Definition generatePredictiveForecast (currentAQI : list Reading.t)
    (weatherForecast : list Weather.t)
    (regionalData : option (list Reading.t)) : list Forecast.t :=
  if (length currentAQI =? 0)%nat || (length weatherForecast =? 0)%nat then []
  else
    let primaryTrend := analyzeAQITrend currentAQI in
    let regionalTrend := option_map analyzeAQITrend regionalData in
    JS.mapi (forecastStep primaryTrend regionalTrend) weatherForecast.

End Generator.

(** A sample [Math.pow]: exact for the exponents 1 and 2, a product of
    rounded factors beyond. *)
Fixpoint pow_by_products (x : t) (n : nat) : t :=
  match n with
  | O => lit 1
  | S O => x
  | S n' => x * pow_by_products x n'
  end.

(** *** The standalone server's nearest sensor *)

Record channel : Type := mkChannel {
  aqiUrl : string;
  rawUrl : string;
  name : string;
  lat : t;
  lon : t
}.

Definition bandar_ipoh : channel :=
  mkChannel
    "https://api.thingspeak.com/channels/1656794/feeds.json?api_key=18T27314PL23U160&results=1"
    "https://api.thingspeak.com/channels/2765275/feeds.json?results=1"
    "Bandar Ipoh" (lit 4.607211) (lit 101.090918).

Definition perindustrian_tasek : channel :=
  mkChannel
    "https://api.thingspeak.com/channels/1656796/feeds.json?api_key=0Q18INS0V5WK69JV&results=1"
    "https://api.thingspeak.com/channels/2765301/feeds.json?results=1"
    "Perindustrian Tasek" (lit 4.639697) (lit 101.102087).

(** [Object.entries(sensorChannels)], in the order the keys are written. *)
Definition sensorChannels : list (string * channel) :=
  [ ("bandar_ipoh"%string, bandar_ipoh);
    ("perindustrian_tasek"%string, perindustrian_tasek) ].

(** [sensorChannels[key]]. *)
Fixpoint lookup (key : string) (entries : list (string * channel))
    : option channel :=
  match entries with
  | [] => None
  | (k, c) :: rest => if String.eqb k key then Some c else lookup key rest
  end.

(** The distance the standalone server compares sensors by. *)
Definition manhattan (lat lon : t) (sensor : channel) : t :=
  Math_abs (lat - F64.lat sensor) + Math_abs (lon - F64.lon sensor).

(** The body of the loop of [findNearestSensor]. *)
Definition nearestStep (lat lon : t) (state : t * string)
    (entry : string * channel) : t * string :=
  let '(minDistance, nearestSensor) := state in
  let '(sensorKey, sensor) := entry in
  let distance :=
    Math_abs (lat - F64.lat sensor) + Math_abs (lon - F64.lon sensor) in
  if lt distance minDistance then (distance, sensorKey)
  else (minDistance, nearestSensor).

Definition findNearestSensor (lat lon : t) : string :=
  snd (fold_left (nearestStep lat lon) sensorChannels
         (Infinity, "bandar_ipoh"%string)).

(** *** The design document's formulas, on binary64 numbers *)

Module Spec.

(** [lo <= x <= hi]. *)
Definition within (lo x hi : t) : bool := le lo x && le x hi.

(** The ranges in which every weather factor is neutral. *)
Definition inRange (w : Weather.t) : bool :=
  within (lit 5) (Weather.windSpeed w) (lit 15)
  && within (lit 40) (Weather.humidity w) (lit 70)
  && within (lit 1013) (Weather.pressure w) (lit 1023)
  && within (lit 15) (Weather.temperature w) (lit 25).

(** No field of the weather point is [NaN]. *)
Definition numeric (w : Weather.t) : bool :=
  negb (is_nan (Weather.windSpeed w)) && negb (is_nan (Weather.humidity w))
  && negb (is_nan (Weather.pressure w))
  && negb (is_nan (Weather.temperature w)).

(** Sums are taken in index order, from 0. *)
Definition sum (l : list t) : t := fold_left add l (lit 0).

Definition sum_upto (n : nat) (f : nat -> t) : t := sum (map f (seq 0 n)).

(** The AQI values of the last (at most) six readings. *)
Definition considered (historical : list Reading.t) : list t :=
  map Reading.aqi (rev (firstn 6 (rev historical))).

Definition mean (ys : list t) : t := sum ys / of_nat (length ys).

(** Least-squares slope of [ys] against the indices [0 .. n-1]. *)
Definition slope (ys : list t) : t :=
  let n := of_nat (length ys) in
  let Sx := sum_upto (length ys) of_nat in
  let Sy := sum ys in
  let Sxy := sum_upto (length ys) (fun i => of_nat i * nth i ys (lit 0)) in
  let Sxx := sum_upto (length ys) (fun i => of_nat i * of_nat i) in
  (n * Sxy - Sx * Sy) / (n * Sxx - Sx * Sx).

(** Population standard deviation. *)
Definition stddev (ys : list t) : t :=
  Math_sqrt
    (sum (map (fun y => (y - mean ys) * (y - mean ys)) ys)
     / of_nat (length ys)).

Definition clamp (x lo hi : t) : t := Math_max lo (Math_min hi x).

(** Rounding to two decimal places. *)
Definition round2 (x : t) : t := Math_round (x * lit 100) / lit 100.

Definition confidenceAt (volatility : t) (i : nat) : t :=
  round2
    (clamp (lit 1 - volatility / lit 100 - of_nat i * lit 0.05)
       (lit 0.3) (lit 0.95)).

(** [n / 100] for an integer [n]: the last step of [round2]. *)
Definition hundredth (n : Z) : t :=
  binary_normalize prec emax n 0 false / lit 100.

(** The hundredths from 0.30 to 0.95 are binary64 numbers in increasing
    order, from the literal [0.3] to the literal [0.95]. *)
Definition hundredths_ok : bool :=
  forallb
    (fun k =>
       let a := hundredth (30 + Z.of_nat k) in
       let b := hundredth (30 + Z.of_nat (S k)) in
       Round.ranked a && Round.ranked b
       && (Round.rank a <=? Round.rank b)%Z)
    (seq 0 65)
  && (Round.rank (hundredth 30) =? Round.rank (lit 0.3))%Z
  && (Round.rank (hundredth 95) =? Round.rank (lit 0.95))%Z.

(** The class of a slope. *)
Definition classify (slope : t) : Trend :=
  if lt slope (lit (-0.5)) then improving
  else if gt slope (lit 0.5) then deteriorating
  else stable.

(** [n] values equal to the integer [k] are stable, with volatility 0 and
    mean [k]. *)
Definition constant_ok (k n : nat) : bool :=
  let ys := repeat (of_nat k) n in
  match classify (slope ys) with
  | stable => same (stddev ys) (lit 0) && same (mean ys) (of_nat k)
  | _ => false
  end.

Definition trend_modifier (trend : Trend) : t :=
  match trend with
  | improving => lit 0.95
  | deteriorating => lit 1.05
  | stable => lit 1.0
  end.

(** The base AQI of a forecast: the primary average, blended 70/30 with
    the secondary average when a secondary history is present. *)
Definition base (primary : list Reading.t)
    (secondary : option (list Reading.t)) : t :=
  let b := TrendSummary.averageAQI (analyzeAQITrend primary) in
  match secondary with
  | Some s =>
      b * lit 0.7 + TrendSummary.averageAQI (analyzeAQITrend s) * lit 0.3
  | None => b
  end.

End Spec.

(** *** Concrete inputs *)

Definition reading (x : PrimFloat.float) : Reading.t := Reading.mk (lit x).
Arguments reading x%_float.

(** Calm, dry, cold weather under high pressure. *)
Definition calm_dry_cold : Weather.t :=
  Weather.mk 0 (lit 10) (lit 30) (lit 0) (lit 1030).

(** Mild weather, every factor in its neutral range. *)
Definition mild_weather : Weather.t :=
  Weather.mk 0 (lit 20) (lit 50) (lit 10) (lit 1015).

(** Mild but calm weather under high pressure: effects 1.3, 1, 0.9, 1. *)
Definition calm_high_pressure : Weather.t :=
  Weather.mk 0 (lit 20) (lit 50) (lit 0) (lit 1030).

(** The history of the design document's scenario. *)
Definition rising_history : list Reading.t :=
  [reading 40; reading 42; reading 45; reading 48; reading 50; reading 55].

(** Six equal readings that are not an integer. *)
Definition constant_45_3 : list Reading.t :=
  [reading 45.3; reading 45.3; reading 45.3; reading 45.3; reading 45.3;
   reading 45.3].

Definition flat_history : list Reading.t := [reading 60; reading 60; reading 60].

Definition single_history : list Reading.t := [reading 42].

(** One reading of AQI 50. *)
Definition fifty : list Reading.t := [reading 50].

(** Two readings, 100 and 107: volatility 3.5. *)
Definition two_readings : list Reading.t := [reading 100; reading 107].

(** Three readings whose slope is 0.5 on the reals. *)
Definition half_slope : list Reading.t :=
  [reading 42; reading 42.3; reading 43].

End F64.

(** ** Comparisons *)

Lemma lt_true (a b : R) : a < b -> JS.lt a b = true.
Proof. intros H; unfold JS.lt; destruct (Rlt_dec a b); [reflexivity | contradiction]. Qed.

Lemma lt_false (a b : R) : b <= a -> JS.lt a b = false.
Proof. intros H; unfold JS.lt; destruct (Rlt_dec a b); [lra | reflexivity]. Qed.

Lemma le_true (a b : R) : a <= b -> JS.le a b = true.
Proof. intros H; unfold JS.le; destruct (Rle_dec a b); [reflexivity | contradiction]. Qed.

Lemma le_false (a b : R) : b < a -> JS.le a b = false.
Proof. intros H; unfold JS.le; destruct (Rle_dec a b); [lra | reflexivity]. Qed.

(** Split every comparison of the goal in two and keep the cases that are
    arithmetically possible. *)
Ltac js_compare :=
  unfold JS.gt, JS.lt, JS.le in *;
  repeat match goal with
         | |- context [Rlt_dec ?a ?b] => destruct (Rlt_dec a b)
         | |- context [Rle_dec ?a ?b] => destruct (Rle_dec a b)
         end;
  try reflexivity; try lra.

(** ** AQI classifier *)

(** C7: the classifier is total and its bands have inclusive upper bounds:
    up to 50 "Good", up to 100 "Moderate", up to 150 "Unhealthy for Sensitive
    Groups", up to 200 "Unhealthy", up to 300 "Very Unhealthy", above 300
    "Hazardous"; negative values are "Good"; every breakpoint belongs to the
    lower band and the next integer to the upper one. *)
Theorem getAQIStatus_bands (v : R) :
  In (getAQIStatus v) Spec.bands /\
  (v <= 50 -> getAQIStatus v = "Good"%string) /\
  (50 < v <= 100 -> getAQIStatus v = "Moderate"%string) /\
  (100 < v <= 150 -> getAQIStatus v = "Unhealthy for Sensitive Groups"%string) /\
  (150 < v <= 200 -> getAQIStatus v = "Unhealthy"%string) /\
  (200 < v <= 300 -> getAQIStatus v = "Very Unhealthy"%string) /\
  (300 < v -> getAQIStatus v = "Hazardous"%string) /\
  (v < 0 -> getAQIStatus v = "Good"%string) /\
  (getAQIStatus 50 = "Good"%string /\ getAQIStatus 51 = "Moderate"%string) /\
  (getAQIStatus 100 = "Moderate"%string /\
   getAQIStatus 101 = "Unhealthy for Sensitive Groups"%string) /\
  (getAQIStatus 150 = "Unhealthy for Sensitive Groups"%string /\
   getAQIStatus 151 = "Unhealthy"%string) /\
  (getAQIStatus 200 = "Unhealthy"%string /\
   getAQIStatus 201 = "Very Unhealthy"%string) /\
  (getAQIStatus 300 = "Very Unhealthy"%string /\
   getAQIStatus 301 = "Hazardous"%string).
Proof.
  split.
  { unfold getAQIStatus, Spec.bands, JS.le.
    repeat match goal with
           | |- context [Rle_dec ?a ?b] => destruct (Rle_dec a b)
           end; simpl; tauto. }
  repeat split; try intros H; unfold getAQIStatus; js_compare.
Qed.

Lemma getAQIStatus_bands_witness :
  50 < 75 <= 100 /\ getAQIStatus 75 = "Moderate"%string.
Proof.
  split; [lra |].
  apply (proj1 (proj2 (proj2 (getAQIStatus_bands 75)))); lra.
Defined.

(** ** Rounding *)

Lemma Math_round_eq (x : R) (z : Z) :
  IZR z <= x + / 2 < IZR z + 1 -> JS.Math_round x = IZR z.
Proof. intros H. unfold JS.Math_round. now rewrite (Zfloor_eq z). Qed.

Lemma Math_round_int (z : Z) : JS.Math_round (IZR z) = IZR z.
Proof. apply Math_round_eq. lra. Qed.

Lemma Math_round_le (x y : R) : x <= y -> JS.Math_round x <= JS.Math_round y.
Proof.
  intros H. unfold JS.Math_round. apply IZR_le, Zfloor_le. lra.
Qed.

(** ** Forecast generator *)

Lemma map_from_length {A B : Type} (f : A -> nat -> B) (l : list A) (k : nat) :
  length (JS.map_from k f l) = length l.
Proof.
  revert k; induction l as [| x l IH]; intros k; simpl; [| rewrite IH];
    reflexivity.
Qed.

Lemma map_from_nth {A B : Type} (f : A -> nat -> B) (l : list A) (k i : nat) :
  nth_error (JS.map_from k f l) i
  = option_map (fun x => f x (k + i)%nat) (nth_error l i).
Proof.
  revert k i; induction l as [| x l IH]; intros k [| i]; simpl;
    try reflexivity.
  - now rewrite Nat.add_0_r.
  - rewrite IH. now rewrite Nat.add_succ_r.
Qed.

(** With both inputs non-empty the generator maps the step function over
    the weather forecast. *)
Lemma forecast_nonempty (currentAQI : list Reading.t)
    (weatherForecast : list Weather.t) (regionalData : option (list Reading.t)) :
  currentAQI <> [] -> weatherForecast <> [] ->
  generatePredictiveForecast currentAQI weatherForecast regionalData
  = JS.mapi (forecastStep (analyzeAQITrend currentAQI)
               (option_map analyzeAQITrend regionalData))
      weatherForecast.
Proof.
  intros Hc Hw. unfold generatePredictiveForecast.
  destruct currentAQI; [contradiction |].
  destruct weatherForecast; [contradiction |].
  reflexivity.
Qed.

Lemma forecast_nth (currentAQI : list Reading.t)
    (weatherForecast : list Weather.t) (regionalData : option (list Reading.t))
    (i : nat) :
  currentAQI <> [] ->
  nth_error (generatePredictiveForecast currentAQI weatherForecast regionalData) i
  = option_map
      (fun w => forecastStep (analyzeAQITrend currentAQI)
                  (option_map analyzeAQITrend regionalData) w i)
      (nth_error weatherForecast i).
Proof.
  intros Hc.
  destruct weatherForecast as [| w0 rest] eqn:Hw.
  - unfold generatePredictiveForecast. rewrite orb_true_r.
    now destruct i.
  - rewrite forecast_nonempty by (assumption || discriminate).
    unfold JS.mapi. now rewrite map_from_nth.
Qed.

(** C6: when the primary history or the weather forecast is empty the
    generator returns the empty sequence (it is a total function, so it does
    not fail). *)
Theorem forecast_empty_inputs (currentAQI : list Reading.t)
    (weatherForecast : list Weather.t) (regionalData : option (list Reading.t)) :
  currentAQI = [] \/ weatherForecast = [] ->
  generatePredictiveForecast currentAQI weatherForecast regionalData = [].
Proof.
  unfold generatePredictiveForecast.
  intros [-> | ->]; simpl; [reflexivity |].
  now rewrite orb_true_r.
Qed.

Lemma forecast_empty_inputs_witness :
  generatePredictiveForecast [] [mild_weather] None = [] /\
  generatePredictiveForecast rising_history [] (Some flat_history) = [].
Proof.
  split.
  - apply forecast_empty_inputs. left. reflexivity.
  - apply forecast_empty_inputs. right. reflexivity.
Defined.

Lemma map_from_hours (pt : TrendSummary.t) (rt : option TrendSummary.t)
    (l : list Weather.t) (k : nat) :
  map Forecast.hour (JS.map_from k (forecastStep pt rt) l) = map Weather.hour l.
Proof.
  revert k; induction l as [| w l IH]; intros k; simpl; [| rewrite IH];
    reflexivity.
Qed.

(** C8: with both inputs non-empty the generator emits one forecast point
    per weather point, in the same order; the point at step i carries the
    hour of the i-th weather point, and its status is the classifier applied
    to its predicted AQI. *)
Theorem forecast_one_point_per_weather_point (currentAQI : list Reading.t)
    (weatherForecast : list Weather.t) (regionalData : option (list Reading.t)) :
  currentAQI <> [] -> weatherForecast <> [] ->
  let forecast :=
    generatePredictiveForecast currentAQI weatherForecast regionalData in
  length forecast = length weatherForecast /\
  map Forecast.hour forecast = map Weather.hour weatherForecast /\
  (forall i w, nth_error weatherForecast i = Some w ->
     exists p, nth_error forecast i = Some p /\
       Forecast.hour p = Weather.hour w /\
       Forecast.status p = getAQIStatus (Forecast.aqi p)).
Proof.
  intros Hc Hw forecast. subst forecast.
  split; [| split].
  - rewrite forecast_nonempty by assumption. apply map_from_length.
  - rewrite forecast_nonempty by assumption. apply map_from_hours.
  - intros i w Hi. rewrite forecast_nth, Hi by assumption. simpl.
    eexists; split; [reflexivity |]. split; reflexivity.
Qed.

Lemma forecast_one_point_per_weather_point_witness :
  rising_history <> [] /\ [mild_weather; calm_dry_cold] <> [] /\
  length (generatePredictiveForecast rising_history
            [mild_weather; calm_dry_cold] None) = 2%nat.
Proof.
  assert (Hc : rising_history <> []) by discriminate.
  assert (Hw : [mild_weather; calm_dry_cold] <> []) by discriminate.
  split; [exact Hc |]. split; [exact Hw |].
  exact (proj1 (forecast_one_point_per_weather_point rising_history
                  [mild_weather; calm_dry_cold] None Hc Hw)).
Defined.

(** ** PM2.5 to AQI *)

Lemma Math_round_lower (z : Z) (x : R) :
  IZR z - / 2 <= x -> IZR z <= JS.Math_round x.
Proof.
  intros H. rewrite <- (Math_round_eq (IZR z - / 2) z) by lra.
  now apply Math_round_le.
Qed.

Lemma Math_round_upper (z : Z) (x : R) :
  x < IZR z + / 2 -> JS.Math_round x <= IZR z.
Proof.
  intros H. unfold JS.Math_round. apply IZR_le.
  assert (Hlt : (Zfloor (x + / 2) < z + 1)%Z).
  { apply lt_IZR. rewrite plus_IZR.
    destruct (Zfloor_bound (x + / 2)) as [Hlo _]. lra. }
  lia.
Qed.

(** Reduce [calculateAQI] to the formula of the band [pm25] lies in. *)
Ltac aqi_band :=
  unfold calculateAQI;
  repeat match goal with
         | |- context [JS.le ?a ?b] =>
             first [ rewrite (le_true a b) by lra
                   | rewrite (le_false a b) by lra ]
         end.

(** Bound a rounded value by an integer. *)
Ltac round_bound :=
  match goal with
  | |- IZR ?z <= JS.Math_round _ => apply (Math_round_lower z)
  | |- JS.Math_round _ <= IZR ?z => apply (Math_round_upper z)
  end; lra.

(** X1: the AQI computed from a PM2.5 concentration lies in the AQI band of that
    concentration's band; neighbouring bands share their end point. *)
Theorem calculateAQI_bands (pm25 : R) :
  (0 <= pm25 <= 12 -> 0 <= calculateAQI pm25 <= 50) /\
  (12 < pm25 <= 35.4 -> 50 <= calculateAQI pm25 <= 100) /\
  (35.4 < pm25 <= 55.4 -> 100 <= calculateAQI pm25 <= 150) /\
  (55.4 < pm25 <= 150.4 -> 150 <= calculateAQI pm25 <= 200) /\
  (150.4 < pm25 <= 250.4 -> 200 <= calculateAQI pm25 <= 300) /\
  (250.4 < pm25 <= 500.4 -> 300 <= calculateAQI pm25 <= 500).
Proof.
  split; [| split; [| split; [| split; [| split]]]];
    intros [Hlo Hhi]; aqi_band; split; round_bound.
Qed.

(** X2: a higher concentration never gives a lower AQI, also across the band
    limits. *)
Theorem calculateAQI_monotone (x y : R) :
  x <= y -> calculateAQI x <= calculateAQI y.
Proof.
  intros Hxy. unfold calculateAQI, JS.le.
  repeat match goal with
         | |- context [Rle_dec ?a ?b] => destruct (Rle_dec a b)
         end;
    try (exfalso; lra);
    first
      [ apply Math_round_le; lra
      | apply Rle_trans with 50;
        [apply (Math_round_upper 50) | apply (Math_round_lower 50)]; lra
      | apply Rle_trans with 100;
        [apply (Math_round_upper 100) | apply (Math_round_lower 100)]; lra
      | apply Rle_trans with 150;
        [apply (Math_round_upper 150) | apply (Math_round_lower 150)]; lra
      | apply Rle_trans with 200;
        [apply (Math_round_upper 200) | apply (Math_round_lower 200)]; lra
      | apply Rle_trans with 300;
        [apply (Math_round_upper 300) | apply (Math_round_lower 300)]; lra ].
Qed.

Lemma calculateAQI_monotone_witness :
  12 <= 12.1 /\ calculateAQI 12 <= calculateAQI 12.1.
Proof.
  assert (H : 12 <= 12.1) by lra.
  split; [exact H | exact (calculateAQI_monotone 12 12.1 H)].
Defined.

Lemma calculateAQI_bands_witness :
  12 < 20 <= 35.4 /\ 50 <= calculateAQI 20 <= 100.
Proof.
  assert (H : 12 < 20 <= 35.4) by lra.
  split; [exact H |].
  exact (proj1 (proj2 (calculateAQI_bands 20)) H).
Defined.

(** ** The standalone server's PM2.5 to AQI *)

Ltac standalone_band :=
  unfold Standalone.calculateAQI;
  repeat match goal with
         | |- context [JS.le ?a ?b] =>
             first [ rewrite (le_true a b) by lra
                   | rewrite (le_false a b) by lra ]
         end.

(** Decide the status of a value from the bounds known for it. *)
Ltac status_band :=
  unfold getAQIStatus;
  repeat match goal with
         | |- context [JS.le ?a ?b] =>
             first [ rewrite (le_true a b) by lra
                   | rewrite (le_false a b) by lra ]
         end;
  reflexivity.

(** X3: in the standalone server the status of the AQI computed from a PM2.5
    concentration is decided by the concentration's band alone: the limits
    12, 35.4, 55.4, 150.4 and 250.4 separate the six statuses. *)
Theorem standalone_status_by_pm25 (pm25 : R) :
  (pm25 <= 12 ->
   getAQIStatus (Standalone.calculateAQI pm25) = "Good"%string) /\
  (12 < pm25 <= 35.4 ->
   getAQIStatus (Standalone.calculateAQI pm25) = "Moderate"%string) /\
  (35.4 < pm25 <= 55.4 ->
   getAQIStatus (Standalone.calculateAQI pm25)
   = "Unhealthy for Sensitive Groups"%string) /\
  (55.4 < pm25 <= 150.4 ->
   getAQIStatus (Standalone.calculateAQI pm25) = "Unhealthy"%string) /\
  (150.4 < pm25 <= 250.4 ->
   getAQIStatus (Standalone.calculateAQI pm25) = "Very Unhealthy"%string) /\
  (250.4 < pm25 ->
   getAQIStatus (Standalone.calculateAQI pm25) = "Hazardous"%string).
Proof.
  split; [| split; [| split; [| split; [| split]]]]; intros H.
  - assert (Standalone.calculateAQI pm25 <= 50)
      by (standalone_band; round_bound).
    status_band.
  - assert (51 <= Standalone.calculateAQI pm25 <= 100)
      by (standalone_band; split; round_bound).
    status_band.
  - assert (101 <= Standalone.calculateAQI pm25 <= 150)
      by (standalone_band; split; round_bound).
    status_band.
  - assert (151 <= Standalone.calculateAQI pm25 <= 200)
      by (standalone_band; split; round_bound).
    status_band.
  - assert (201 <= Standalone.calculateAQI pm25 <= 300)
      by (standalone_band; split; round_bound).
    status_band.
  - assert (301 <= Standalone.calculateAQI pm25)
      by (standalone_band; round_bound).
    status_band.
Qed.

Lemma standalone_status_by_pm25_witness :
  12 < 12.1 <= 35.4 /\
  getAQIStatus (Standalone.calculateAQI 12.1) = "Moderate"%string.
Proof.
  assert (H : 12 < 12.1 <= 35.4) by lra.
  split; [exact H |].
  exact (proj1 (proj2 (standalone_status_by_pm25 12.1)) H).
Defined.

(** X4: the two servers disagree just above the first band limit: for a PM2.5
    concentration above 12 and below 12.3 the route module computes AQI 50,
    "Good", and the standalone server 51, "Moderate". *)
Theorem calculateAQI_versions_differ (pm25 : R) :
  12 < pm25 < 12.3 ->
  calculateAQI pm25 = 50 /\
  Standalone.calculateAQI pm25 = 51 /\
  getAQIStatus (calculateAQI pm25) = "Good"%string /\
  getAQIStatus (Standalone.calculateAQI pm25) = "Moderate"%string.
Proof.
  intros H.
  assert (H50 : calculateAQI pm25 = 50)
    by (aqi_band; apply (Math_round_eq _ 50); lra).
  assert (H51 : Standalone.calculateAQI pm25 = 51)
    by (standalone_band; apply (Math_round_eq _ 51); lra).
  rewrite H50, H51. repeat split; status_band.
Qed.

Lemma calculateAQI_versions_differ_witness :
  12 < 12.1 < 12.3 /\ calculateAQI 12.1 = 50 /\
  Standalone.calculateAQI 12.1 = 51.
Proof.
  assert (H : 12 < 12.1 < 12.3) by lra.
  split; [exact H |].
  destruct (calculateAQI_versions_differ 12.1 H) as (H50 & H51 & _).
  split; [exact H50 | exact H51].
Defined.

(** ** Sensor selection *)

(** [find] returns the first element that passes the test. *)
Lemma find_first {A : Type} (test : A -> bool) (l : list A) :
  (exists x before after,
     find test l = Some x /\ l = before ++ x :: after /\ test x = true /\
     Forall (fun y => test y = false) before) \/
  (find test l = None /\ Forall (fun y => test y = false) l).
Proof.
  induction l as [| x l IH]; simpl.
  - right. split; [reflexivity | constructor].
  - destruct (test x) eqn:Hx.
    + left. exists x, [], l. repeat split; [assumption | constructor].
    + destruct IH as [(y & before & after & Hf & Heq & Hy & Hb) | [Hf Hall]].
      * left. exists y, (x :: before), after.
        repeat split; [assumption | simpl; now f_equal | assumption |].
        constructor; assumption.
      * right. split; [assumption | constructor; assumption].
Qed.

(** X6: with an [apiUrl] the coordinates play no part: the handler reads the
    first sensor of that URL and, when no sensor has it, falls back to the
    first sensor of the list. *)
Theorem selectSensorFrom_by_url (sensors : list Sensor.t)
    (latitude longitude : R) (url : string) :
  sensors <> [] -> url <> ""%string ->
  exists selected,
    selectSensorFrom sensors latitude longitude (Some url) = Some selected /\
    ((exists before after,
        sensors = before ++ selected :: after /\
        Sensor.apiUrl selected = url /\
        Forall (fun s => Sensor.apiUrl s <> url) before) \/
     (Forall (fun s => Sensor.apiUrl s <> url) sensors /\
      nth_error sensors 0 = Some selected)).
Proof.
  intros Hne Hurl.
  destruct sensors as [| first rest]; [contradiction |].
  unfold selectSensorFrom, truthy.
  apply String.eqb_neq in Hurl. rewrite Hurl. cbn [negb].
  destruct (find_first (fun sensor => String.eqb (Sensor.apiUrl sensor) url)
              (first :: rest))
    as [(s & before & after & Hf & Heq & Hs & Hb) | [Hf Hall]];
    rewrite Hf.
  - exists s. split; [reflexivity |]. left. exists before, after.
    split; [exact Heq |]. split; [now apply String.eqb_eq |].
    eapply Forall_impl; [| exact Hb]. intros y Hy. now apply String.eqb_neq.
  - exists first. split; [reflexivity |]. right. split; [| reflexivity].
    eapply Forall_impl; [| exact Hall]. intros y Hy. now apply String.eqb_neq.
Qed.

Lemma selectSensorFrom_by_url_witness :
  sensorLocations <> [] /\ "https://example.org/feed"%string <> ""%string /\
  exists selected,
    selectSensor 0 0 (Some "https://example.org/feed"%string) = Some selected.
Proof.
  assert (Hne : sensorLocations <> []) by discriminate.
  assert (Hurl : "https://example.org/feed"%string <> ""%string) by discriminate.
  split; [exact Hne |]. split; [exact Hurl |].
  destruct (selectSensorFrom_by_url sensorLocations 0 0 _ Hne Hurl)
    as (selected & Hsel & _).
  exists selected. exact Hsel.
Defined.

(** ** The standalone server: nearest sensor and forecast *)

Lemma standalone_forecast_map (currentAqi : R) (currentHour : Z) :
  Standalone.forecast currentAqi currentHour
  = map (Standalone.forecastPoint currentAqi currentHour) (seq 0 8).
Proof. reflexivity. Qed.

Lemma standalone_forecast_nth (currentAqi : R) (currentHour : Z) (i : nat)
    (p : Standalone.point) :
  nth_error (Standalone.forecast currentAqi currentHour) i = Some p ->
  (i < 8)%nat /\ p = Standalone.forecastPoint currentAqi currentHour i.
Proof.
  rewrite standalone_forecast_map. intros H.
  assert (Hi : (i < 8)%nat).
  { assert (Hsome : nth_error
                      (map (Standalone.forecastPoint currentAqi currentHour)
                         (seq 0 8)) i <> None) by congruence.
    apply nth_error_Some in Hsome.
    now rewrite length_map, length_seq in Hsome. }
  split; [exact Hi |].
  rewrite nth_error_map in H.
  rewrite (nth_error_nth' _ 0%nat) in H by now rewrite length_seq.
  rewrite seq_nth in H by assumption. simpl in H. now injection H.
Qed.


(** X9: the hours of the standalone forecast are the eight hours of day from
    the current one on, wrapping at midnight. *)
Theorem standalone_forecast_hours (currentAqi : R) (currentHour : Z) (i : nat)
    (p : Standalone.point) :
  (0 <= currentHour <= 23)%Z ->
  nth_error (Standalone.forecast currentAqi currentHour) i = Some p ->
  (0 <= Standalone.hour p <= 23)%Z /\
  ((currentHour + Z.of_nat i <= 23)%Z ->
   Standalone.hour p = (currentHour + Z.of_nat i)%Z) /\
  ((24 <= currentHour + Z.of_nat i)%Z ->
   Standalone.hour p = (currentHour + Z.of_nat i - 24)%Z).
Proof.
  intros Hh Hp. apply standalone_forecast_nth in Hp as [Hi ->].
  unfold Standalone.forecastPoint; cbn [Standalone.hour].
  rewrite Z.rem_mod_nonneg by lia.
  split; [| split]; try intros Hcase; Z.div_mod_to_equations; lia.
Qed.

Lemma standalone_forecast_hours_witness :
  (0 <= 22 <= 23)%Z /\
  exists p, nth_error (Standalone.forecast 50 22) 3 = Some p /\
            Standalone.hour p = 1%Z.
Proof.
  assert (Hh : (0 <= 22 <= 23)%Z) by lia.
  split; [exact Hh |].
  exists (Standalone.forecastPoint 50 22 3). split; [reflexivity |].
  apply (standalone_forecast_hours 50 22 3 _ Hh eq_refl). simpl. lia.
Defined.

(** ** The response of the forecast handler *)

Lemma basicForecast_length (latestAQI : R) (hourAt : nat -> Z)
    (random : nat -> R) :
  length (basicForecast latestAQI hourAt random) = 8%nat.
Proof. reflexivity. Qed.

(** X10: the handler never answers an empty forecast: with both inputs non-empty
    it answers the generator's forecast, to which it passes the secondary
    history only when that is non-empty, and otherwise the eight points of
    the basic forecast. *)
Theorem forecastResponse_cases (primaryAQIHistory : list Reading.t)
    (weatherForecast : list Weather.t) (secondaryAQIHistory : list Reading.t)
    (hourAt : nat -> Z) (random : nat -> R) :
  let response :=
    forecastResponse primaryAQIHistory weatherForecast secondaryAQIHistory
      hourAt random in
  response <> [] /\
  (primaryAQIHistory <> [] -> weatherForecast <> [] ->
   length response = length weatherForecast /\
   response =
     generatePredictiveForecast primaryAQIHistory weatherForecast
       (match secondaryAQIHistory with
        | [] => None
        | _ :: _ => Some secondaryAQIHistory
        end)) /\
  (primaryAQIHistory = [] \/ weatherForecast = [] ->
   length response = 8%nat /\
   response =
     basicForecast
       (JS.or_default
          (option_map Reading.aqi (nth_error primaryAQIHistory 0)) 50)
       hourAt random).
Proof.
  intros response. subst response.
  assert (Hfull : primaryAQIHistory <> [] -> weatherForecast <> [] ->
    length (forecastResponse primaryAQIHistory weatherForecast
              secondaryAQIHistory hourAt random) = length weatherForecast /\
    forecastResponse primaryAQIHistory weatherForecast secondaryAQIHistory
      hourAt random =
    generatePredictiveForecast primaryAQIHistory weatherForecast
      (match secondaryAQIHistory with
       | [] => None
       | _ :: _ => Some secondaryAQIHistory
       end)).
  { intros Hp Hw. unfold forecastResponse.
    replace (if (0 <? length secondaryAQIHistory)%nat
             then Some secondaryAQIHistory else None)
      with (match secondaryAQIHistory with
            | [] => None
            | _ :: _ => Some secondaryAQIHistory
            end) by now destruct secondaryAQIHistory.
    rewrite forecast_nonempty by assumption.
    unfold JS.mapi. rewrite map_from_length.
    destruct weatherForecast as [| w0 wrest]; [contradiction |].
    cbn [length Nat.eqb].
    split; [rewrite map_from_length; reflexivity | reflexivity]. }
  assert (Hbasic : primaryAQIHistory = [] \/ weatherForecast = [] ->
    forecastResponse primaryAQIHistory weatherForecast secondaryAQIHistory
      hourAt random =
    basicForecast
      (JS.or_default (option_map Reading.aqi (nth_error primaryAQIHistory 0)) 50)
      hourAt random).
  { intros Hempty. unfold forecastResponse.
    assert (Hnil : forall regional,
      generatePredictiveForecast primaryAQIHistory weatherForecast regional = []).
    { intros regional. unfold generatePredictiveForecast.
      destruct Hempty as [-> | ->]; simpl; [reflexivity |].
      now rewrite orb_true_r. }
    now rewrite Hnil. }
  split; [| split].
  - destruct primaryAQIHistory as [| r0 rest0].
    + rewrite Hbasic by now left. discriminate.
    + destruct weatherForecast as [| w0 wrest].
      * rewrite Hbasic by now right. discriminate.
      * intros Hnil. apply (f_equal (@length Forecast.t)) in Hnil.
        destruct (Hfull ltac:(discriminate) ltac:(discriminate)) as [Hlen _].
        rewrite Hlen in Hnil. discriminate.
  - exact Hfull.
  - intros Hempty. rewrite (Hbasic Hempty). split; reflexivity.
Qed.

Lemma forecastResponse_cases_witness :
  rising_history <> [] /\ [mild_weather] <> [] /\
  forecastResponse rising_history [mild_weather] [] (fun _ => 0%Z) (fun _ => 0)
  = generatePredictiveForecast rising_history [mild_weather] None.
Proof.
  assert (Hp : rising_history <> []) by discriminate.
  assert (Hw : [mild_weather] <> []) by discriminate.
  split; [exact Hp |]. split; [exact Hw |].
  exact (proj2 (proj1 (proj2
    (forecastResponse_cases rising_history [mild_weather] []
       (fun _ => 0%Z) (fun _ => 0))) Hp Hw)).
Defined.



(** X12: in the basic forecast the status need not be that of the point's AQI:
    without any history the latest AQI is the fallback 50, "Good", and a
    draw of 0.96 gives AQI 55, which the classifier calls "Moderate". *)
Theorem basicForecast_status_mismatch (weatherForecast : list Weather.t)
    (secondaryAQIHistory : list Reading.t) (hourAt : nat -> Z) :
  exists random p,
    (forall i, 0 <= random i < 1) /\
    In p (forecastResponse [] weatherForecast secondaryAQIHistory hourAt random) /\
    Forecast.aqi p = 55 /\
    Forecast.status p = "Good"%string /\
    getAQIStatus (Forecast.aqi p) = "Moderate"%string.
Proof.
  exists (fun _ => 0.96).
  eexists. split; [intros i; lra |]. split.
  - unfold forecastResponse.
    replace (generatePredictiveForecast [] weatherForecast
               (if (0 <? length secondaryAQIHistory)%nat
                then Some secondaryAQIHistory else None))
      with (@nil Forecast.t) by reflexivity.
    left. reflexivity.
  - cbn [Forecast.aqi Forecast.status nth_error option_map JS.or_default].
    assert (Haqi : JS.Math_max 0 (JS.Math_round (50 + (0.96 - 0.5) * 10)) = 55).
    { rewrite (Math_round_eq _ 55) by lra. apply Rmax_right. lra. }
    rewrite Haqi. split; [reflexivity |]. split; status_band.
Qed.

(** ** Sorting with a comparator *)

Lemma insert_perm {A : Type} (compare : A -> A -> R) (x : A) (l : list A) :
  Permutation (JSArray.insert compare x l) (x :: l).
Proof.
  induction l as [| y l IH]; simpl; [reflexivity |].
  destruct (JS.gt (compare x y) 0); [| reflexivity].
  rewrite IH. apply perm_swap.
Qed.

Lemma sort_perm {A : Type} (compare : A -> A -> R) (l : list A) :
  Permutation (JSArray.sort compare l) l.
Proof.
  induction l as [| x l IH]; simpl; [reflexivity |].
  unfold JSArray.sort in *. simpl. rewrite insert_perm. now constructor.
Qed.

Lemma sort_In {A : Type} (compare : A -> A -> R) (l : list A) (x : A) :
  In x (JSArray.sort compare l) <-> In x l.
Proof.
  split; apply Permutation_in;
    [apply sort_perm | apply Permutation_sym, sort_perm].
Qed.

(** A comparator that subtracts the keys of its arguments. *)
Section SortByKey.

Variable A : Type.
Variable compare : A -> A -> R.
Variable key : A -> R.
Hypothesis compare_key : forall a b, compare a b = key a - key b.

Lemma insert_sorted (x : A) (l : list A) :
  StronglySorted (fun a b => key a <= key b) l ->
  StronglySorted (fun a b => key a <= key b) (JSArray.insert compare x l).
Proof using compare_key.
  induction 1 as [| y l Hl IH Hy]; simpl.
  - repeat constructor.
  - unfold JS.gt, JS.lt. rewrite compare_key.
    destruct (Rlt_dec 0 (key x - key y)) as [Hgt | Hle].
    + constructor; [exact IH |].
      apply (Permutation_Forall (Permutation_sym (insert_perm compare x l))).
      constructor; [lra | exact Hy].
    + constructor; [now constructor |].
      constructor; [lra |].
      eapply Forall_impl; [| exact Hy]. intros z Hz. simpl in Hz. lra.
Qed.

Lemma sort_sorted (l : list A) :
  StronglySorted (fun a b => key a <= key b) (JSArray.sort compare l).
Proof using compare_key.
  induction l as [| x l IH]; [constructor |].
  unfold JSArray.sort in *. simpl. now apply insert_sorted.
Qed.

End SortByKey.

Lemma StronglySorted_weaken {A : Type} (P Q : A -> A -> Prop) (l : list A) :
  (forall a b, P a b -> Q a b) -> StronglySorted P l -> StronglySorted Q l.
Proof.
  intros HPQ. induction 1 as [| x l Hl IH Hx]; constructor; [exact IH |].
  eapply Forall_impl; [| exact Hx]. intros y. apply HPQ.
Qed.

(** The first element of a sorted list precedes every element. *)
Lemma sorted_head {A : Type} (P : A -> A -> Prop) (l : list A) (h x : A) :
  (forall a, P a a) ->
  StronglySorted P l -> nth_error l 0 = Some h -> In x l -> P h x.
Proof.
  intros Hrefl Hsorted Hh Hx. destruct l as [| y l]; [discriminate |].
  injection Hh as ->. apply StronglySorted_inv in Hsorted as [_ Hall].
  destruct Hx as [<- | Hx]; [apply Hrefl |].
  rewrite Forall_forall in Hall. now apply Hall.
Qed.

(** ** Storage: queries *)


(** X14: the news articles are all the stored articles, newest first. *)
Theorem getAllNewsArticles_sorted (this : MemStorage.t) :
  Permutation (MemStorage.getAllNewsArticles this)
    (JSMap.values (MemStorage.newsArticles this)) /\
  StronglySorted
    (fun a b => (NewsArticle.publishedAt b <= NewsArticle.publishedAt a)%Z)
    (MemStorage.getAllNewsArticles this).
Proof.
  unfold MemStorage.getAllNewsArticles. split; [apply sort_perm |].
  apply (StronglySorted_weaken
           (fun a b => - IZR (NewsArticle.publishedAt a)
                       <= - IZR (NewsArticle.publishedAt b))).
  - intros a b Hab. apply le_IZR. lra.
  - apply (sort_sorted _ _ (fun a => - IZR (NewsArticle.publishedAt a))).
    intros a b. lra.
Qed.


(** ** Storage: maps and identifiers *)

Lemma get_set_same {V : Type} (m : JSMap.t V) (key : Z) (value : V) :
  JSMap.get (JSMap.set m key value) key = Some value.
Proof.
  induction m as [| [k v] m IH]; simpl.
  - now rewrite Z.eqb_refl.
  - destruct (k =? key)%Z eqn:Hk; simpl.
    + now rewrite Z.eqb_refl.
    + now rewrite Hk.
Qed.

Lemma get_set_other {V : Type} (m : JSMap.t V) (key other : Z) (value : V) :
  other <> key ->
  JSMap.get (JSMap.set m key value) other = JSMap.get m other.
Proof.
  intros Hne. induction m as [| [k v] m IH]; simpl.
  - destruct (key =? other)%Z eqn:Hk; [| reflexivity].
    apply Z.eqb_eq in Hk. congruence.
  - destruct (k =? key)%Z eqn:Hk; simpl.
    + apply Z.eqb_eq in Hk. subst k.
      destruct (key =? other)%Z eqn:Hko; [| reflexivity].
      apply Z.eqb_eq in Hko. congruence.
    + now rewrite IH.
Qed.

Lemma get_absent {V : Type} (m : JSMap.t V) (key : Z) :
  ~ In key (JSMap.keys m) -> JSMap.get m key = None.
Proof.
  induction m as [| [k v] m IH]; simpl; [reflexivity |].
  intros Hnot. destruct (k =? key)%Z eqn:Hk.
  - apply Z.eqb_eq in Hk. elim Hnot. now left.
  - apply IH. intros Hin. apply Hnot. now right.
Qed.

(** Setting a key the map does not hold appends the entry. *)
Lemma set_absent {V : Type} (m : JSMap.t V) (key : Z) (value : V) :
  ~ In key (JSMap.keys m) -> JSMap.set m key value = m ++ [(key, value)].
Proof.
  induction m as [| [k v] m IH]; simpl; [reflexivity |].
  intros Hnot. destruct (k =? key)%Z eqn:Hk.
  - apply Z.eqb_eq in Hk. elim Hnot. now left.
  - rewrite IH; [reflexivity |]. intros Hin. apply Hnot. now right.
Qed.

(** An entry of a map without repeated keys is what its key reads. *)
Lemma get_entry {V : Type} (m : JSMap.t V) (key : Z) (value : V) :
  NoDup (JSMap.keys m) -> In (key, value) m -> JSMap.get m key = Some value.
Proof.
  induction m as [| [k v] m IH]; simpl; [contradiction |].
  intros Hnd [[= -> ->] | Hin].
  - now rewrite Z.eqb_refl.
  - inversion Hnd as [| ? ? Hnot Hnd']; subst.
    destruct (k =? key)%Z eqn:Hk; [| now apply IH].
    apply Z.eqb_eq in Hk. subst k. elim Hnot.
    apply in_map_iff. now exists (key, value).
Qed.

Lemma numbered_below {V : Type} (m : JSMap.t V) (next key : Z) :
  MemStorage.numbered m next -> In key (JSMap.keys m) -> (1 <= key < next)%Z.
Proof.
  intros [Hnext Hkeys] Hin. rewrite Hkeys in Hin.
  apply in_map_iff in Hin as (i & <- & Hi). apply in_seq in Hi. lia.
Qed.

Lemma numbered_absent {V : Type} (m : JSMap.t V) (next : Z) :
  MemStorage.numbered m next -> ~ In next (JSMap.keys m).
Proof.
  intros Hnum Hin. pose proof (numbered_below m next next Hnum Hin). lia.
Qed.

Lemma numbered_NoDup {V : Type} (m : JSMap.t V) (next : Z) :
  MemStorage.numbered m next -> NoDup (JSMap.keys m).
Proof.
  intros [_ ->]. apply Finite.Injective_map_NoDup; [| apply seq_NoDup].
  intros a b. apply Nat2Z.inj.
Qed.

Lemma numbered_set {V : Type} (m : JSMap.t V) (next : Z) (value : V) :
  MemStorage.numbered m next ->
  MemStorage.numbered (JSMap.set m next value) (next + 1).
Proof.
  intros Hnum. rewrite set_absent by now apply numbered_absent.
  destruct Hnum as [Hnext Hkeys]. split; [lia |].
  unfold JSMap.keys in *. rewrite map_app, Hkeys. simpl.
  replace (Z.to_nat (next + 1 - 1)) with (S (Z.to_nat (next - 1))) by lia.
  rewrite seq_S, map_app. simpl. do 2 f_equal. lia.
Qed.

Lemma keyed_set {V : Type} (id : V -> Z) (m : JSMap.t V) (next : Z) (value : V) :
  MemStorage.numbered m next -> MemStorage.keyed id m -> id value = next ->
  MemStorage.keyed id (JSMap.set m next value).
Proof.
  intros Hnum Hkeyed Hid. rewrite set_absent by now apply numbered_absent.
  unfold MemStorage.keyed. apply Forall_app. split; [exact Hkeyed |].
  now repeat constructor.
Qed.

Lemma consistent_blank : MemStorage.consistent MemStorage.blank.
Proof.
  unfold MemStorage.consistent, MemStorage.numbered, MemStorage.keyed.
  simpl. repeat split; try reflexivity; try lia; constructor.
Qed.

Lemma consistent_apply (this : MemStorage.t) (o : MemStorage.op) :
  MemStorage.consistent this -> MemStorage.consistent (MemStorage.apply this o).
Proof.
  intros (Hu & Hd & Hn & Hs & Ku & Kd & Kn & Ks).
  destruct o; unfold MemStorage.consistent; simpl.
  - split; [now apply numbered_set |]. repeat (split; [assumption |]).
    split; [now apply keyed_set with (next := MemStorage.currentUserId this) |].
    repeat split; assumption.
  - split; [assumption |]. split; [now apply numbered_set |].
    repeat (split; [assumption |]).
    split; [| split; assumption].
    now apply keyed_set with (next := MemStorage.currentAirQualityId this).
  - do 2 (split; [assumption |]). split; [now apply numbered_set |].
    repeat (split; [assumption |]).
    split; [| assumption].
    now apply keyed_set with (next := MemStorage.currentNewsId this).
  - do 3 (split; [assumption |]). split; [now apply numbered_set |].
    repeat (split; [assumption |]).
    now apply keyed_set with (next := MemStorage.currentStationId this).
Qed.

(** Loading sample data is a sequence of creations. *)
Lemma load_news_consistent (articles : list (Z -> NewsArticle.t))
    (this : MemStorage.t) :
  MemStorage.consistent this ->
  Forall (fun article => forall id, NewsArticle.id (article id) = id) articles ->
  MemStorage.consistent
    (fold_left
       (fun this article =>
          let id := MemStorage.currentNewsId this in
          MemStorage.mk (MemStorage.users this) (MemStorage.airQualityData this)
            (JSMap.set (MemStorage.newsArticles this) id (article id))
            (MemStorage.airQualityStations this)
            (MemStorage.currentUserId this)
            (MemStorage.currentAirQualityId this)
            (MemStorage.currentNewsId this + 1)%Z
            (MemStorage.currentStationId this))
       articles this).
Proof.
  intros Hc Hids. revert this Hc.
  induction Hids as [| article articles Hid _ IH]; intros this Hc; simpl;
    [exact Hc |].
  apply IH. destruct Hc as (Hu & Hd & Hn & Hs & Ku & Kd & Kn & Ks).
  unfold MemStorage.consistent; simpl.
  do 2 (split; [assumption |]). split; [now apply numbered_set |].
  repeat (split; [assumption |]).
  split; [| assumption].
  apply keyed_set with (next := MemStorage.currentNewsId this);
    [assumption | assumption | apply Hid].
Qed.

Lemma load_stations_consistent (stations : list InsertAirQualityStation.t)
    (this : MemStorage.t) :
  MemStorage.consistent this ->
  MemStorage.consistent
    (fold_left
       (fun this station =>
          let id := MemStorage.currentStationId this in
          MemStorage.mk (MemStorage.users this) (MemStorage.airQualityData this)
            (MemStorage.newsArticles this)
            (JSMap.set (MemStorage.airQualityStations this) id
               (AirQualityStation.mk id
                  (InsertAirQualityStation.name station)
                  (InsertAirQualityStation.latitude station)
                  (InsertAirQualityStation.longitude station)
                  (InsertAirQualityStation.aqi station)
                  (InsertAirQualityStation.status station)))
            (MemStorage.currentUserId this)
            (MemStorage.currentAirQualityId this)
            (MemStorage.currentNewsId this)
            (MemStorage.currentStationId this + 1)%Z)
       stations this).
Proof.
  revert this.
  induction stations as [| station stations IH]; intros this Hc; simpl;
    [exact Hc |].
  apply IH. destruct Hc as (Hu & Hd & Hn & Hs & Ku & Kd & Kn & Ks).
  unfold MemStorage.consistent; simpl.
  do 3 (split; [assumption |]). split; [now apply numbered_set |].
  repeat (split; [assumption |]).
  now apply keyed_set with (next := MemStorage.currentStationId this).
Qed.

Lemma consistent_new (now : nat -> Z) :
  MemStorage.consistent (MemStorage.new now).
Proof.
  unfold MemStorage.new, MemStorage.initializeSampleData.
  apply load_stations_consistent, load_news_consistent;
    [exact consistent_blank |].
  unfold MemStorage.sampleNews. repeat constructor.
Qed.

(** X16: in every state the store reaches from its constructor, the keys of each
    map are 1, 2, ... up to its counter, in insertion order and without
    repetition, and every value carries the key it is stored under. *)
Theorem MemStorage_consistent (now : nat -> Z) (ops : list MemStorage.op) :
  let this := MemStorage.run (MemStorage.new now) ops in
  MemStorage.consistent this /\
  NoDup (JSMap.keys (MemStorage.users this)) /\
  NoDup (JSMap.keys (MemStorage.airQualityData this)) /\
  NoDup (JSMap.keys (MemStorage.newsArticles this)) /\
  NoDup (JSMap.keys (MemStorage.airQualityStations this)).
Proof.
  intros this.
  assert (Hc : MemStorage.consistent this).
  { subst this. unfold MemStorage.run.
    generalize (consistent_new now). generalize (MemStorage.new now).
    induction ops as [| o ops IH]; intros s Hs; simpl; [exact Hs |].
    apply IH. now apply consistent_apply. }
  split; [exact Hc |].
  destruct Hc as (Hu & Hd & Hn & Hs & _).
  repeat split; eapply numbered_NoDup; eassumption.
Qed.

(** ** Storage: creating and reading back *)

(** X17: a created user gets an identifier no stored user has, can be read back
    under it with the name and password given, and leaves every other
    identifier as it was. *)
Theorem createUser_getUser (this : MemStorage.t) (insertUser : InsertUser.t) :
  MemStorage.consistent this ->
  let user := fst (MemStorage.createUser this insertUser) in
  let this' := snd (MemStorage.createUser this insertUser) in
  User.username user = InsertUser.username insertUser /\
  User.password user = InsertUser.password insertUser /\
  MemStorage.getUser this (User.id user) = None /\
  MemStorage.getUser this' (User.id user) = Some user /\
  (forall id, id <> User.id user ->
     MemStorage.getUser this' id = MemStorage.getUser this id) /\
  MemStorage.consistent this'.
Proof.
  intros Hc user this'. subst user this'. simpl.
  split; [reflexivity |]. split; [reflexivity |].
  unfold MemStorage.getUser; simpl.
  split; [| split; [| split]].
  - apply get_absent. destruct Hc as (Hu & _). now apply numbered_absent.
  - apply get_set_same.
  - intros id Hid. now apply get_set_other.
  - exact (consistent_apply this (MemStorage.CreateUser insertUser) Hc).
Qed.

Lemma createUser_getUser_witness :
  MemStorage.consistent MemStorage.blank /\
  MemStorage.getUser
    (snd (MemStorage.createUser MemStorage.blank MemStorage.alice)) 1
  = Some (User.mk 1 "alice" "secret").
Proof.
  split; [exact consistent_blank |].
  exact (proj1 (proj2 (proj2 (proj2
    (createUser_getUser MemStorage.blank MemStorage.alice
       consistent_blank))))).
Defined.

Lemma find_app {A : Type} (test : A -> bool) (l1 l2 : list A) :
  find test (l1 ++ l2)
  = match find test l1 with
    | Some x => Some x
    | None => find test l2
    end.
Proof.
  induction l1 as [| x l1 IH]; simpl; [reflexivity |].
  now destruct (test x).
Qed.

(** X18: user names are not kept unique: creating a user under a name that is
    taken stores a second user of that name, and the lookup by name goes on
    answering the older one; under a free name the lookup answers the new
    user; lookups of other names are unchanged. *)
Theorem createUser_getUserByUsername (this : MemStorage.t)
    (insertUser : InsertUser.t) :
  MemStorage.consistent this ->
  let name := InsertUser.username insertUser in
  let user := fst (MemStorage.createUser this insertUser) in
  let this' := snd (MemStorage.createUser this insertUser) in
  (forall existing,
     MemStorage.getUserByUsername this name = Some existing ->
     MemStorage.getUserByUsername this' name = Some existing /\
     User.id existing <> User.id user /\
     User.username existing = User.username user /\
     MemStorage.getUser this' (User.id existing) = Some existing /\
     MemStorage.getUser this' (User.id user) = Some user) /\
  (MemStorage.getUserByUsername this name = None ->
   MemStorage.getUserByUsername this' name = Some user) /\
  (forall other, other <> name ->
     MemStorage.getUserByUsername this' other
     = MemStorage.getUserByUsername this other).
Proof.
  intros Hc name user this'. subst name user this'.
  destruct Hc as (Hu & _ & _ & _ & Ku & _).
  pose proof (numbered_absent _ _ Hu) as Hfresh.
  unfold MemStorage.getUserByUsername, MemStorage.getUser. simpl.
  rewrite (set_absent _ _ _ Hfresh).
  unfold JSMap.values. rewrite map_app. simpl.
  split; [| split].
  - intros existing Hfind. rewrite find_app, Hfind.
    split; [reflexivity |].
    apply find_some in Hfind as [Hin Hname].
    apply in_map_iff in Hin as ([k v] & Hv & Hentry). simpl in Hv. subst v.
    assert (Hk : User.id existing = k).
    { unfold MemStorage.keyed in Ku. rewrite Forall_forall in Ku.
      exact (Ku _ Hentry). }
    assert (Hkeys : In k (JSMap.keys (MemStorage.users this)))
      by (apply in_map_iff; now exists (k, existing)).
    pose proof (numbered_below _ _ _ Hu Hkeys) as Hbelow.
    split; [lia |]. split; [now apply String.eqb_eq |].
    split.
    + rewrite <- (set_absent _ _ _ Hfresh).
      rewrite get_set_other by lia.
      rewrite Hk. apply get_entry; [| exact Hentry].
      eapply numbered_NoDup; exact Hu.
    + rewrite <- (set_absent _ _ _ Hfresh). apply get_set_same.
  - intros Hnone. rewrite find_app, Hnone. simpl.
    now rewrite String.eqb_refl.
  - intros other Hother. rewrite find_app.
    destruct (find _ (map snd (MemStorage.users this))); [reflexivity |].
    simpl. apply not_eq_sym in Hother. apply String.eqb_neq in Hother.
    now rewrite Hother.
Qed.

Lemma createUser_getUserByUsername_witness :
  MemStorage.consistent
    (snd (MemStorage.createUser MemStorage.blank MemStorage.alice)) /\
  MemStorage.getUserByUsername
    (snd (MemStorage.createUser
            (snd (MemStorage.createUser MemStorage.blank MemStorage.alice))
            MemStorage.alice_again))
    "alice"
  = Some (User.mk 1 "alice" "secret").
Proof.
  assert (Hc : MemStorage.consistent
                 (snd (MemStorage.createUser MemStorage.blank MemStorage.alice)))
    by exact (consistent_apply MemStorage.blank
                (MemStorage.CreateUser MemStorage.alice) consistent_blank).
  split; [exact Hc |].
  exact (proj1 (proj1
    (createUser_getUserByUsername
       (snd (MemStorage.createUser MemStorage.blank MemStorage.alice))
       MemStorage.alice_again Hc)
    (User.mk 1 "alice" "secret") eq_refl)).
Defined.

(** Sorted latest first, a list to which a strictly later element is added
    starts with that element. *)
Lemma sort_newest_first {A : Type} (time : A -> Z) (compare : A -> A -> R)
    (l : list A) (x : A) :
  (forall a b, compare a b = IZR (time b) - IZR (time a)) ->
  (forall y, In y l -> (time y < time x)%Z) ->
  nth_error (JSArray.sort compare (l ++ [x])) 0 = Some x.
Proof.
  intros Hcompare Hlater.
  assert (Hsorted : StronglySorted
            (fun a b => - IZR (time a) <= - IZR (time b))
            (JSArray.sort compare (l ++ [x]))).
  { apply (sort_sorted _ _ (fun a => - IZR (time a))).
    intros a b. rewrite Hcompare. lra. }
  assert (Hx : In x (JSArray.sort compare (l ++ [x])))
    by (apply sort_In, in_or_app; right; now left).
  destruct (JSArray.sort compare (l ++ [x])) as [| h rest] eqn:Hsort;
    [contradiction |].
  assert (Hh : In h (l ++ [x]))
    by (apply (sort_In compare); rewrite Hsort; now left).
  pose proof (sorted_head _ _ h x (fun a => Rle_refl _) Hsorted eq_refl Hx)
    as Hle.
  simpl in Hle.
  apply in_app_or in Hh as [Hold | [-> | []]]; [| reflexivity].
  apply Hlater, IZR_lt in Hold. lra.
Qed.

(** X19: an article created after every stored one heads the list of news, which
    keeps every article it had. *)
Theorem createNewsArticle_first (this : MemStorage.t)
    (article : InsertNewsArticle.t) (now : Z) :
  MemStorage.consistent this ->
  (forall a, In a (JSMap.values (MemStorage.newsArticles this)) ->
     (NewsArticle.publishedAt a < now)%Z) ->
  let created := fst (MemStorage.createNewsArticle this article now) in
  let this' := snd (MemStorage.createNewsArticle this article now) in
  nth_error (MemStorage.getAllNewsArticles this') 0 = Some created /\
  NewsArticle.title created = InsertNewsArticle.title article /\
  NewsArticle.publishedAt created = now /\
  Permutation (MemStorage.getAllNewsArticles this')
    (created :: MemStorage.getAllNewsArticles this).
Proof.
  intros Hc Hlater created this'. subst created this'.
  destruct Hc as (_ & _ & Hn & _).
  unfold MemStorage.getAllNewsArticles. simpl.
  rewrite (set_absent _ _ _ (numbered_absent _ _ Hn)).
  unfold JSMap.values. rewrite map_app. simpl.
  split; [| split; [reflexivity | split; [reflexivity |]]].
  - apply (sort_newest_first NewsArticle.publishedAt); [reflexivity |].
    exact Hlater.
  - rewrite sort_perm. rewrite Permutation_app_comm. simpl.
    constructor. symmetry. apply sort_perm.
Qed.

(** On the store the constructor builds, whose four sample articles are
    dated 2, 4, 6 and 24 hours before the clock's instant. *)
Lemma createNewsArticle_first_witness :
  MemStorage.consistent MemStorage.sample_store /\
  map NewsArticle.publishedAt
    (JSMap.values (MemStorage.newsArticles MemStorage.sample_store))
  = [79200000; 72000000; 64800000; 0]%Z /\
  (forall a,
     In a (JSMap.values (MemStorage.newsArticles MemStorage.sample_store)) ->
     (NewsArticle.publishedAt a < 86400001)%Z) /\
  nth_error
    (MemStorage.getAllNewsArticles
       (snd (MemStorage.createNewsArticle MemStorage.sample_store
               MemStorage.bulletin 86400001)))
    0
  = Some (fst (MemStorage.createNewsArticle MemStorage.sample_store
                 MemStorage.bulletin 86400001)) /\
  length
    (MemStorage.getAllNewsArticles
       (snd (MemStorage.createNewsArticle MemStorage.sample_store
               MemStorage.bulletin 86400001)))
  = 5%nat.
Proof.
  pose proof (consistent_new (fun _ => 86400000%Z)) as Hc.
  fold MemStorage.sample_store in Hc.
  assert (Hstored :
    map NewsArticle.publishedAt
      (JSMap.values (MemStorage.newsArticles MemStorage.sample_store))
    = [79200000; 72000000; 64800000; 0]%Z) by reflexivity.
  assert (Hlater :
    forall a,
      In a (JSMap.values (MemStorage.newsArticles MemStorage.sample_store)) ->
      (NewsArticle.publishedAt a < 86400001)%Z).
  { intros a Ha.
    apply (in_map NewsArticle.publishedAt) in Ha. rewrite Hstored in Ha.
    simpl in Ha. destruct Ha as [<- | [<- | [<- | [<- | []]]]]; reflexivity. }
  destruct (createNewsArticle_first MemStorage.sample_store MemStorage.bulletin
              86400001 Hc Hlater) as (Hfirst & _ & _ & Hperm).
  split; [exact Hc |]. split; [exact Hstored |]. split; [exact Hlater |].
  split; [exact Hfirst |].
  rewrite (Permutation_length Hperm). cbn [length].
  unfold MemStorage.getAllNewsArticles.
  rewrite (Permutation_length (sort_perm _ _)). reflexivity.
Defined.

(** X20: a measurement stored after every other one is the latest for its own
    coordinates. *)
Theorem createAirQualityData_latest (this : MemStorage.t)
    (data : InsertAirQualityData.t) (now : Z) :
  MemStorage.consistent this ->
  (forall d, In d (JSMap.values (MemStorage.airQualityData this)) ->
     (AirQualityData.timestamp d < now)%Z) ->
  let created := fst (MemStorage.createAirQualityData this data now) in
  let this' := snd (MemStorage.createAirQualityData this data now) in
  MemStorage.getLatestAirQualityData this'
    (InsertAirQualityData.latitude data) (InsertAirQualityData.longitude data)
  = Some created /\
  AirQualityData.aqi created = InsertAirQualityData.aqi data /\
  AirQualityData.timestamp created = now.
Proof.
  intros Hc Hlater created this'. subst created this'.
  destruct Hc as (_ & Hd & _).
  split; [| split; reflexivity].
  unfold MemStorage.getLatestAirQualityData. simpl.
  rewrite (set_absent _ _ _ (numbered_absent _ _ Hd)).
  unfold JSMap.values. rewrite map_app, filter_app. simpl.
  rewrite !Rminus_diag, Rabs_R0, (lt_true 0 0.01) by lra. simpl.
  apply (sort_newest_first AirQualityData.timestamp); [reflexivity |].
  intros y Hy. apply filter_In in Hy as [Hy _]. now apply Hlater.
Qed.

(** On a store that already holds a measurement for the same coordinates,
    taken at instant 1000. *)
Lemma createAirQualityData_latest_witness :
  MemStorage.consistent MemStorage.measured_store /\
  map AirQualityData.timestamp
    (JSMap.values (MemStorage.airQualityData MemStorage.measured_store))
  = [1000%Z] /\
  (forall d,
     In d (JSMap.values (MemStorage.airQualityData MemStorage.measured_store)) ->
     (AirQualityData.timestamp d < 2000)%Z) /\
  MemStorage.getLatestAirQualityData
    (snd (MemStorage.createAirQualityData MemStorage.measured_store
            MemStorage.ipoh_reading 2000))
    4.6 101.1
  = Some (fst (MemStorage.createAirQualityData MemStorage.measured_store
                 MemStorage.ipoh_reading 2000)) /\
  AirQualityData.timestamp
    (fst (MemStorage.createAirQualityData MemStorage.measured_store
            MemStorage.ipoh_reading 2000))
  = 2000%Z.
Proof.
  assert (Hc : MemStorage.consistent MemStorage.measured_store).
  { exact (consistent_apply (MemStorage.new (fun _ => 0%Z))
             (MemStorage.CreateAirQualityData MemStorage.ipoh_reading 1000)
             (consistent_new (fun _ => 0%Z))). }
  assert (Hstored :
    map AirQualityData.timestamp
      (JSMap.values (MemStorage.airQualityData MemStorage.measured_store))
    = [1000%Z]) by reflexivity.
  assert (Hlater :
    forall d,
      In d (JSMap.values
              (MemStorage.airQualityData MemStorage.measured_store)) ->
      (AirQualityData.timestamp d < 2000)%Z).
  { intros d Hd.
    apply (in_map AirQualityData.timestamp) in Hd. rewrite Hstored in Hd.
    destruct Hd as [<- | []]. reflexivity. }
  destruct (createAirQualityData_latest MemStorage.measured_store
              MemStorage.ipoh_reading 2000 Hc Hlater)
    as (Hlatest & _ & Htime).
  split; [exact Hc |]. split; [exact Hstored |]. split; [exact Hlater |].
  split; [exact Hlatest | exact Htime].
Defined.

(** * The numeric core on binary64 numbers *)

Import PrimFloat.
Import F64.Notations.
#[local] Set Warnings "-inexact-float".

(** ** Order *)

Lemma SFcompare_antisym (a b : F64.t) :
  SFcompare b a = option_map CompOpp (SFcompare a b).
Proof.
  destruct a as [[]|[]| |[] ma ea], b as [[]|[]| |[] mb eb];
    simpl; try reflexivity;
    rewrite (Z.compare_antisym ea eb);
    destruct (ea ?= eb)%Z; simpl; try reflexivity;
    change Eq with (CompOpp Eq) at 1;
    rewrite <- (Pos.compare_cont_antisym ma mb Eq);
    try reflexivity; now rewrite CompOpp_involutive.
Qed.

Lemma lt_false_le (a b : F64.t) :
  F64.is_nan a = false -> F64.is_nan b = false ->
  F64.lt a b = false -> F64.le b a = true.
Proof.
  unfold F64.lt, F64.le, SFltb, SFleb. intros Ha Hb.
  rewrite (SFcompare_antisym a b).
  destruct a as [[]|[]| |[] ma ea], b as [[]|[]| |[] mb eb];
    try discriminate; simpl; try reflexivity; try discriminate;
    destruct (ea ?= eb)%Z; simpl; try reflexivity; try discriminate;
    destruct (Pos.compare_cont Eq ma mb); simpl; try reflexivity; discriminate.
Qed.

Lemma le_lt_false (a b : F64.t) : F64.le b a = true -> F64.lt a b = false.
Proof.
  unfold F64.lt, F64.le, SFltb, SFleb.
  rewrite (SFcompare_antisym a b).
  destruct (SFcompare a b) as [[]|]; simpl; congruence.
Qed.

Lemma le_not_nan (a b : F64.t) :
  F64.le a b = true -> F64.is_nan a = false /\ F64.is_nan b = false.
Proof.
  unfold F64.le, SFleb.
  destruct a as [[]|[]| |[] ma ea], b as [[]|[]| |[] mb eb]; simpl;
    (discriminate || (intros _; split; reflexivity)).
Qed.

Lemma le_refl (a : F64.t) : F64.is_nan a = false -> F64.le a a = true.
Proof.
  unfold F64.le, SFleb.
  destruct a as [[]|[]| |[] m e]; try discriminate; intros _; simpl;
    try reflexivity; rewrite Z.compare_refl;
    change (Pos.compare_cont Eq m m) with (m ?= m)%positive;
    now rewrite Pos.compare_refl.
Qed.

Lemma lt_le (a b : F64.t) : F64.lt a b = true -> F64.le a b = true.
Proof.
  unfold F64.lt, F64.le, SFltb, SFleb.
  destruct (SFcompare a b) as [[]|]; congruence.
Qed.

Lemma lt_not_nan (a b : F64.t) :
  F64.lt a b = true -> F64.is_nan a = false /\ F64.is_nan b = false.
Proof. intros H. apply le_not_nan. now apply lt_le. Qed.

(** Below [+oo] means: neither [NaN] nor [+oo]. *)
Lemma not_lt_Infinity (a : F64.t) :
  F64.is_nan a = false -> F64.lt a F64.Infinity = false ->
  a = F64.Infinity.
Proof.
  destruct a as [[]|[]| |[] m e]; try discriminate; intros _; simpl;
    try discriminate; reflexivity.
Qed.

(** ** Literals *)

Lemma lit_0 : F64.lit 0 = S754_zero false.
Proof. reflexivity. Qed.

Lemma lit_1_minus_0_3 : F64.sub (F64.lit 1) (F64.lit 0.3) = F64.lit 0.7.
Proof. vm_compute. reflexivity. Qed.

(** ** Equality *)

Lemma same_eq (a b : F64.t) : F64.same a b = true -> a = b.
Proof.
  destruct a as [s1|s1| |s1 m1 e1], b as [s2|s2| |s2 m2 e2]; simpl;
    try discriminate; try reflexivity.
  - intros H. apply Bool.eqb_prop in H. now subst.
  - intros H. apply Bool.eqb_prop in H. now subst.
  - intros H. apply andb_prop in H as [H He]. apply andb_prop in H as [Hs Hm].
    apply Bool.eqb_prop in Hs. apply Pos.eqb_eq in Hm. apply Z.eqb_eq in He.
    now subst.
Qed.

(** ** Rounding never yields [NaN] *)

Lemma iter_pos_invariant {A : Type} (P : A -> Prop) (f : A -> A) :
  (forall x, P x -> P (f x)) ->
  forall (n : positive) (x : A), P x -> P (iter_pos f n x).
Proof.
  intros Hf. induction n as [n IH | n IH |]; intros x Hx; simpl.
  - apply IH, IH, Hf, Hx.
  - apply IH, IH, Hx.
  - apply Hf, Hx.
Qed.

Lemma shr_1_nonneg (mrs : shr_record) :
  (0 <= shr_m mrs)%Z -> (0 <= shr_m (shr_1 mrs))%Z.
Proof.
  destruct mrs as [m r s]. simpl.
  destruct m as [| [p | p |] | p]; simpl; lia.
Qed.

Lemma shr_fexp_nonneg (prec emax m e : Z) (l : location) :
  (0 <= m)%Z -> (0 <= shr_m (fst (shr_fexp prec emax m e l)))%Z.
Proof.
  intros Hm. unfold shr_fexp, shr.
  assert (H0 : (0 <= shr_m (shr_record_of_loc m l))%Z)
    by (destruct l as [| []]; exact Hm).
  destruct (fexp prec emax (Zdigits2 m + e) - e)%Z; simpl; try exact H0.
  now apply (iter_pos_invariant (fun r => (0 <= shr_m r)%Z) shr_1 shr_1_nonneg).
Qed.

Lemma round_nearest_even_nonneg (m : Z) (l : location) :
  (0 <= m)%Z -> (0 <= round_nearest_even m l)%Z.
Proof.
  intros Hm. destruct l as [| []]; simpl; try lia.
  destruct (Z.even m); lia.
Qed.

Lemma binary_round_aux_signed (prec emax : Z) (s : bool) (m e : Z)
    (l : location) :
  (0 <= m)%Z -> F64.signed s (binary_round_aux prec emax s m e l).
Proof.
  intros Hm. unfold binary_round_aux.
  pose proof (shr_fexp_nonneg prec emax m e l Hm) as H1.
  destruct (shr_fexp prec emax m e l) as [mrs1 e1]. simpl in H1.
  pose proof (shr_fexp_nonneg prec emax
                (round_nearest_even (shr_m mrs1) (loc_of_shr_record mrs1))
                e1 loc_Exact
                (round_nearest_even_nonneg _ _ H1)) as H2.
  destruct (shr_fexp prec emax
              (round_nearest_even (shr_m mrs1) (loc_of_shr_record mrs1))
              e1 loc_Exact) as [mrs2 e2].
  simpl in H2.
  destruct (shr_m mrs2) as [| p | p].
  - now left.
  - destruct (e2 <=? emax - prec)%Z.
    + right; right. now exists p, e2.
    + right; now left.
  - lia.
Qed.

Lemma binary_normalize_signed (prec emax : Z) (n e : Z) (s : bool) :
  F64.signed (if (n =? 0)%Z then s else (n <? 0)%Z)
    (binary_normalize prec emax n e s).
Proof.
  destruct n as [| p | p]; simpl.
  - now left.
  - unfold binary_round.
    destruct (shl_align p e (fexp prec emax (Z.pos (digits2_pos p) + e))).
    now apply binary_round_aux_signed.
  - unfold binary_round.
    destruct (shl_align p e (fexp prec emax (Z.pos (digits2_pos p) + e))).
    now apply binary_round_aux_signed.
Qed.

(** [Math.max(0, r)] of a number that is not negative is the number. *)
Lemma Math_max_0_nonneg (r : F64.t) :
  F64.signed false r \/ r = S754_nan -> F64.Math_max (F64.lit 0) r = r.
Proof.
  rewrite lit_0.
  intros [[-> | [-> | (m & e & ->)]] | ->]; reflexivity.
Qed.

Lemma Math_max_0_neg (r : F64.t) :
  F64.signed true r -> F64.Math_max (F64.lit 0) r = F64.lit 0.
Proof.
  rewrite lit_0.
  intros [-> | [-> | (m & e & ->)]]; reflexivity.
Qed.

(** [Math.max(0, Math.round(x))] is [Math.round(Math.max(0, x))]. *)
Lemma Math_max_0_round (x : F64.t) :
  F64.Math_max (F64.lit 0) (F64.Math_round x)
  = F64.Math_round (F64.Math_max (F64.lit 0) x).
Proof.
  destruct x as [[]|[]| |s m e]; try reflexivity.
  destruct e as [| p | k].
  - destruct s; reflexivity.
  - destruct s; reflexivity.
  - destruct s.
    + (* a negative number *)
      change (F64.Math_max (F64.lit 0) (S754_finite true m (Z.neg k)))
        with (F64.lit 0).
      change (F64.Math_round (F64.lit 0)) with (F64.lit 0).
      apply Math_max_0_neg. unfold F64.Math_round. cbv zeta.
      set (n := ((2 * cond_Zopp true (Z.pos m) + 2 ^ Z.pos k)
                 / 2 ^ (Z.pos k + 1))%Z).
      assert (Hn : (n <= 0)%Z).
      { assert (Hlt : (n < 1)%Z); [| lia].
        apply Z.div_lt_upper_bound.
        - apply Z.pow_pos_nonneg; lia.
        - simpl cond_Zopp. rewrite Z.pow_add_r by lia.
          assert (0 < 2 ^ Z.pos k)%Z by (apply Z.pow_pos_nonneg; lia).
          lia. }
      pose proof (binary_normalize_signed prec emax n 0 true) as Hs.
      destruct (n =? 0)%Z eqn:H0; [exact Hs |].
      apply Z.eqb_neq in H0.
      replace (n <? 0)%Z with true in Hs; [exact Hs |].
      symmetry. apply Z.ltb_lt. lia.
    + (* a positive number *)
      change (F64.Math_max (F64.lit 0) (S754_finite false m (Z.neg k)))
        with (S754_finite false m (Z.neg k)).
      apply Math_max_0_nonneg. left. unfold F64.Math_round. cbv zeta.
      set (n := ((2 * cond_Zopp false (Z.pos m) + 2 ^ Z.pos k)
                 / 2 ^ (Z.pos k + 1))%Z).
      assert (Hn : (0 <= n)%Z).
      { apply Z.div_pos.
        - simpl cond_Zopp.
          assert (0 < 2 ^ Z.pos k)%Z by (apply Z.pow_pos_nonneg; lia).
          lia.
        - apply Z.pow_pos_nonneg; lia. }
      pose proof (binary_normalize_signed prec emax n 0 false) as Hs.
      destruct (n =? 0)%Z eqn:H0; [exact Hs |].
      replace (n <? 0)%Z with false in Hs; [exact Hs |].
      symmetry. apply Z.ltb_ge. lia.
Qed.

(** ** Weather impact model *)

(** A factor is neutral exactly when its reading is in the neutral range. *)
Lemma neutral_range (x lo hi : F64.t) :
  F64.is_nan lo = false -> F64.is_nan hi = false ->
  F64.Spec.within lo x hi = true <->
  F64.is_nan x = false /\ F64.lt x lo = false /\ F64.gt x hi = false.
Proof.
  intros Hlo Hhi. unfold F64.Spec.within, F64.gt. split.
  - intros H. apply andb_prop in H as [H1 H2].
    split; [apply (le_not_nan _ _ H2) |].
    split; now apply le_lt_false.
  - intros (Hx & H1 & H2). apply andb_true_intro.
    split; now apply lt_false_le.
Qed.

Lemma neutral_factor (x lo hi low medium high : F64.t) :
  F64.is_nan lo = false -> F64.is_nan hi = false ->
  low <> medium -> high <> medium ->
  F64.Spec.within lo x hi = true <->
  F64.is_nan x = false /\
  (if F64.lt x lo then low else if F64.gt x hi then high else medium) = medium.
Proof.
  intros Hlo Hhi Hlow Hhigh. rewrite (neutral_range x lo hi Hlo Hhi).
  destruct (F64.lt x lo), (F64.gt x hi); intuition congruence.
Qed.

Lemma neutral_effects (w : F64.Weather.t) :
  let impact := F64.calculateWeatherImpact w in
  F64.Spec.inRange w = true <->
  F64.Spec.numeric w = true /\
  F64.Impact.windEffect impact = F64.lit 1 /\
  F64.Impact.humidityEffect impact = F64.lit 1 /\
  F64.Impact.pressureEffect impact = F64.lit 1 /\
  F64.Impact.temperatureEffect impact = F64.lit 1.
Proof.
  cbv zeta. unfold F64.Spec.inRange, F64.Spec.numeric.
  rewrite !andb_true_iff, !negb_true_iff.
  unfold F64.calculateWeatherImpact; cbn [F64.Impact.windEffect
    F64.Impact.humidityEffect F64.Impact.pressureEffect
    F64.Impact.temperatureEffect].
  rewrite (neutral_factor (F64.Weather.windSpeed w) (F64.lit 5) (F64.lit 15)
             (F64.Coeff.low F64.Coeff.windSpeed)
             (F64.Coeff.medium F64.Coeff.windSpeed)
             (F64.Coeff.high F64.Coeff.windSpeed))
    by (reflexivity || discriminate).
  rewrite (neutral_factor (F64.Weather.humidity w) (F64.lit 40) (F64.lit 70)
             (F64.Coeff.low F64.Coeff.humidity)
             (F64.Coeff.medium F64.Coeff.humidity)
             (F64.Coeff.high F64.Coeff.humidity))
    by (reflexivity || discriminate).
  rewrite (neutral_factor (F64.Weather.pressure w) (F64.lit 1013)
             (F64.lit 1023)
             (F64.Coeff.low F64.Coeff.pressure)
             (F64.Coeff.medium F64.Coeff.pressure)
             (F64.Coeff.high F64.Coeff.pressure))
    by (reflexivity || discriminate).
  rewrite (neutral_factor (F64.Weather.temperature w) (F64.lit 15)
             (F64.lit 25)
             (F64.Coeff.low F64.Coeff.temperature)
             (F64.Coeff.medium F64.Coeff.temperature)
             (F64.Coeff.high F64.Coeff.temperature))
    by (reflexivity || discriminate).
  change (F64.Coeff.medium F64.Coeff.windSpeed) with (F64.lit 1).
  change (F64.Coeff.medium F64.Coeff.humidity) with (F64.lit 1).
  change (F64.Coeff.medium F64.Coeff.pressure) with (F64.lit 1).
  change (F64.Coeff.medium F64.Coeff.temperature) with (F64.lit 1).
  tauto.
Qed.

Ltac level x lo hi :=
  destruct (F64.lt x lo); [| destruct (F64.gt x hi)].

(** The combinations of effects whose binary64 mean is exactly 1. *)
Lemma totalMultiplier_one (w : F64.Weather.t) :
  let impact := F64.calculateWeatherImpact w in
  F64.Impact.totalMultiplier impact = F64.lit 1 <->
  In (F64.Impact.windEffect impact, F64.Impact.humidityEffect impact,
      F64.Impact.pressureEffect impact, F64.Impact.temperatureEffect impact)
     [ (F64.lit 1, F64.lit 1, F64.lit 1, F64.lit 1);
       (F64.lit 1.3, F64.lit 0.9, F64.lit 0.9, F64.lit 0.9);
       (F64.lit 1, F64.lit 1.2, F64.lit 0.9, F64.lit 0.9) ].
Proof.
  cbv zeta. unfold F64.calculateWeatherImpact.
  cbn [F64.Impact.windEffect F64.Impact.humidityEffect
       F64.Impact.pressureEffect F64.Impact.temperatureEffect
       F64.Impact.totalMultiplier].
  level (F64.Weather.windSpeed w) (F64.lit 5) (F64.lit 15);
    level (F64.Weather.humidity w) (F64.lit 40) (F64.lit 70);
    level (F64.Weather.pressure w) (F64.lit 1013) (F64.lit 1023);
    level (F64.Weather.temperature w) (F64.lit 15) (F64.lit 25);
    vm_compute;
    (split;
     [ intros H;
       first [ discriminate H
             | left; reflexivity
             | right; left; reflexivity
             | right; right; left; reflexivity ]
     | intros [H | [H | [H | []]]];
       first [ reflexivity | discriminate H ] ]).
Qed.

(** C3, as stated, fails: in calm (wind 0 km/h), dry (30 %), cold (10 C)
    weather under high pressure (1030 hPa) the effects are 1.3, 0.9, 0.9 and
    0.9, whose binary64 mean is exactly 1, although no factor is in its
    neutral range. *)
Lemma totalMultiplier_one_outside_range :
  ~ (F64.Impact.totalMultiplier (F64.calculateWeatherImpact F64.calm_dry_cold)
     = F64.lit 1
     <-> F64.Spec.inRange F64.calm_dry_cold = true).
Proof.
  intros [Hone _].
  assert (Hin : F64.Spec.inRange F64.calm_dry_cold = true)
    by (apply Hone; vm_compute; reflexivity).
  vm_compute in Hin. discriminate Hin.
Qed.

(** C3, amended: the total multiplier is the binary64 value of the sum of
    the four effects, added in the order wind, humidity, pressure,
    temperature, divided by 4; it is 1 whenever wind speed is in [5,15],
    humidity in [40,70], pressure in [1013,1023] and temperature in [15,25];
    the four effects are all 1 exactly in that case, for readings that are
    numbers; and the total multiplier is 1 exactly for the effects 1, 1, 1,
    1, the effects 1.3, 0.9, 0.9, 0.9 and the effects 1, 1.2, 0.9, 0.9. *)
Theorem totalMultiplier_mean_and_neutral (w : F64.Weather.t) :
  let impact := F64.calculateWeatherImpact w in
  F64.Impact.totalMultiplier impact =
    ((F64.Impact.windEffect impact + F64.Impact.humidityEffect impact
      + F64.Impact.pressureEffect impact + F64.Impact.temperatureEffect impact)
     / F64.lit 4)%f64 /\
  (F64.Spec.inRange w = true -> F64.Impact.totalMultiplier impact = F64.lit 1) /\
  (F64.Spec.numeric w = true ->
   (F64.Impact.windEffect impact = F64.lit 1 /\
    F64.Impact.humidityEffect impact = F64.lit 1 /\
    F64.Impact.pressureEffect impact = F64.lit 1 /\
    F64.Impact.temperatureEffect impact = F64.lit 1
    <-> F64.Spec.inRange w = true)) /\
  (F64.Impact.totalMultiplier impact = F64.lit 1 <->
   In (F64.Impact.windEffect impact, F64.Impact.humidityEffect impact,
       F64.Impact.pressureEffect impact, F64.Impact.temperatureEffect impact)
      [ (F64.lit 1, F64.lit 1, F64.lit 1, F64.lit 1);
        (F64.lit 1.3, F64.lit 0.9, F64.lit 0.9, F64.lit 0.9);
        (F64.lit 1, F64.lit 1.2, F64.lit 0.9, F64.lit 0.9) ]).
Proof.
  intros impact.
  pose proof (neutral_effects w) as Hneutral.
  pose proof (totalMultiplier_one w) as Hone.
  cbv zeta in Hneutral, Hone. fold impact in Hneutral, Hone.
  split; [reflexivity |].
  split; [| split; [| exact Hone]].
  - intros Hin. apply Hone. left.
    destruct (proj1 Hneutral Hin) as (_ & -> & -> & -> & ->). reflexivity.
  - intros Hnum. split.
    + intros H. apply Hneutral. now split.
    + intros Hin. now destruct (proj1 Hneutral Hin) as (_ & H).
Qed.

Lemma totalMultiplier_mean_and_neutral_witness :
  F64.Spec.inRange F64.mild_weather = true /\
  F64.Spec.numeric F64.mild_weather = true /\
  F64.Impact.totalMultiplier (F64.calculateWeatherImpact F64.mild_weather)
  = F64.lit 1 /\
  F64.Impact.windEffect (F64.calculateWeatherImpact F64.mild_weather)
  = F64.lit 1.
Proof.
  pose proof (totalMultiplier_mean_and_neutral F64.mild_weather) as H.
  cbv zeta in H. destruct H as (_ & Hone & Heffects & _).
  split; [reflexivity |]. split; [reflexivity |].
  split; [exact (Hone eq_refl) |].
  exact (proj1 (proj2 (Heffects eq_refl) eq_refl)).
Defined.

(** ** Trend analyzer: histories of fewer than two readings *)

Lemma analyzeAQITrend_nil :
  F64.analyzeAQITrend [] = F64.TrendSummary.mk stable (F64.lit 0) (F64.lit 50).
Proof. reflexivity. Qed.

(** C4: for the single reading of AQI 0 the analyzer returns the average
    50, not the reading's value 0, because [0 || 50] is 50; on two readings
    of AQI 0 the same function returns their mean, 0. *)
Theorem analyzeAQITrend_single_zero :
  F64.analyzeAQITrend [F64.reading 0]
  = F64.TrendSummary.mk stable (F64.lit 0) (F64.lit 50) /\
  F64.Reading.aqi (F64.reading 0) <> F64.lit 50 /\
  F64.analyzeAQITrend [F64.reading 0; F64.reading 0]
  = F64.TrendSummary.mk stable (F64.lit 0) (F64.lit 0).
Proof.
  split; [reflexivity |]. split; [discriminate |].
  vm_compute. reflexivity.
Qed.

(** ** Trend analyzer: the regression *)

(** A [reduce] that adds [g x] for every element is the sum of the [g x]. *)
Lemma reduce_sum {A : Type} (g : A -> F64.t) (l : list A) (init : F64.t) :
  JS.reduce (fun acc x => acc + g x)%f64 init l
  = fold_left F64.add (map g l) init.
Proof.
  unfold JS.reduce. revert init.
  induction l as [| x l IH]; intros init; simpl; [reflexivity | apply IH].
Qed.

(** The indexed [reduce] computes the sum of [i * y_i]. *)
Lemma reduce_from_sum (l : list F64.t) (k : nat) (init : F64.t) :
  JS.reduce_from k (fun sum y i => sum + F64.of_nat i * y)%f64 init l
  = fold_left F64.add
      (map (fun i => F64.of_nat (k + i) * nth i l (F64.lit 0))%f64
         (seq 0 (length l)))
      init.
Proof.
  revert k init.
  induction l as [| x l IH]; intros k init; simpl; [reflexivity |].
  rewrite IH, <- seq_shift, map_map, Nat.add_0_r.
  f_equal. apply map_ext. intros i. now rewrite Nat.add_succ_r.
Qed.

Lemma reducei_sum (l : list F64.t) :
  JS.reducei (fun sum y i => sum + F64.of_nat i * y)%f64 (F64.lit 0) l
  = F64.Spec.sum_upto (length l)
      (fun i => F64.of_nat i * nth i l (F64.lit 0))%f64.
Proof. unfold JS.reducei. now rewrite reduce_from_sum. Qed.

(** The closed forms the code uses for the sums of the indices and of their
    squares are exact for the two to six values it considers. *)
Lemma sum_upto_index (n : nat) :
  In n [2; 3; 4; 5; 6]%nat ->
  (F64.of_nat n * (F64.of_nat n - F64.lit 1) / F64.lit 2)%f64
  = F64.Spec.sum_upto n F64.of_nat.
Proof.
  intros [<- | [<- | [<- | [<- | [<- | []]]]]]; vm_compute; reflexivity.
Qed.

Lemma sum_upto_index_sq (n : nat) :
  In n [2; 3; 4; 5; 6]%nat ->
  (F64.of_nat n * (F64.of_nat n - F64.lit 1)
   * (F64.lit 2 * F64.of_nat n - F64.lit 1) / F64.lit 6)%f64
  = F64.Spec.sum_upto n (fun i => F64.of_nat i * F64.of_nat i)%f64.
Proof.
  intros [<- | [<- | [<- | [<- | [<- | []]]]]]; vm_compute; reflexivity.
Qed.

(** [slice(-6)] keeps the last six readings. *)
Lemma slice_last_rev {A : Type} (k : nat) (l : list A) :
  JS.slice_last k l = rev (firstn k (rev l)).
Proof. unfold JS.slice_last. now rewrite firstn_rev, rev_involutive. Qed.

Lemma considered_length (historical : list F64.Reading.t) :
  length (F64.Spec.considered historical) = Nat.min 6 (length historical).
Proof.
  unfold F64.Spec.considered.
  now rewrite length_map, length_rev, length_firstn, length_rev.
Qed.

Lemma considered_count (historical : list F64.Reading.t) :
  (2 <= length historical)%nat ->
  In (length (F64.Spec.considered historical)) [2; 3; 4; 5; 6]%nat.
Proof.
  intros Hlen. rewrite considered_length.
  assert (H : (2 <= Nat.min 6 (length historical) <= 6)%nat) by lia.
  revert H. generalize (Nat.min 6 (length historical)). intros n Hn.
  simpl.
  destruct n as [| [| [| [| [| [| [| n]]]]]]]; try lia; tauto.
Qed.

(** On two or more readings the analyzer computes the mean, the population
    standard deviation and the classified least-squares slope. *)
Lemma analyzeAQITrend_long (historical : list F64.Reading.t) :
  (2 <= length historical)%nat ->
  let ys := F64.Spec.considered historical in
  F64.analyzeAQITrend historical =
    F64.TrendSummary.mk (F64.Spec.classify (F64.Spec.slope ys))
      (F64.Spec.stddev ys) (F64.Spec.mean ys).
Proof.
  intros Hlen ys. unfold F64.analyzeAQITrend.
  pose proof (considered_count historical Hlen) as Hn. fold ys in Hn.
  apply Nat.ltb_ge in Hlen; rewrite Hlen.
  rewrite slice_last_rev. fold (F64.Spec.considered historical). fold ys.
  cbv zeta.
  rewrite reducei_sum.
  rewrite (reduce_sum
             (fun aqi =>
                F64.Math_pow_2
                  (aqi - JS.reduce (fun a b => a + b) (F64.lit 0) ys
                       / F64.of_nat (length ys)))%f64).
  rewrite (sum_upto_index _ Hn), (sum_upto_index_sq _ Hn).
  reflexivity.
Qed.

Lemma constant_ok_all :
  forallb (fun k => forallb (F64.Spec.constant_ok k) [2; 3; 4; 5; 6]%nat)
    (seq 0 501) = true.
Proof. vm_compute. reflexivity. Qed.

(** Two to six values equal to an integer AQI from 0 to 500 are stable, with
    volatility 0 and that integer as mean. *)
Lemma constant_values (ys : list F64.t) (k : nat) :
  (k <= 500)%nat -> In (length ys) [2; 3; 4; 5; 6]%nat ->
  (forall y, In y ys -> y = F64.of_nat k) ->
  F64.Spec.classify (F64.Spec.slope ys) = stable /\
  F64.Spec.stddev ys = F64.lit 0 /\
  F64.Spec.mean ys = F64.of_nat k.
Proof.
  intros Hk Hn Hys.
  assert (Hrep : ys = repeat (F64.of_nat k) (length ys)).
  { apply Forall_eq_repeat. apply Forall_forall.
    intros y Hy. symmetry. now apply Hys. }
  pose proof constant_ok_all as Hall.
  rewrite forallb_forall in Hall.
  specialize (Hall k). rewrite in_seq in Hall.
  specialize (Hall ltac:(lia)).
  rewrite forallb_forall in Hall. specialize (Hall _ Hn).
  unfold F64.Spec.constant_ok in Hall. cbv zeta in Hall.
  rewrite <- Hrep in Hall.
  destruct (F64.Spec.classify (F64.Spec.slope ys)); try discriminate.
  apply andb_prop in Hall as [Hs Hm].
  split; [reflexivity |]. split; now apply same_eq.
Qed.

(** C5, as stated, fails: six readings of 45.3 are a constant sequence, and
    its volatility is not 0: the rounded mean differs from 45.3 by one unit
    in the last place. *)
Lemma constant_history_volatility :
  ~ (let t := F64.analyzeAQITrend F64.constant_45_3 in
     (forall y, In y (F64.Spec.considered F64.constant_45_3) ->
                y = F64.lit 45.3) ->
     F64.TrendSummary.trend t = stable /\
     F64.TrendSummary.volatility t = F64.lit 0).
Proof.
  intros H. cbv zeta in H.
  assert (Hconst : forall y, In y (F64.Spec.considered F64.constant_45_3) ->
                             y = F64.lit 45.3).
  { intros y Hy. vm_compute in Hy.
    repeat (destruct Hy as [<- | Hy]; [reflexivity |]). destruct Hy. }
  destruct (H Hconst) as [_ Hv]. vm_compute in Hv. discriminate Hv.
Qed.

(** C5, amended: on a history of two or more readings the analyzer
    considers the last six readings at most; the average is their binary64
    mean, the volatility their binary64 population standard deviation, and
    the trend is improving when the binary64 least-squares slope
    (n Sxy - Sx Sy) / (n Sxx - Sx Sx) of the values against the indices
    0 .. n-1 is below -0.5, deteriorating when it is above 0.5, and stable
    otherwise; a constant sequence of an integer AQI from 0 to 500 is stable
    with volatility 0. *)
Theorem analyzeAQITrend_regression (historical : list F64.Reading.t) :
  (2 <= length historical)%nat ->
  let ys := F64.Spec.considered historical in
  let t := F64.analyzeAQITrend historical in
  length ys = Nat.min 6 (length historical) /\
  F64.TrendSummary.averageAQI t = F64.Spec.mean ys /\
  F64.TrendSummary.volatility t = F64.Spec.stddev ys /\
  (F64.lt (F64.Spec.slope ys) (F64.lit (-0.5)) = true ->
   F64.TrendSummary.trend t = improving) /\
  (F64.gt (F64.Spec.slope ys) (F64.lit 0.5) = true ->
   F64.TrendSummary.trend t = deteriorating) /\
  (F64.lt (F64.Spec.slope ys) (F64.lit (-0.5)) = false ->
   F64.gt (F64.Spec.slope ys) (F64.lit 0.5) = false ->
   F64.TrendSummary.trend t = stable) /\
  (forall k, (k <= 500)%nat ->
     (forall y, In y ys -> y = F64.of_nat k) ->
     F64.TrendSummary.trend t = stable /\
     F64.TrendSummary.volatility t = F64.lit 0 /\
     F64.TrendSummary.averageAQI t = F64.of_nat k).
Proof.
  intros Hlen ys t. subst t.
  rewrite (analyzeAQITrend_long historical Hlen). fold ys.
  cbn [F64.TrendSummary.trend F64.TrendSummary.volatility
       F64.TrendSummary.averageAQI].
  split; [apply considered_length |].
  split; [reflexivity |].
  split; [reflexivity |].
  unfold F64.Spec.classify.
  split; [intros ->; reflexivity |].
  split.
  { intros Hgt.
    assert (Hlt : F64.lt (F64.Spec.slope ys) (F64.lit (-0.5)) = false).
    { unfold F64.gt in Hgt. revert Hgt.
      destruct (F64.Spec.slope ys) as [[]|[]| |[] m e]; try discriminate;
        reflexivity. }
    now rewrite Hlt, Hgt. }
  split; [intros -> ->; reflexivity |].
  intros k Hk Hys.
  fold (F64.Spec.classify (F64.Spec.slope ys)).
  apply (constant_values ys k Hk); [| exact Hys].
  now apply considered_count.
Qed.

Lemma analyzeAQITrend_regression_witness :
  (2 <= length F64.flat_history)%nat /\
  F64.TrendSummary.trend (F64.analyzeAQITrend F64.flat_history) = stable /\
  F64.TrendSummary.volatility (F64.analyzeAQITrend F64.flat_history)
  = F64.lit 0 /\
  F64.TrendSummary.averageAQI (F64.analyzeAQITrend F64.flat_history)
  = F64.lit 60.
Proof.
  assert (Hlen : (2 <= length F64.flat_history)%nat) by (simpl; lia).
  split; [exact Hlen |].
  destruct (analyzeAQITrend_regression F64.flat_history Hlen)
    as (_ & _ & _ & _ & _ & _ & Hflat).
  apply (Hflat 60%nat); [lia |].
  intros y Hy. vm_compute in Hy.
  repeat (destruct Hy as [<- | Hy]; [reflexivity |]). destruct Hy.
Defined.

(** ** Forecast generator *)

Section Forecasts.

Variable Math_pow : F64.t -> nat -> F64.t.

Lemma binary64_forecast_nth (currentAQI : list F64.Reading.t)
    (weatherForecast : list F64.Weather.t)
    (regionalData : option (list F64.Reading.t)) (i : nat) :
  currentAQI <> [] ->
  nth_error
    (F64.generatePredictiveForecast Math_pow currentAQI weatherForecast
       regionalData) i
  = option_map
      (fun w => F64.forecastStep Math_pow (F64.analyzeAQITrend currentAQI)
                  (option_map F64.analyzeAQITrend regionalData) w i)
      (nth_error weatherForecast i).
Proof using Type.
  intros Hc. unfold F64.generatePredictiveForecast.
  destruct currentAQI as [| r rest]; [contradiction |].
  destruct weatherForecast as [| w0 ws].
  - now destruct i.
  - cbn [length Nat.eqb orb]. unfold JS.mapi. now rewrite map_from_nth.
Qed.

(** The base AQI of the code is the 70/30 blend of the design document:
    [1 - 0.3] is the binary64 number [0.7]. *)
Lemma binary64_baseAQI_blend (currentAQI : list F64.Reading.t)
    (regionalData : option (list F64.Reading.t)) :
  F64.baseAQI (F64.analyzeAQITrend currentAQI)
    (option_map F64.analyzeAQITrend regionalData)
  = F64.Spec.base currentAQI regionalData.
Proof using Type.
  unfold F64.baseAQI, F64.Spec.base.
  destruct regionalData; simpl; [| reflexivity].
  now rewrite lit_1_minus_0_3.
Qed.

End Forecasts.

(** C1: with both inputs non-empty, the AQI of the forecast point at step i
    is round (max (0, base * trendModifier ^ (i+1) * totalMultiplier)) on
    binary64 numbers, where base is the primary average, blended as
    base * 0.7 + secondary average * 0.3 when a secondary history is
    present, trendModifier is 0.95, 1.05 or 1.0 for an improving,
    deteriorating or stable primary trend, the power is the engine's
    [Math.pow], and totalMultiplier is the weather impact of that step's
    weather point. *)
Theorem forecast_aqi_formula (Math_pow : F64.t -> nat -> F64.t)
    (currentAQI : list F64.Reading.t) (weatherForecast : list F64.Weather.t)
    (regionalData : option (list F64.Reading.t)) (i : nat)
    (w : F64.Weather.t) :
  currentAQI <> [] ->
  nth_error weatherForecast i = Some w ->
  exists p,
    nth_error
      (F64.generatePredictiveForecast Math_pow currentAQI weatherForecast
         regionalData) i
    = Some p /\
    F64.Forecast.aqi p =
      F64.Math_round
        (F64.Math_max (F64.lit 0)
           (F64.Spec.base currentAQI regionalData
            * Math_pow
                (F64.Spec.trend_modifier
                   (F64.TrendSummary.trend (F64.analyzeAQITrend currentAQI)))
                (i + 1)%nat
            * F64.Impact.totalMultiplier (F64.calculateWeatherImpact w)))%f64.
Proof.
  intros Hc Hi. rewrite binary64_forecast_nth, Hi by assumption. simpl.
  eexists; split; [reflexivity |].
  unfold F64.forecastStep; cbn [F64.Forecast.aqi].
  now rewrite Math_max_0_round, binary64_baseAQI_blend.
Qed.

Lemma forecast_aqi_formula_witness :
  F64.fifty <> [] /\
  nth_error [F64.calm_high_pressure] 0 = Some F64.calm_high_pressure /\
  exists p,
    nth_error
      (F64.generatePredictiveForecast F64.pow_by_products F64.fifty
         [F64.calm_high_pressure] None) 0
    = Some p /\
    F64.Forecast.aqi p = F64.lit 52.
Proof.
  assert (Hc : F64.fifty <> []) by discriminate.
  split; [exact Hc |]. split; [reflexivity |].
  destruct (forecast_aqi_formula F64.pow_by_products F64.fifty
              [F64.calm_high_pressure] None 0 F64.calm_high_pressure Hc
              eq_refl) as (p & Hp & Haqi).
  exists p. split; [exact Hp |]. rewrite Haqi. vm_compute. reflexivity.
Defined.

(** *** An empty secondary history *)

(** C10: a secondary history that is supplied but empty is still blended:
    its trend summary is the fallback (stable, volatility 0, average 50), so
    the base AQI of every forecast point is primaryAverage * 0.7 + 50 * 0.3
    and not the primary average that an absent secondary history gives. *)
Theorem forecast_empty_secondary_blends (Math_pow : F64.t -> nat -> F64.t)
    (currentAQI : list F64.Reading.t) (weatherForecast : list F64.Weather.t)
    (i : nat) (w : F64.Weather.t) :
  currentAQI <> [] ->
  nth_error weatherForecast i = Some w ->
  let primaryTrend := F64.analyzeAQITrend currentAQI in
  let primaryAverage := F64.TrendSummary.averageAQI primaryTrend in
  option_map F64.analyzeAQITrend (Some [])
  = Some (F64.TrendSummary.mk stable (F64.lit 0) (F64.lit 50)) /\
  F64.baseAQI primaryTrend (option_map F64.analyzeAQITrend (Some []))
  = (primaryAverage * F64.lit 0.7 + F64.lit 50 * F64.lit 0.3)%f64 /\
  F64.baseAQI primaryTrend (option_map F64.analyzeAQITrend None)
  = primaryAverage /\
  exists p,
    nth_error
      (F64.generatePredictiveForecast Math_pow currentAQI weatherForecast
         (Some [])) i
    = Some p /\
    F64.Forecast.aqi p =
      F64.Math_max (F64.lit 0)
        (F64.Math_round
           ((primaryAverage * F64.lit 0.7 + F64.lit 50 * F64.lit 0.3)
            * Math_pow (F64.trendModifier primaryTrend) (i + 1)%nat
            * F64.Impact.totalMultiplier (F64.calculateWeatherImpact w)))%f64.
Proof.
  intros Hc Hi primaryTrend primaryAverage.
  assert (Hbase :
    F64.baseAQI primaryTrend (option_map F64.analyzeAQITrend (Some []))
    = (primaryAverage * F64.lit 0.7 + F64.lit 50 * F64.lit 0.3)%f64).
  { unfold F64.baseAQI, primaryAverage. cbn [option_map].
    rewrite analyzeAQITrend_nil. cbn [F64.TrendSummary.averageAQI].
    now rewrite lit_1_minus_0_3. }
  split; [reflexivity |].
  split; [exact Hbase |].
  split; [reflexivity |].
  rewrite binary64_forecast_nth, Hi by assumption.
  exists (F64.forecastStep Math_pow primaryTrend
            (option_map F64.analyzeAQITrend (Some [])) w i).
  split; [reflexivity |].
  unfold F64.forecastStep; cbn [F64.Forecast.aqi]. now rewrite Hbase.
Qed.

Lemma forecast_empty_secondary_blends_witness :
  F64.single_history <> [] /\
  nth_error [F64.mild_weather] 0 = Some F64.mild_weather /\
  F64.baseAQI (F64.analyzeAQITrend F64.single_history)
    (option_map F64.analyzeAQITrend (Some []))
  = F64.lit 44.4 /\
  F64.baseAQI (F64.analyzeAQITrend F64.single_history)
    (option_map F64.analyzeAQITrend None)
  = F64.lit 42.
Proof.
  assert (Hc : F64.single_history <> []) by discriminate.
  split; [exact Hc |]. split; [reflexivity |].
  destruct (forecast_empty_secondary_blends F64.pow_by_products
              F64.single_history [F64.mild_weather] 0 F64.mild_weather Hc
              eq_refl) as (_ & Hblend & Hplain & _).
  split.
  - rewrite Hblend. vm_compute. reflexivity.
  - rewrite Hplain. vm_compute. reflexivity.
Defined.

(** ** The standalone server: nearest sensor *)

Lemma signed_not_nan (s : bool) (r : F64.t) :
  F64.signed s r -> F64.is_nan r = false.
Proof. intros [-> | [-> | (m & e & ->)]]; reflexivity. Qed.

Lemma binary_normalize_not_nan (n e : Z) (s : bool) :
  F64.is_nan (binary_normalize prec emax n e s) = false.
Proof. exact (signed_not_nan _ _ (binary_normalize_signed prec emax n e s)). Qed.

(** A number minus a finite number is a number. *)
Lemma sub_not_nan (a b : F64.t) :
  F64.is_nan a = false -> F64.is_finite b = true ->
  F64.is_nan (a - b)%f64 = false.
Proof.
  destruct a as [sa | sa | | sa ma ea], b as [sb | sb | | sb mb eb];
    try discriminate; intros _ _.
  - destruct sa, sb; reflexivity.
  - reflexivity.
  - reflexivity.
  - reflexivity.
  - reflexivity.
  - apply binary_normalize_not_nan.
Qed.

Lemma Math_abs_signed (a : F64.t) :
  F64.is_nan a = false -> F64.signed false (F64.Math_abs a).
Proof.
  destruct a as [sa | sa | | sa ma ea]; try discriminate; intros _; simpl.
  - now left.
  - right; now left.
  - right; right. now exists ma, ea.
Qed.

(** The sum of two numbers that are not negative is a number. *)
Lemma add_signed_not_nan (a b : F64.t) :
  F64.signed false a -> F64.signed false b -> F64.is_nan (a + b)%f64 = false.
Proof.
  intros [-> | [-> | (ma & ea & ->)]] [-> | [-> | (mb & eb & ->)]];
    try reflexivity.
  apply binary_normalize_not_nan.
Qed.

Lemma manhattan_not_nan (lat lon : F64.t) (sensor : F64.channel) :
  F64.is_nan lat = false -> F64.is_nan lon = false ->
  F64.is_finite (F64.lat sensor) = true ->
  F64.is_finite (F64.lon sensor) = true ->
  F64.is_nan (F64.manhattan lat lon sensor) = false.
Proof.
  intros Hlat Hlon Hslat Hslon. unfold F64.manhattan.
  apply add_signed_not_nan; apply Math_abs_signed; now apply sub_not_nan.
Qed.

(** The loop of [findNearestSensor], unrolled over the two channels. *)
Lemma findNearestSensor_unrolled (lat lon : F64.t) :
  let d1 := F64.manhattan lat lon F64.bandar_ipoh in
  let d2 := F64.manhattan lat lon F64.perindustrian_tasek in
  F64.findNearestSensor lat lon =
    if F64.lt d1 F64.Infinity then
      if F64.lt d2 d1 then "perindustrian_tasek"%string
      else "bandar_ipoh"%string
    else
      if F64.lt d2 F64.Infinity then "perindustrian_tasek"%string
      else "bandar_ipoh"%string.
Proof.
  cbv zeta.
  unfold F64.findNearestSensor, F64.sensorChannels, fold_left, F64.nearestStep.
  fold (F64.manhattan lat lon F64.bandar_ipoh).
  fold (F64.manhattan lat lon F64.perindustrian_tasek).
  destruct (F64.lt (F64.manhattan lat lon F64.bandar_ipoh) F64.Infinity);
    [destruct (F64.lt (F64.manhattan lat lon F64.perindustrian_tasek)
                 (F64.manhattan lat lon F64.bandar_ipoh))
    | destruct (F64.lt (F64.manhattan lat lon F64.perindustrian_tasek)
                 F64.Infinity)];
    reflexivity.
Qed.

(** X7: for coordinates that are numbers, [findNearestSensor] names a
    configured channel, and no channel is nearer in the binary64 sum of the
    absolute coordinate differences; the second channel is chosen exactly
    when its sum is strictly smaller. *)
Theorem findNearestSensor_nearest (lat lon : F64.t) :
  F64.is_nan lat = false -> F64.is_nan lon = false ->
  exists sensor,
    F64.lookup (F64.findNearestSensor lat lon) F64.sensorChannels
    = Some sensor /\
    (forall key other, In (key, other) F64.sensorChannels ->
       F64.le (F64.manhattan lat lon sensor) (F64.manhattan lat lon other)
       = true) /\
    (F64.findNearestSensor lat lon = "perindustrian_tasek"%string
     \/ F64.findNearestSensor lat lon = "bandar_ipoh"%string) /\
    (F64.findNearestSensor lat lon = "perindustrian_tasek"%string <->
     F64.lt (F64.manhattan lat lon F64.perindustrian_tasek)
       (F64.manhattan lat lon F64.bandar_ipoh) = true).
Proof.
  intros Hlat Hlon.
  pose proof (manhattan_not_nan lat lon F64.bandar_ipoh Hlat Hlon
                eq_refl eq_refl) as H1.
  pose proof (manhattan_not_nan lat lon F64.perindustrian_tasek Hlat Hlon
                eq_refl eq_refl) as H2.
  rewrite (findNearestSensor_unrolled lat lon). cbv zeta.
  set (d1 := F64.manhattan lat lon F64.bandar_ipoh) in *.
  set (d2 := F64.manhattan lat lon F64.perindustrian_tasek) in *.
  destruct (F64.lt d1 F64.Infinity) eqn:Hfirst.
  - destruct (F64.lt d2 d1) eqn:Hsecond.
    + exists F64.perindustrian_tasek. split; [reflexivity |].
      split; [| split; [now left | now split]].
      intros key other [[= <- <-] | [[= <- <-] | []]]; fold d1 d2.
      * now apply lt_le.
      * now apply le_refl.
    + exists F64.bandar_ipoh. split; [reflexivity |].
      split; [| split; [now right | split; discriminate]].
      intros key other [[= <- <-] | [[= <- <-] | []]]; fold d1 d2.
      * now apply le_refl.
      * now apply lt_false_le.
  - pose proof (not_lt_Infinity d1 H1 Hfirst) as Hinf. rewrite Hinf.
    destruct (F64.lt d2 F64.Infinity) eqn:Hsecond.
    + exists F64.perindustrian_tasek. split; [reflexivity |].
      split; [| split; [now left | now split]].
      intros key other [[= <- <-] | [[= <- <-] | []]]; fold d1 d2.
      * rewrite Hinf. now apply lt_le.
      * now apply le_refl.
    + exists F64.bandar_ipoh. split; [reflexivity |].
      split; [| split; [now right | split; discriminate]].
      intros key other [[= <- <-] | [[= <- <-] | []]]; fold d1 d2.
      * now apply le_refl.
      * rewrite Hinf. apply lt_false_le; [exact H2 | reflexivity | exact Hsecond].
Qed.

(** Next to the line of equal distance the rounded sums decide: at latitude
    4.629038499999998, longitude 101 the sums are 0.11274549999999994 for
    Bandar Ipoh and 0.11274549999999905 for Perindustrian Tasek. *)
Lemma findNearestSensor_nearest_witness :
  F64.is_nan (F64.lit 4.629038499999998) = false /\
  F64.is_nan (F64.lit 101) = false /\
  F64.findNearestSensor (F64.lit 4.629038499999998) (F64.lit 101)
  = "perindustrian_tasek"%string /\
  F64.lt
    (F64.manhattan (F64.lit 4.629038499999998) (F64.lit 101)
       F64.perindustrian_tasek)
    (F64.manhattan (F64.lit 4.629038499999998) (F64.lit 101) F64.bandar_ipoh)
  = true.
Proof.
  split; [reflexivity |]. split; [reflexivity |].
  destruct (findNearestSensor_nearest (F64.lit 4.629038499999998) (F64.lit 101)
              eq_refl eq_refl) as (_ & _ & _ & _ & Hiff).
  assert (Hlt : F64.lt
    (F64.manhattan (F64.lit 4.629038499999998) (F64.lit 101)
       F64.perindustrian_tasek)
    (F64.manhattan (F64.lit 4.629038499999998) (F64.lit 101) F64.bandar_ipoh)
    = true) by (vm_compute; reflexivity).
  split; [exact (proj2 Hiff Hlt) | exact Hlt].
Defined.

(** ** Values the running program returns *)

(** The effects 1.3, 1, 0.9, 1 (calm, mild weather under high pressure)
    have the binary64 mean 1.0499999999999998, and one reading of AQI 50
    gives the forecast round (52.49999999999999) = 52, with or without an
    empty secondary history. *)
Example forecast_calm_high_pressure :
  F64.Impact.totalMultiplier (F64.calculateWeatherImpact F64.calm_high_pressure)
  = F64.lit 1.0499999999999998 /\
  map F64.Forecast.aqi
    (F64.generatePredictiveForecast F64.pow_by_products F64.fifty
       [F64.calm_high_pressure] None) = [F64.lit 52] /\
  map F64.Forecast.aqi
    (F64.generatePredictiveForecast F64.pow_by_products F64.fifty
       [F64.calm_high_pressure] (Some [])) = [F64.lit 52].
Proof. repeat split; vm_compute; reflexivity. Qed.

(** The effects 1, 0.9, 1.2, 0.9 sum to 4 on the reals; their binary64 mean
    is 0.9999999999999999. *)
Example totalMultiplier_below_one :
  F64.Impact.totalMultiplier
    (F64.calculateWeatherImpact
       (F64.Weather.mk 0 (F64.lit 10) (F64.lit 30) (F64.lit 10) (F64.lit 1000)))
  = F64.lit 0.9999999999999999.
Proof. vm_compute. reflexivity. Qed.

(** The readings 100 and 107 have volatility 3.5; the confidence of the
    first two forecast points is 0.95 and 0.91. *)
Example forecast_two_readings :
  F64.TrendSummary.volatility (F64.analyzeAQITrend F64.two_readings)
  = F64.lit 3.5 /\
  map F64.Forecast.confidence
    (F64.generatePredictiveForecast F64.pow_by_products F64.two_readings
       [F64.mild_weather; F64.mild_weather] None)
  = [F64.lit 0.95; F64.lit 0.91].
Proof. repeat split; vm_compute; reflexivity. Qed.

(** The readings 42, 42.3, 43 have the binary64 slope 0.5000000000000094
    and are classified as deteriorating. *)
Example trend_half_slope :
  F64.Spec.slope (F64.Spec.considered F64.half_slope)
  = F64.lit 0.5000000000000094 /\
  F64.TrendSummary.trend (F64.analyzeAQITrend F64.half_slope) = deteriorating.
Proof. repeat split; vm_compute; reflexivity. Qed.

(** The history 40, 42, 45, 48, 50, 55 is deteriorating, and with mild
    weather and no secondary history the first forecast point has AQI
    round (46.67 * 1.05) = 49, status "Good". *)
Example scenario_rising :
  F64.TrendSummary.trend (F64.analyzeAQITrend F64.rising_history)
  = deteriorating /\
  exists p,
    F64.generatePredictiveForecast F64.pow_by_products F64.rising_history
      [F64.mild_weather] None = [p] /\
    F64.Forecast.hour p = 0%Z /\ F64.Forecast.aqi p = F64.lit 49 /\
    F64.Forecast.status p = "Good"%string /\ F64.Forecast.prediction p = stable.
Proof.
  split; [vm_compute; reflexivity |].
  eexists. split; [reflexivity |]. repeat split; vm_compute; reflexivity.
Qed.

(** One reading of AQI 42 and mild weather: without a secondary history the
    forecast is 42, with an empty one it is round (42 * 0.7 + 50 * 0.3) = 44. *)
Example scenario_empty_secondary :
  map F64.Forecast.aqi
    (F64.generatePredictiveForecast F64.pow_by_products F64.single_history
       [F64.mild_weather] None) = [F64.lit 42] /\
  map F64.Forecast.aqi
    (F64.generatePredictiveForecast F64.pow_by_products F64.single_history
       [F64.mild_weather] (Some [])) = [F64.lit 44].
Proof. split; vm_compute; reflexivity. Qed.

(** * Rounding to binary64 is monotone *)

Section Rounding.

Import Round.
#[local] Open Scope Z_scope.

(** ** Number of binary digits *)

Lemma digits2_pos_bounds (p : positive) :
  2 ^ (Z.pos (digits2_pos p) - 1) <= Z.pos p < 2 ^ Z.pos (digits2_pos p).
Proof.
  induction p as [p IH | p IH |]; cbn [digits2_pos].
  - rewrite Pos2Z.inj_succ. change (Z.pos p~1) with (2 * Z.pos p + 1).
    replace (Z.succ (Z.pos (digits2_pos p)) - 1)
      with (Z.succ (Z.pos (digits2_pos p) - 1)) by lia.
    rewrite !Z.pow_succ_r by lia.
    revert IH. generalize (2 ^ (Z.pos (digits2_pos p) - 1)).
    generalize (2 ^ Z.pos (digits2_pos p)). generalize (Z.pos p). lia.
  - rewrite Pos2Z.inj_succ. change (Z.pos p~0) with (2 * Z.pos p).
    replace (Z.succ (Z.pos (digits2_pos p)) - 1)
      with (Z.succ (Z.pos (digits2_pos p) - 1)) by lia.
    rewrite !Z.pow_succ_r by lia.
    revert IH. generalize (2 ^ (Z.pos (digits2_pos p) - 1)).
    generalize (2 ^ Z.pos (digits2_pos p)). generalize (Z.pos p). lia.
  - simpl. lia.
Qed.

Lemma Zdigits2_bounds (x : Z) :
  0 < x -> 2 ^ (Zdigits2 x - 1) <= x < 2 ^ Zdigits2 x.
Proof.
  destruct x as [| p | p]; try lia. intros _. apply digits2_pos_bounds.
Qed.

Lemma Zdigits2_pos (x : Z) : 0 < x -> 0 < Zdigits2 x.
Proof. destruct x; simpl; lia. Qed.

(** The number of digits is determined by the bounds. *)
Lemma Zdigits2_unique (x d : Z) :
  2 ^ (d - 1) <= x < 2 ^ d -> 0 < d -> Zdigits2 x = d.
Proof.
  intros [Hlo Hhi] Hd.
  assert (Hx : 0 < x).
  { assert (0 < 2 ^ (d - 1)) by (apply Z.pow_pos_nonneg; lia). lia. }
  destruct (Zdigits2_bounds x Hx) as [Hlo' Hhi'].
  pose proof (Zdigits2_pos x Hx) as Hpos.
  destruct (Z.lt_trichotomy (Zdigits2 x) d) as [Hlt | [Heq | Hgt]];
    [| exact Heq |]; exfalso.
  - assert (2 ^ Zdigits2 x <= 2 ^ (d - 1))
      by (apply Z.pow_le_mono_r; lia).
    lia.
  - assert (2 ^ d <= 2 ^ (Zdigits2 x - 1))
      by (apply Z.pow_le_mono_r; lia).
    lia.
Qed.

Lemma Zdigits2_le (x y : Z) : 0 < x -> x <= y -> Zdigits2 x <= Zdigits2 y.
Proof.
  intros Hx Hxy.
  destruct (Zdigits2_bounds x Hx) as [Hlo _].
  destruct (Zdigits2_bounds y ltac:(lia)) as [_ Hhi].
  destruct (Z_le_gt_dec (Zdigits2 x) (Zdigits2 y)) as [H | H]; [exact H |].
  exfalso.
  assert (2 ^ Zdigits2 y <= 2 ^ (Zdigits2 x - 1))
    by (apply Z.pow_le_mono_r; lia).
  lia.
Qed.

Lemma Zdigits2_shift (x k : Z) :
  0 < x -> 0 <= k -> Zdigits2 (x * 2 ^ k) = Zdigits2 x + k.
Proof.
  intros Hx Hk.
  destruct (Zdigits2_bounds x Hx) as [Hlo Hhi].
  pose proof (Zdigits2_pos x Hx) as Hpos.
  assert (H2k : 0 < 2 ^ k) by (apply Z.pow_pos_nonneg; lia).
  apply Zdigits2_unique; [| lia].
  replace (Zdigits2 x + k - 1) with (Zdigits2 x - 1 + k) by lia.
  rewrite !Z.pow_add_r by lia. nia.
Qed.

(** ** Rounding to nearest, ties to even *)

Lemma rne_0 (x : Z) : rne 0 x = x.
Proof.
  unfold rne. cbv zeta. rewrite Z.pow_0_r, Z.mod_1_r, Z.div_1_r. reflexivity.
Qed.

Lemma rne_exact (n k : Z) : 0 <= n -> rne n (k * 2 ^ n) = k.
Proof.
  intros Hn. unfold rne. cbv zeta.
  assert (H2n : 0 < 2 ^ n) by (apply Z.pow_pos_nonneg; lia).
  rewrite Z.mod_mul, Z.div_mul by lia.
  assert (H : (2 * 0 ?= 2 ^ n) = Lt) by (apply Z.compare_lt_iff; lia).
  now rewrite H.
Qed.

Lemma rne_bounds (n x : Z) :
  0 <= n -> x / 2 ^ n <= rne n x <= x / 2 ^ n + 1.
Proof.
  intros Hn. unfold rne. cbv zeta.
  destruct (2 * (x mod 2 ^ n) ?= 2 ^ n);
    try destruct (Z.even (x / 2 ^ n)); lia.
Qed.

Lemma rne_mono (n x y : Z) : 0 <= n -> x <= y -> rne n x <= rne n y.
Proof.
  intros Hn Hxy.
  assert (H2n : 0 < 2 ^ n) by (apply Z.pow_pos_nonneg; lia).
  pose proof (Z.div_le_mono x y (2 ^ n) H2n Hxy) as Hq.
  pose proof (rne_bounds n x Hn) as Hx.
  pose proof (rne_bounds n y Hn) as Hy.
  destruct (Z.eq_dec (x / 2 ^ n) (y / 2 ^ n)) as [Heq | Hne]; [| lia].
  assert (Hr : x mod 2 ^ n <= y mod 2 ^ n).
  { pose proof (Z.div_mod x (2 ^ n) ltac:(lia)).
    pose proof (Z.div_mod y (2 ^ n) ltac:(lia)). nia. }
  unfold rne. cbv zeta. rewrite <- Heq.
  clear Hx Hy Hq Heq.
  set (q := x / 2 ^ n). set (rx := x mod 2 ^ n) in *.
  set (ry := y mod 2 ^ n) in *. set (P := 2 ^ n) in *.
  clearbody q rx ry P.
  destruct (Z.compare_spec (2 * rx) P); destruct (Z.compare_spec (2 * ry) P);
    try destruct (Z.even q); lia.
Qed.

(** The same number at a finer unit rounds the same. *)
Lemma rne_shift (n k x : Z) :
  0 <= n -> 0 <= k -> rne (n + k) (x * 2 ^ k) = rne n x.
Proof.
  intros Hn Hk. unfold rne. cbv zeta.
  assert (H2n : 0 < 2 ^ n) by (apply Z.pow_pos_nonneg; lia).
  assert (H2k : 0 < 2 ^ k) by (apply Z.pow_pos_nonneg; lia).
  rewrite Z.pow_add_r by lia.
  rewrite Z.div_mul_cancel_r by lia.
  rewrite Z.mul_mod_distr_r by lia.
  assert (H : (2 * (x mod 2 ^ n * 2 ^ k) ?= 2 ^ n * 2 ^ k)
              = (2 * (x mod 2 ^ n) ?= 2 ^ n)).
  { replace (2 * (x mod 2 ^ n * 2 ^ k)) with (2 * (x mod 2 ^ n) * 2 ^ k)
      by ring.
    symmetry. apply Zmult_compare_compat_r. lia. }
  now rewrite H.
Qed.

Lemma rne_nonneg (n x : Z) : 0 <= n -> 0 <= x -> 0 <= rne n x.
Proof.
  intros Hn Hx. pose proof (rne_bounds n x Hn).
  assert (0 <= x / 2 ^ n) by (apply Z.div_pos; [lia | apply Z.pow_pos_nonneg; lia]).
  lia.
Qed.

(** A number below [2^d] rounds to at most [2^(d-n)]. *)
Lemma rne_upper (n d x : Z) :
  0 <= n <= d -> x < 2 ^ d -> rne n x <= 2 ^ (d - n).
Proof.
  intros Hn Hx.
  assert (H2n : 0 < 2 ^ n) by (apply Z.pow_pos_nonneg; lia).
  assert (Hle : x <= 2 ^ (d - n) * 2 ^ n).
  { rewrite <- Z.pow_add_r by lia. replace (d - n + n) with d by lia. lia. }
  pose proof (rne_mono n _ _ ltac:(lia) Hle) as H.
  now rewrite rne_exact in H by lia.
Qed.

Lemma rne_lower (n d x : Z) :
  0 <= n <= d -> 2 ^ d <= x -> 2 ^ (d - n) <= rne n x.
Proof.
  intros Hn Hx.
  assert (Hle : 2 ^ (d - n) * 2 ^ n <= x).
  { rewrite <- Z.pow_add_r by lia. replace (d - n + n) with d by lia. lia. }
  pose proof (rne_mono n _ _ ltac:(lia) Hle) as H.
  now rewrite rne_exact in H by lia.
Qed.

(** ** Shifting a mantissa right *)

Lemma iter_pos_steps {A : Type} (f : A -> A) (P : Z -> A -> Prop) :
  (forall k x, 0 <= k -> P k x -> P (k + 1) (f x)) ->
  forall (p : positive) (k : Z) (x : A),
    0 <= k -> P k x -> P (k + Z.pos p) (iter_pos f p x).
Proof.
  intros Hf. induction p as [p IH | p IH |]; intros k x Hk Hx; simpl.
  - replace (k + Z.pos p~1) with (k + 1 + Z.pos p + Z.pos p) by lia.
    apply IH; [lia |]. apply IH; [lia |]. now apply Hf.
  - replace (k + Z.pos p~0) with (k + Z.pos p + Z.pos p) by lia.
    apply IH; [lia |]. now apply IH.
  - now apply Hf.
Qed.

Lemma shr_1_spec (m : Z) (r s : bool) :
  0 <= m ->
  shr_1 (Build_shr_record m r s)
  = Build_shr_record (m / 2) (Z.odd m) (r || s).
Proof.
  intros Hm. rewrite <- Z.div2_div.
  destruct m as [| [p | p |] | p]; try lia; reflexivity.
Qed.

Lemma split_bit (x k : Z) :
  0 <= x -> 1 <= k ->
  x / 2 ^ k = x / 2 ^ (k - 1) / 2 /\
  x mod 2 ^ k = x mod 2 ^ (k - 1) + 2 ^ (k - 1) * (x / 2 ^ (k - 1) mod 2).
Proof.
  intros Hx Hk.
  assert (Hp : 0 < 2 ^ (k - 1)) by (apply Z.pow_pos_nonneg; lia).
  replace (2 ^ k) with (2 ^ (k - 1) * 2)
    by (rewrite Z.mul_comm, <- Z.pow_succ_r by lia; f_equal; lia).
  split.
  - now rewrite Z.div_div by lia.
  - apply Z.rem_mul_r; lia.
Qed.

Lemma shr_1_shifted (x k : Z) :
  0 <= x -> 0 <= k -> shr_1 (shifted x k) = shifted x (k + 1).
Proof.
  intros Hx Hk. unfold shifted.
  replace (k + 1 =? 0) with false by (symmetry; apply Z.eqb_neq; lia).
  replace (k + 1 - 1) with k by lia.
  destruct (k =? 0) eqn:Hk0.
  - apply Z.eqb_eq in Hk0. subst k.
    rewrite shr_1_spec by lia.
    now rewrite Z.pow_0_r, Z.pow_1_r, Z.div_1_r, Z.mod_1_r.
  - apply Z.eqb_neq in Hk0.
    assert (H0 : 0 <= x / 2 ^ k)
      by (apply Z.div_pos; [lia | apply Z.pow_pos_nonneg; lia]).
    rewrite shr_1_spec by exact H0.
    destruct (split_bit x (k + 1) Hx ltac:(lia)) as [Hq _].
    replace (k + 1 - 1) with k in Hq by lia.
    destruct (split_bit x k Hx ltac:(lia)) as [_ Hr].
    f_equal; [now rewrite Hq |].
    rewrite Hr, Zmod_odd.
    assert (Hp : 0 < 2 ^ (k - 1)) by (apply Z.pow_pos_nonneg; lia).
    pose proof (Z.mod_pos_bound x (2 ^ (k - 1)) Hp) as Hb.
    set (b := x mod 2 ^ (k - 1)) in *.
    set (P := 2 ^ (k - 1)) in *. clearbody b P.
    destruct (Z.odd (x / P)); cbn [orb].
    + symmetry. apply negb_true_iff, Z.eqb_neq. nia.
    + now rewrite Z.mul_0_r, Z.add_0_r.
Qed.

Lemma shr_shifted (x : Z) (p : positive) :
  0 <= x ->
  iter_pos shr_1 p (Build_shr_record x false false) = shifted x (Z.pos p).
Proof.
  intros Hx.
  apply (iter_pos_steps shr_1 (fun k r => r = shifted x k)
           (fun k r Hk Hr => eq_trans (f_equal shr_1 Hr) (shr_1_shifted x k Hx Hk))
           p 0 (Build_shr_record x false false)); [lia | reflexivity].
Qed.

(** Rounding the shifted record is rounding to nearest even. *)
Lemma round_shifted (x k : Z) :
  0 <= x -> 0 <= k ->
  round_nearest_even (shr_m (shifted x k)) (loc_of_shr_record (shifted x k))
  = rne k x.
Proof.
  intros Hx Hk. unfold shifted.
  destruct (k =? 0) eqn:Hk0.
  - apply Z.eqb_eq in Hk0. subst k. cbn [shr_m loc_of_shr_record
      round_nearest_even]. now rewrite rne_0.
  - apply Z.eqb_neq in Hk0.
    destruct (split_bit x k Hx ltac:(lia)) as [Hq Hr].
    unfold rne. cbv zeta. rewrite Hr, Zmod_odd.
    assert (Hp : 0 < 2 ^ (k - 1)) by (apply Z.pow_pos_nonneg; lia).
    pose proof (Z.mod_pos_bound x (2 ^ (k - 1)) Hp) as Hb.
    replace (2 ^ k) with (2 * 2 ^ (k - 1))
      by (rewrite <- Z.pow_succ_r by lia; f_equal; lia).
    cbn [shr_m].
    set (b := x mod 2 ^ (k - 1)) in *.
    set (P := 2 ^ (k - 1)) in *.
    set (q := x / (2 * P)). clearbody b P q.
    destruct (Z.odd (x / P)).
    + destruct (Z.eqb_spec b 0) as [-> | Hb0];
        cbn [negb loc_of_shr_record round_nearest_even].
      * assert (H : (2 * (0 + P * 1) ?= 2 * P) = Eq)
          by (apply Z.compare_eq_iff; lia).
        now rewrite H.
      * assert (H : (2 * (b + P * 1) ?= 2 * P) = Gt)
          by (apply Z.compare_gt_iff; lia).
        now rewrite H.
    + assert (H : (2 * (b + P * 0) ?= 2 * P) = Lt)
        by (apply Z.compare_lt_iff; lia).
      rewrite H.
      destruct (Z.eqb_spec b 0); reflexivity.
Qed.

(** ** Rounding a mantissa to binary64 *)

Lemma fexp_eq (e : Z) : fexp prec emax e = Z.max (e - 53) (-1074).
Proof. reflexivity. Qed.

Lemma Zdigits2_lt (x d : Z) : 0 <= d -> 0 <= x < 2 ^ d -> Zdigits2 x <= d.
Proof.
  intros Hd [H0 Hx].
  destruct (Z.eq_dec x 0) as [-> | Hne]; [simpl; lia |].
  destruct (Zdigits2_bounds x ltac:(lia)) as [Hlo _].
  destruct (Z_le_gt_dec (Zdigits2 x) d) as [H | H]; [exact H |].
  exfalso.
  assert (2 ^ d <= 2 ^ (Zdigits2 x - 1)) by (apply Z.pow_le_mono_r; lia).
  lia.
Qed.

Lemma shr_fexp_exact (m e : Z) :
  0 <= m ->
  shr_fexp prec emax m e loc_Exact
  = (shifted m (Z.max 0 (fexp prec emax (Zdigits2 m + e) - e)),
     e + Z.max 0 (fexp prec emax (Zdigits2 m + e) - e)).
Proof.
  intros Hm. unfold shr_fexp, shr. cbn [shr_record_of_loc].
  destruct (fexp prec emax (Zdigits2 m + e) - e) as [| p | p] eqn:Hn.
  - now rewrite Z.add_0_r.
  - rewrite shr_shifted by exact Hm. rewrite Z.max_r by lia. reflexivity.
  - rewrite Z.max_l by lia. now rewrite Z.add_0_r.
Qed.

(** A mantissa below [2^d] shifted by at least [d - 53] digits rounds to
    at most [2^53]. *)
Lemma rne_53 (n d x : Z) :
  0 <= n -> 0 <= d -> d - 53 <= n -> 0 <= x < 2 ^ d -> 0 <= rne n x <= 2 ^ 53.
Proof.
  intros Hn Hd Hdn Hx. split; [apply rne_nonneg; lia |].
  destruct (Z_le_gt_dec n d) as [Hle | Hgt].
  - pose proof (rne_upper n d x ltac:(lia) ltac:(lia)) as H.
    assert (2 ^ (d - n) <= 2 ^ 53) by (apply Z.pow_le_mono_r; lia). lia.
  - assert (Hle : x <= 1 * 2 ^ n).
    { assert (2 ^ d <= 2 ^ n) by (apply Z.pow_le_mono_r; lia). lia. }
    pose proof (rne_mono n _ _ Hn Hle) as H.
    rewrite rne_exact in H by lia.
    assert (1 <= 2 ^ 53) by (vm_compute; discriminate). lia.
Qed.

(** [binary_round_aux] on an exact mantissa that has to be shifted right
    or kept. *)
Lemma binary_round_aux_RN (B : Z) (s : bool) (M E : Z) :
  0 < M -> B <= E -> E <= fexp prec emax (Zdigits2 M + E) ->
  binary_round_aux prec emax s M E loc_Exact = RN B s (M * 2 ^ (E - B)).
Proof.
  intros HM HB Hregime.
  unfold binary_round_aux, RN. cbv zeta.
  rewrite shr_fexp_exact by lia.
  rewrite Zdigits2_shift by lia.
  replace (Zdigits2 M + (E - B) + B) with (Zdigits2 M + E) by lia.
  set (t := fexp prec emax (Zdigits2 M + E)) in *.
  assert (Ht : -1074 <= t) by (unfold t; rewrite fexp_eq; lia).
  assert (Htd : Zdigits2 M + E - 53 <= t) by (unfold t; rewrite fexp_eq; lia).
  rewrite Z.max_r by lia.
  replace (E + (t - E)) with t by lia.
  rewrite round_shifted by lia.
  replace (t - B) with (t - E + (E - B)) by lia.
  rewrite rne_shift by lia.
  pose proof (Zdigits2_pos M HM) as Hd.
  destruct (Zdigits2_bounds M HM) as [_ Hhi].
  pose proof (rne_53 (t - E) (Zdigits2 M) M ltac:(lia) ltac:(lia) ltac:(lia)
                ltac:(lia)) as Hm1.
  set (m1 := rne (t - E) M) in *. clearbody m1.
  rewrite shr_fexp_exact by lia.
  destruct (Z.eqb_spec m1 (2 ^ 53)) as [-> | Hne].
  - (* the mantissa rounded up to 2^53 *)
    change (Zdigits2 (2 ^ 53)) with 54.
    rewrite fexp_eq. rewrite (Z.max_l (54 + t - 53)) by lia.
    replace (54 + t - 53 - t) with 1 by lia.
    rewrite (Z.max_r 0 1) by lia.
    change (shr_m (shifted (2 ^ 53) 1)) with (Z.pos (2 ^ 52)).
    cbv iota beta. reflexivity.
  - assert (Hlt : m1 < 2 ^ 53) by lia.
    pose proof (Zdigits2_lt m1 53 ltac:(lia) ltac:(lia)) as Hd1.
    rewrite fexp_eq. rewrite (Z.max_l 0) by lia.
    rewrite Z.add_0_r.
    change (shr_m (shifted m1 0)) with m1.
    destruct m1 as [| p | p]; try reflexivity. lia.
Qed.

Lemma iter_xO (m d : positive) :
  Z.pos (Pos.iter xO m d) = Z.pos m * 2 ^ Z.pos d.
Proof.
  induction d as [| d IH] using Pos.peano_ind.
  - simpl. lia.
  - rewrite Pos.iter_succ, Pos2Z.inj_succ, Z.pow_succ_r by lia.
    change (Z.pos (Pos.iter xO m d)~0) with (2 * Z.pos (Pos.iter xO m d)).
    rewrite IH. ring.
Qed.

Lemma binary_round_RN (B : Z) (s : bool) (m : positive) (e : Z) :
  B <= -1074 -> B <= e ->
  binary_round prec emax s m e = RN B s (Z.pos m * 2 ^ (e - B)).
Proof.
  intros HB He. unfold binary_round, shl_align.
  change (Z.pos (digits2_pos m)) with (Zdigits2 (Z.pos m)).
  set (t := fexp prec emax (Zdigits2 (Z.pos m) + e)).
  assert (Ht : -1074 <= t) by (unfold t; rewrite fexp_eq; lia).
  destruct (t - e) as [| d | d] eqn:Hd.
  - apply binary_round_aux_RN; [lia | lia | fold t; lia].
  - apply binary_round_aux_RN; [lia | lia | fold t; lia].
  - rewrite iter_xO.
    assert (Hte : e - t = Z.pos d) by lia.
    rewrite <- Hte.
    rewrite (binary_round_aux_RN B) .
    + f_equal. rewrite <- Z.mul_assoc, <- Z.pow_add_r by lia.
      do 2 f_equal. lia.
    + assert (0 < 2 ^ (e - t)) by (apply Z.pow_pos_nonneg; lia). lia.
    + lia.
    + rewrite Zdigits2_shift by lia.
      replace (Zdigits2 (Z.pos m) + (e - t) + t)
        with (Zdigits2 (Z.pos m) + e) by lia.
      fold t. lia.
Qed.

(** ** The order of binary64 numbers as an order of integers *)

Lemma SFcompare_rank (x y : spec_float) :
  ranked x = true -> ranked y = true ->
  SFcompare x y = Some (rank x ?= rank y).
Proof.
  assert (H54 : 2 ^ 54 = 18014398509481984) by reflexivity.
  assert (H70 : 2 ^ 70 = 1180591620717411303424) by reflexivity.
  destruct x as [sx | sx | | sx mx ex], y as [sy | sy | | sy my ey];
    try discriminate; unfold ranked, rank;
    rewrite ?andb_true_iff, ?Z.leb_le, ?Z.ltb_lt; rewrite ?H54, ?H70;
    intros Hx Hy; cbn [SFcompare]; f_equal; symmetry.
  - destruct sy; reflexivity.
  - destruct sy; cbn [cond_Zopp];
      [apply Z.compare_gt_iff | apply Z.compare_lt_iff]; lia.
  - destruct sx; reflexivity.
  - destruct sx, sy; reflexivity.
  - destruct sx; cbn [cond_Zopp];
      [apply Z.compare_lt_iff | apply Z.compare_gt_iff]; destruct sy;
      cbn [cond_Zopp]; lia.
  - destruct sx; cbn [cond_Zopp];
      [apply Z.compare_lt_iff | apply Z.compare_gt_iff]; lia.
  - destruct sy; cbn [cond_Zopp];
      [apply Z.compare_gt_iff | apply Z.compare_lt_iff]; destruct sx;
      cbn [cond_Zopp]; lia.
  - destruct sx, sy; cbn [cond_Zopp].
    + destruct (Z.compare_spec ex ey) as [-> | Hlt | Hgt].
      * change (Pos.compare_cont Eq mx my) with (mx ?= my)%positive.
        rewrite Pos2Z.inj_compare.
        destruct (Z.compare_spec (Z.pos mx) (Z.pos my)); cbn [CompOpp];
          [apply Z.compare_eq_iff | apply Z.compare_gt_iff
          | apply Z.compare_lt_iff]; lia.
      * apply Z.compare_gt_iff. lia.
      * apply Z.compare_lt_iff. lia.
    + apply Z.compare_lt_iff. lia.
    + apply Z.compare_gt_iff. lia.
    + destruct (Z.compare_spec ex ey) as [-> | Hlt | Hgt].
      * change (Pos.compare_cont Eq mx my) with (mx ?= my)%positive.
        rewrite Pos2Z.inj_compare.
        destruct (Z.compare_spec (Z.pos mx) (Z.pos my));
          [apply Z.compare_eq_iff | apply Z.compare_lt_iff
          | apply Z.compare_gt_iff]; lia.
      * apply Z.compare_lt_iff. lia.
      * apply Z.compare_gt_iff. lia.
Qed.

Lemma SFleb_rank (x y : spec_float) :
  ranked x = true -> ranked y = true ->
  SFleb x y = (rank x <=? rank y).
Proof.
  intros Hx Hy. unfold SFleb. rewrite (SFcompare_rank x y Hx Hy).
  unfold Z.leb. destruct (rank x ?= rank y); reflexivity.
Qed.

Lemma SFltb_rank (x y : spec_float) :
  ranked x = true -> ranked y = true ->
  SFltb x y = (rank x <? rank y).
Proof.
  intros Hx Hy. unfold SFltb. rewrite (SFcompare_rank x y Hx Hy).
  unfold Z.ltb. destruct (rank x ?= rank y); reflexivity.
Qed.

(** ** Rounding is monotone *)

Lemma Zdigits2_nonneg (x : Z) : 0 <= Zdigits2 x.
Proof. destruct x; simpl; lia. Qed.

(** The exponent and the mantissa [RN] chooses. *)
Lemma RN_parts (B X : Z) :
  B <= -1074 -> 0 <= X ->
  let t := fexp prec emax (Zdigits2 X + B) in
  let m := rne (t - B) X in
  -1074 <= t /\ Zdigits2 X + B - 53 <= t /\ 0 <= m <= 2 ^ 53 /\
  (-1074 < t -> 0 < X -> 2 ^ 52 <= m).
Proof.
  intros HB HX t m.
  assert (Ht : -1074 <= t) by (unfold t; rewrite fexp_eq; lia).
  assert (Htd : Zdigits2 X + B - 53 <= t) by (unfold t; rewrite fexp_eq; lia).
  pose proof (Zdigits2_nonneg X) as Hd.
  split; [exact Ht |]. split; [exact Htd |]. split.
  - destruct (Z.eq_dec X 0) as [-> | Hne].
    + unfold m. unfold rne. cbv zeta.
      rewrite Z.mod_0_l, Z.div_0_l
        by (apply Z.pow_nonzero; lia).
      assert (H : (2 * 0 ?= 2 ^ (t - B)) = Lt).
      { apply Z.compare_lt_iff.
        assert (0 < 2 ^ (t - B)) by (apply Z.pow_pos_nonneg; lia). lia. }
      rewrite H. split; [lia | vm_compute; discriminate].
    + destruct (Zdigits2_bounds X ltac:(lia)) as [_ Hhi].
      apply (rne_53 (t - B) (Zdigits2 X) X); lia.
  - intros Hnormal HXpos.
    assert (Heq : t = Zdigits2 X + B - 53)
      by (unfold t in *; rewrite fexp_eq in *; lia).
    destruct (Zdigits2_bounds X HXpos) as [Hlo _].
    pose proof (rne_lower (t - B) (Zdigits2 X - 1) X ltac:(lia) Hlo) as H.
    replace (Zdigits2 X - 1 - (t - B)) with 52 in H by lia. exact H.
Qed.

Lemma RN_ranked (B : Z) (s : bool) (X : Z) :
  B <= -1074 -> 0 <= X -> ranked (RN B s X) = true.
Proof.
  intros HB HX. destruct (RN_parts B X HB HX) as (Ht & _ & Hm & _).
  unfold RN. cbv zeta.
  set (t := fexp prec emax (Zdigits2 X + B)) in *.
  set (m := rne (t - B) X) in *. clearbody t m.
  change (emax - prec) with 971.
  assert (H53 : 2 ^ 53 = 9007199254740992) by reflexivity.
  rewrite H53 in *.
  destruct (Z.eqb_spec m 9007199254740992) as [-> | Hne].
  - destruct (Z.leb_spec (t + 1) 971); [| reflexivity].
    cbn [ranked]. rewrite !andb_true_iff, !Z.leb_le, Z.ltb_lt.
    repeat split; (lia || reflexivity).
  - destruct m as [| p | p]; try reflexivity.
    destruct (Z.leb_spec t 971); [| reflexivity].
    cbn [ranked]. rewrite !andb_true_iff, !Z.leb_le, Z.ltb_lt.
    change (2 ^ 54) with 18014398509481984. lia.
Qed.

Lemma RN_rank (B X : Z) :
  B <= -1074 -> 0 <= X ->
  let t := fexp prec emax (Zdigits2 X + B) in
  let m := rne (t - B) X in
  rank (RN B false X) =
    if m =? 2 ^ 53 then
      if t + 1 <=? 971 then (t + 1 + 1075) * 2 ^ 54 + 2 ^ 52 else 2 ^ 70
    else if 0 <? m then
      if t <=? 971 then (t + 1075) * 2 ^ 54 + m else 2 ^ 70
    else 0.
Proof.
  intros HB HX t m. destruct (RN_parts B X HB HX) as (Ht & _ & Hm & _).
  unfold RN. cbv zeta. cbv zeta in Hm, Ht. fold t in Hm, Ht |- *.
  fold m in Hm |- *. clearbody t m.
  change (emax - prec) with 971.
  destruct (m =? 2 ^ 53).
  - destruct (t + 1 <=? 971); reflexivity.
  - destruct m as [| p | p].
    + reflexivity.
    + change (0 <? Z.pos p) with true. cbv iota.
      destruct (t <=? 971); reflexivity.
    + lia.
Qed.

(** Rounding is monotone. *)
Lemma RN_mono (B X1 X2 : Z) :
  B <= -1074 -> 0 <= X1 <= X2 ->
  SFleb (RN B false X1) (RN B false X2) = true.
Proof.
  intros HB HX.
  rewrite SFleb_rank by (apply RN_ranked; lia).
  apply Z.leb_le.
  rewrite !RN_rank by lia. cbv zeta.
  destruct (RN_parts B X1 HB ltac:(lia)) as (Ht1 & Htd1 & Hm1 & _).
  destruct (RN_parts B X2 HB ltac:(lia)) as (Ht2 & Htd2 & Hm2 & Hn2).
  cbv zeta in *.
  assert (Hd : Zdigits2 X1 <= Zdigits2 X2).
  { destruct (Z.eq_dec X1 0) as [-> | Hne];
      [apply Zdigits2_nonneg | apply Zdigits2_le; lia]. }
  assert (Ht : fexp prec emax (Zdigits2 X1 + B)
               <= fexp prec emax (Zdigits2 X2 + B))
    by (rewrite !fexp_eq; lia).
  assert (Hsame : fexp prec emax (Zdigits2 X1 + B)
                  = fexp prec emax (Zdigits2 X2 + B) ->
                  rne (fexp prec emax (Zdigits2 X1 + B) - B) X1
                  <= rne (fexp prec emax (Zdigits2 X2 + B) - B) X2).
  { intros ->. apply rne_mono; lia. }
  assert (Hzero : X1 = 0 -> rne (fexp prec emax (Zdigits2 X1 + B) - B) X1 = 0).
  { intros ->. unfold rne. cbv zeta.
    rewrite Z.mod_0_l, Z.div_0_l by (apply Z.pow_nonzero; lia).
    assert (H : (2 * 0 ?= 2 ^ (fexp prec emax (Zdigits2 0 + B) - B)) = Lt).
    { apply Z.compare_lt_iff.
      assert (0 < 2 ^ (fexp prec emax (Zdigits2 0 + B) - B))
        by (apply Z.pow_pos_nonneg; lia).
      lia. }
    now rewrite H. }
  set (t1 := fexp prec emax (Zdigits2 X1 + B)) in *.
  set (t2 := fexp prec emax (Zdigits2 X2 + B)) in *.
  set (m1 := rne (t1 - B) X1) in *.
  set (m2 := rne (t2 - B) X2) in *.
  clearbody t1 t2 m1 m2.
  change (2 ^ 53) with 9007199254740992 in *.
  change (2 ^ 52) with 4503599627370496 in *.
  change (2 ^ 54) with 18014398509481984.
  change (2 ^ 70) with 1180591620717411303424.
  destruct (Z.eq_dec X1 0) as [H0 | H0].
  - rewrite (Hzero H0).
    change (0 =? 9007199254740992) with false. change (0 <? 0) with false.
    cbv iota.
    destruct (Z.eqb_spec m2 9007199254740992);
      [destruct (Z.leb_spec (t2 + 1) 971)
      | destruct (Z.ltb_spec 0 m2); [destruct (Z.leb_spec t2 971) |]]; lia.
  - assert (Hn2' : -1074 < t2 -> 4503599627370496 <= m2)
      by (intros; apply Hn2; lia).
    destruct (Z.eqb_spec m1 9007199254740992);
      [destruct (Z.leb_spec (t1 + 1) 971)
      | destruct (Z.ltb_spec 0 m1); [destruct (Z.leb_spec t1 971) |]];
      (destruct (Z.eqb_spec m2 9007199254740992);
       [destruct (Z.leb_spec (t2 + 1) 971)
       | destruct (Z.ltb_spec 0 m2); [destruct (Z.leb_spec t2 971) |]]);
      try lia.
Qed.

(** ** Binary64 numbers in canonical form *)

Lemma valid_parts (s : bool) (m : positive) (e : Z) :
  valid_binary prec emax (S754_finite s m e) = true ->
  -1074 <= e <= 971 /\ Zdigits2 (Z.pos m) <= 53 /\
  (-1074 < e -> Zdigits2 (Z.pos m) = 53).
Proof.
  unfold valid_binary, bounded, canonical_mantissa.
  rewrite andb_true_iff, Z.eqb_eq, Z.leb_le, fexp_eq.
  change (Z.pos (digits2_pos m)) with (Zdigits2 (Z.pos m)).
  change (emax - prec) with 971. lia.
Qed.

Lemma valid_ranked (x : spec_float) :
  valid_binary prec emax x = true -> x <> S754_nan -> ranked x = true.
Proof.
  destruct x as [s | s | | s m e]; try reflexivity; [congruence |].
  intros Hv _. destruct (valid_parts s m e Hv) as (He & Hd & _).
  unfold ranked. rewrite !andb_true_iff, !Z.leb_le, Z.ltb_lt.
  destruct (Zdigits2_bounds (Z.pos m) ltac:(lia)) as [_ Hhi].
  assert (2 ^ Zdigits2 (Z.pos m) <= 2 ^ 53)
    by (apply Z.pow_le_mono_r; lia).
  change (2 ^ 53) with 9007199254740992 in *.
  change (2 ^ 54) with 18014398509481984. lia.
Qed.

Lemma Zdigits2_ge (x d : Z) : 0 <= d -> 2 ^ d <= x -> d + 1 <= Zdigits2 x.
Proof.
  intros Hd Hx.
  assert (0 < 2 ^ d) by (apply Z.pow_pos_nonneg; lia).
  destruct (Zdigits2_bounds x ltac:(lia)) as [_ Hhi].
  destruct (Z_le_gt_dec (d + 1) (Zdigits2 x)) as [H' | H']; [exact H' |].
  exfalso.
  assert (2 ^ Zdigits2 x <= 2 ^ d)
    by (apply Z.pow_le_mono_r; [lia | lia]).
  lia.
Qed.

Lemma RN_valid (B : Z) (s : bool) (X : Z) :
  B <= -1074 -> 0 <= X -> valid_binary prec emax (RN B s X) = true.
Proof.
  intros HB HX. destruct (RN_parts B X HB HX) as (Ht & _ & Hm & Hn).
  unfold RN. cbv zeta. cbv zeta in Ht, Hm, Hn.
  set (t := fexp prec emax (Zdigits2 X + B)) in *.
  set (m := rne (t - B) X) in *.
  change (emax - prec) with 971.
  destruct (Z.eqb_spec m (2 ^ 53)) as [Heq | Hne].
  - destruct (Z.leb_spec (t + 1) 971); [| reflexivity].
    unfold valid_binary, bounded, canonical_mantissa.
    rewrite andb_true_iff, Z.eqb_eq, Z.leb_le, fexp_eq.
    change (Z.pos (digits2_pos (2 ^ 52))) with 53.
    change (emax - prec) with 971. lia.
  - destruct m as [| p | p] eqn:Hp; try reflexivity.
    destruct (Z.leb_spec t 971); [| reflexivity].
    unfold valid_binary, bounded, canonical_mantissa.
    rewrite andb_true_iff, Z.eqb_eq, Z.leb_le, fexp_eq.
    change (Z.pos (digits2_pos p)) with (Zdigits2 (Z.pos p)).
    change (emax - prec) with 971.
    assert (Hd : Zdigits2 (Z.pos p) <= 53)
      by (apply Zdigits2_lt; lia).
    split; [| lia].
    destruct (Z.eq_dec t (-1074)) as [-> | Hnormal]; [lia |].
    assert (HXpos : 0 < X).
    { destruct (Z.eq_dec X 0) as [H0 | H0]; [| lia]. exfalso.
      subst X. unfold m, rne in Hp. cbv zeta in Hp.
      rewrite Z.mod_0_l, Z.div_0_l in Hp by (apply Z.pow_nonzero; lia).
      assert (H' : (2 * 0 ?= 2 ^ (t - B)) = Lt).
      { apply Z.compare_lt_iff.
        assert (0 < 2 ^ (t - B)) by (apply Z.pow_pos_nonneg; lia). lia. }
      rewrite H' in Hp. discriminate Hp. }
    pose proof (Hn ltac:(lia) HXpos) as H52.
    pose proof (Zdigits2_ge (Z.pos p) 52 ltac:(lia) H52). lia.
Qed.

(** A number in canonical form rounds to itself. *)
Lemma RN_exact (B : Z) (s : bool) (m : positive) (e : Z) :
  B <= -1074 -> valid_binary prec emax (S754_finite s m e) = true ->
  RN B s (Z.pos m * 2 ^ (e - B)) = S754_finite s m e.
Proof.
  intros HB Hv. destruct (valid_parts s m e Hv) as (He & Hd & Hn).
  unfold RN. cbv zeta.
  rewrite Zdigits2_shift by lia.
  replace (Zdigits2 (Z.pos m) + (e - B) + B) with (Zdigits2 (Z.pos m) + e)
    by lia.
  assert (Ht : fexp prec emax (Zdigits2 (Z.pos m) + e) = e)
    by (rewrite fexp_eq; lia).
  rewrite Ht, rne_exact by lia.
  destruct (Zdigits2_bounds (Z.pos m) ltac:(lia)) as [_ Hhi].
  assert (2 ^ Zdigits2 (Z.pos m) <= 2 ^ 53)
    by (apply Z.pow_le_mono_r; lia).
  destruct (Z.eqb_spec (Z.pos m) (2 ^ 53)); [lia |].
  change (emax - prec) with 971.
  destruct (Z.leb_spec e 971); [reflexivity | lia].
Qed.

(** On canonical forms the order of the ranks is the order of the
    values. *)
Lemma rank_mag (B : Z) (x y : spec_float) :
  B <= -1074 ->
  valid_binary prec emax x = true -> valid_binary prec emax y = true ->
  nonneg_finite x = true -> nonneg_finite y = true ->
  (rank x <= rank y <-> mag B x <= mag B y).
Proof.
  intros HB Hvx Hvy Hx Hy.
  destruct x as [sx | sx | | [] mx ex], y as [sy | sy | | [] my ey];
    try discriminate; cbn [rank mag cond_Zopp].
  - lia.
  - destruct (valid_parts _ _ _ Hvy) as (He & _).
    assert (0 < 2 ^ (ey - B)) by (apply Z.pow_pos_nonneg; lia).
    change (2 ^ 54) with 18014398509481984. nia.
  - destruct (valid_parts _ _ _ Hvx) as (He & _).
    assert (0 < 2 ^ (ex - B)) by (apply Z.pow_pos_nonneg; lia).
    change (2 ^ 54) with 18014398509481984. nia.
  - destruct (valid_parts _ _ _ Hvx) as (Hex & Hdx & Hnx).
    destruct (valid_parts _ _ _ Hvy) as (Hey & Hdy & Hny).
    destruct (Zdigits2_bounds (Z.pos mx) ltac:(lia)) as [Hlx Hhx].
    destruct (Zdigits2_bounds (Z.pos my) ltac:(lia)) as [Hly Hhy].
    assert (H53x : 2 ^ Zdigits2 (Z.pos mx) <= 2 ^ 53)
      by (apply Z.pow_le_mono_r; lia).
    assert (H53y : 2 ^ Zdigits2 (Z.pos my) <= 2 ^ 53)
      by (apply Z.pow_le_mono_r; lia).
    change (2 ^ 54) with 18014398509481984.
    change (2 ^ 53) with 9007199254740992 in *.
    destruct (Z.lt_trichotomy ex ey) as [Hlt | [Heq | Hgt]].
    + (* the smaller exponent is the smaller number *)
      rewrite (Hny ltac:(lia)) in Hly.
      change (2 ^ (53 - 1)) with 4503599627370496 in Hly.
      assert (Hpow : 2 * 2 ^ (ex - B) <= 2 ^ (ey - B)).
      { rewrite <- Z.pow_succ_r by lia. apply Z.pow_le_mono_r; lia. }
      assert (0 < 2 ^ (ex - B)) by (apply Z.pow_pos_nonneg; lia).
      split; intros _; [nia | lia].
    + subst ey.
      assert (0 < 2 ^ (ex - B)) by (apply Z.pow_pos_nonneg; lia).
      split; intros Hle; nia.
    + rewrite (Hnx ltac:(lia)) in Hlx.
      change (2 ^ (53 - 1)) with 4503599627370496 in Hlx.
      assert (Hpow : 2 * 2 ^ (ey - B) <= 2 ^ (ex - B)).
      { rewrite <- Z.pow_succ_r by lia. apply Z.pow_le_mono_r; lia. }
      assert (0 < 2 ^ (ey - B)) by (apply Z.pow_pos_nonneg; lia).
      split; intros Hle; [lia | nia].
Qed.

(** ** Signed rounding *)

Lemma RN_opp (B : Z) (s : bool) (X : Z) :
  RN B (negb s) X = SFopp (RN B s X).
Proof.
  unfold RN. cbv zeta.
  destruct (rne (fexp prec emax (Zdigits2 X + B) - B) X =? 2 ^ 53).
  - destruct (fexp prec emax (Zdigits2 X + B) + 1 <=? emax - prec);
      reflexivity.
  - destruct (rne (fexp prec emax (Zdigits2 X + B) - B) X); try reflexivity.
    destruct (fexp prec emax (Zdigits2 X + B) <=? emax - prec); reflexivity.
Qed.

Lemma rank_opp (x : spec_float) : rank (SFopp x) = - rank x.
Proof.
  destruct x as [s | s | | s m e]; try reflexivity; destruct s;
    cbn [SFopp rank negb cond_Zopp]; lia.
Qed.

Lemma ranked_opp (x : spec_float) : ranked (SFopp x) = ranked x.
Proof. destruct x; reflexivity. Qed.

Lemma valid_opp (x : spec_float) :
  valid_binary prec emax (SFopp x) = valid_binary prec emax x.
Proof. destruct x; reflexivity. Qed.

Lemma RNs_ranked (B D : Z) : B <= -1074 -> ranked (RNs B D) = true.
Proof.
  intros HB. destruct D; [reflexivity | |]; apply RN_ranked; lia.
Qed.

Lemma RNs_valid (B D : Z) :
  B <= -1074 -> valid_binary prec emax (RNs B D) = true.
Proof.
  intros HB. destruct D; [reflexivity | |]; apply RN_valid; lia.
Qed.

Lemma RN_0 (B : Z) (s : bool) : B <= -1074 -> RN B s 0 = S754_zero s.
Proof.
  intros HB. unfold RN. cbv zeta.
  set (t := fexp prec emax (Zdigits2 0 + B)).
  assert (Ht : -1074 <= t) by (unfold t; rewrite fexp_eq; lia).
  assert (H : rne (t - B) 0 = 0).
  { unfold rne. cbv zeta.
    rewrite Z.mod_0_l, Z.div_0_l by (apply Z.pow_nonzero; lia).
    assert (H' : (2 * 0 ?= 2 ^ (t - B)) = Lt).
    { apply Z.compare_lt_iff.
      assert (0 < 2 ^ (t - B)) by (apply Z.pow_pos_nonneg; lia). lia. }
    now rewrite H'. }
  rewrite H. reflexivity.
Qed.

Lemma RN_rank_nonneg (B X : Z) :
  B <= -1074 -> 0 <= X -> 0 <= rank (RN B false X).
Proof.
  intros HB HX.
  pose proof (RN_mono B 0 X HB ltac:(lia)) as H.
  rewrite SFleb_rank in H by (apply RN_ranked; lia).
  apply Z.leb_le in H. now rewrite RN_0 in H by lia.
Qed.

Lemma RNs_mono (B D1 D2 : Z) :
  B <= -1074 -> D1 <= D2 -> rank (RNs B D1) <= rank (RNs B D2).
Proof.
  intros HB HD.
  assert (Hmono : forall X1 X2, 0 <= X1 <= X2 ->
            rank (RN B false X1) <= rank (RN B false X2)).
  { intros X1 X2 HX. pose proof (RN_mono B X1 X2 HB HX) as H.
    rewrite SFleb_rank in H by (apply RN_ranked; lia).
    now apply Z.leb_le in H. }
  assert (Hneg : forall X, rank (RN B true X) = - rank (RN B false X)).
  { intros X. change true with (negb false). now rewrite RN_opp, rank_opp. }
  destruct D1 as [| p1 | p1], D2 as [| p2 | p2]; try lia; cbn [RNs rank];
    rewrite ?Hneg.
  - apply RN_rank_nonneg; lia.
  - apply Hmono; lia.
  - pose proof (RN_rank_nonneg B (Z.pos p1) HB ltac:(lia)). lia.
  - pose proof (RN_rank_nonneg B (Z.pos p1) HB ltac:(lia)).
    pose proof (RN_rank_nonneg B (Z.pos p2) HB ltac:(lia)). lia.
  - pose proof (Hmono (Z.pos p2) (Z.pos p1) ltac:(lia)). lia.
Qed.

Lemma binary_normalize_RNs (B D e : Z) :
  B <= -1074 -> B <= e ->
  binary_normalize prec emax D e false = RNs B (D * 2 ^ (e - B)).
Proof.
  intros HB He.
  assert (Hp : 0 < 2 ^ (e - B)) by (apply Z.pow_pos_nonneg; lia).
  destruct D as [| p | p]; cbn [binary_normalize].
  - reflexivity.
  - rewrite (binary_round_RN B) by lia.
    destruct (Z.pos p * 2 ^ (e - B)) eqn:H; try lia. reflexivity.
  - rewrite (binary_round_RN B) by lia.
    replace (Z.neg p * 2 ^ (e - B)) with (- (Z.pos p * 2 ^ (e - B))) by lia.
    destruct (Z.pos p * 2 ^ (e - B)) eqn:H; try lia. reflexivity.
Qed.

Lemma shl_align_fst (m : positive) (e e' : Z) :
  e' <= e -> Z.pos (fst (shl_align m e e')) = Z.pos m * 2 ^ (e - e').
Proof.
  intros He. unfold shl_align.
  destruct (e' - e) as [| d | d] eqn:Hd; cbn [fst]; try lia.
  - replace (e - e') with 0 by lia. simpl. lia.
  - rewrite iter_xO. f_equal. f_equal. lia.
Qed.

(** The difference of two finite numbers is their exact difference,
    rounded. *)
Lemma SFsub_finite (x y : spec_float) :
  valid_binary prec emax x = true -> valid_binary prec emax y = true ->
  finite x = true -> finite y = true ->
  rank (SFsub prec emax x y) = rank (RNs (-1074) (sv (-1074) x - sv (-1074) y))
  /\ valid_binary prec emax (SFsub prec emax x y) = true
  /\ ranked (SFsub prec emax x y) = true.
Proof.
  intros Hvx Hvy Hx Hy.
  destruct x as [sx | sx | | sx mx ex], y as [sy | sy | | sy my ey];
    try discriminate.
  - destruct sx, sy; repeat split; reflexivity.
  - cbn [SFsub sv].
    assert (Heq : S754_finite (negb sy) my ey
                  = RNs (-1074) (0 - cond_Zopp sy (Z.pos my * 2 ^ (ey - -1074)))).
    { destruct (valid_parts _ _ _ Hvy) as (He & _).
      assert (0 < Z.pos my * 2 ^ (ey - -1074))
        by (assert (0 < 2 ^ (ey - -1074)) by (apply Z.pow_pos_nonneg; lia);
            lia).
      destruct sy; cbn [cond_Zopp negb].
      - replace (0 - - (Z.pos my * 2 ^ (ey - -1074)))
          with (Z.pos my * 2 ^ (ey - -1074)) by lia.
        destruct (Z.pos my * 2 ^ (ey - -1074)) eqn:H'; try lia.
        cbn [RNs]. rewrite <- H'. symmetry. now apply RN_exact.
      - replace (0 - Z.pos my * 2 ^ (ey - -1074))
          with (- (Z.pos my * 2 ^ (ey - -1074))) by lia.
        destruct (Z.pos my * 2 ^ (ey - -1074)) eqn:H'; try lia.
        cbn [Z.opp RNs]. rewrite <- H'. symmetry. now apply RN_exact. }
    rewrite <- Heq. split; [reflexivity |].
    split; [exact Hvy | apply valid_ranked; [exact Hvy | discriminate]].
  - cbn [SFsub sv].
    assert (Heq : S754_finite sx mx ex
                  = RNs (-1074) (cond_Zopp sx (Z.pos mx * 2 ^ (ex - -1074)) - 0)).
    { destruct (valid_parts _ _ _ Hvx) as (He & _).
      assert (0 < Z.pos mx * 2 ^ (ex - -1074))
        by (assert (0 < 2 ^ (ex - -1074)) by (apply Z.pow_pos_nonneg; lia);
            lia).
      rewrite Z.sub_0_r.
      destruct sx; cbn [cond_Zopp].
      - destruct (Z.pos mx * 2 ^ (ex - -1074)) eqn:H'; try lia.
        cbn [Z.opp RNs]. rewrite <- H'. symmetry. now apply RN_exact.
      - destruct (Z.pos mx * 2 ^ (ex - -1074)) eqn:H'; try lia.
        cbn [RNs]. rewrite <- H'. symmetry. now apply RN_exact. }
    rewrite <- Heq. split; [reflexivity |].
    split; [exact Hvx | apply valid_ranked; [exact Hvx | discriminate]].
  - destruct (valid_parts _ _ _ Hvx) as (Hex & _).
    destruct (valid_parts _ _ _ Hvy) as (Hey & _).
    cbn [SFsub sv]. cbv zeta.
    rewrite !shl_align_fst by lia.
    rewrite (binary_normalize_RNs (-1074)) by lia.
    assert (Heq : (cond_Zopp sx (Z.pos mx * 2 ^ (ex - Z.min ex ey))
                   - cond_Zopp sy (Z.pos my * 2 ^ (ey - Z.min ex ey)))
                  * 2 ^ (Z.min ex ey - -1074)
                  = cond_Zopp sx (Z.pos mx * 2 ^ (ex - -1074))
                    - cond_Zopp sy (Z.pos my * 2 ^ (ey - -1074))).
    { replace (ex - -1074) with (ex - Z.min ex ey + (Z.min ex ey - -1074))
        by lia.
      replace (ey - -1074) with (ey - Z.min ex ey + (Z.min ex ey - -1074))
        by lia.
      rewrite !Z.pow_add_r by lia.
      destruct sx, sy; cbn [cond_Zopp]; ring. }
    rewrite Heq.
    split; [reflexivity |].
    split; [apply RNs_valid | apply RNs_ranked]; lia.
Qed.

(** ** Products *)

(** The product of two finite numbers is their exact product, rounded. *)
Lemma SFmul_finite (x y : spec_float) :
  valid_binary prec emax x = true -> valid_binary prec emax y = true ->
  finite x = true -> finite y = true ->
  SFmul prec emax x y
  = RN (-2148) (xorb (sign x) (sign y)) (mag (-1074) x * mag (-1074) y).
Proof.
  intros Hvx Hvy Hx Hy.
  destruct x as [sx | sx | | sx mx ex], y as [sy | sy | | sy my ey];
    try discriminate; cbn [SFmul sign mag];
    rewrite ?Z.mul_0_l, ?Z.mul_0_r, ?RN_0 by lia; try reflexivity.
  destruct (valid_parts _ _ _ Hvx) as (Hex & Hdx & Hnx).
  destruct (valid_parts _ _ _ Hvy) as (Hey & Hdy & Hny).
  change (Z.pos (mx * my)) with (Z.pos mx * Z.pos my).
  rewrite (binary_round_aux_RN (-2148)).
  - f_equal.
    replace (ex + ey - -2148) with (ex - -1074 + (ey - -1074)) by lia.
    rewrite Z.pow_add_r by lia. ring.
  - lia.
  - lia.
  - (* the product has enough digits, or its exponent is small enough *)
    rewrite fexp_eq.
    destruct (Zdigits2_bounds (Z.pos mx) ltac:(lia)) as [Hlx _].
    destruct (Zdigits2_bounds (Z.pos my) ltac:(lia)) as [Hly _].
    pose proof (Zdigits2_pos (Z.pos mx) ltac:(lia)) as Hpx.
    pose proof (Zdigits2_pos (Z.pos my) ltac:(lia)) as Hpy.
    assert (Hprod : 2 ^ (Zdigits2 (Z.pos mx) - 1 + (Zdigits2 (Z.pos my) - 1))
                    <= Z.pos mx * Z.pos my).
    { rewrite Z.pow_add_r by lia.
      apply Z.mul_le_mono_nonneg; try lia; apply Z.pow_nonneg; lia. }
    pose proof (Zdigits2_ge (Z.pos mx * Z.pos my)
                  (Zdigits2 (Z.pos mx) - 1 + (Zdigits2 (Z.pos my) - 1))
                  ltac:(lia) Hprod) as Hd.
    destruct (Z.eq_dec ex (-1074)) as [Hx0 | Hx0];
      destruct (Z.eq_dec ey (-1074)) as [Hy0 | Hy0]; lia.
Qed.

Lemma rank_le_inf (x : spec_float) :
  ranked x = true -> - 2 ^ 70 <= rank x <= 2 ^ 70.
Proof.
  destruct x as [s | s | | s m e]; try discriminate; unfold ranked, rank.
  - intros _. vm_compute. split; discriminate.
  - intros _. destruct s; vm_compute; split; discriminate.
  - rewrite !andb_true_iff, !Z.leb_le, Z.ltb_lt.
    change (2 ^ 54) with 18014398509481984.
    change (2 ^ 70) with 1180591620717411303424.
    destruct s; cbn [cond_Zopp]; lia.
Qed.

Lemma nonneg_ranked (x : spec_float) : nonneg x = true -> ranked x = true.
Proof.
  unfold nonneg. rewrite andb_true_iff. intros [Hv Hs].
  apply valid_ranked; [exact Hv |]. now destruct x.
Qed.

Lemma nonneg_rank (x : spec_float) : nonneg x = true -> 0 <= rank x.
Proof.
  unfold nonneg. rewrite andb_true_iff. intros [Hv Hs].
  destruct x as [s | [] | | [] m e]; try discriminate Hs;
    cbn [rank cond_Zopp].
  - lia.
  - vm_compute. discriminate.
  - destruct (valid_parts _ _ _ Hv) as (He & _).
    change (2 ^ 54) with 18014398509481984. lia.
Qed.

(** The rank [2^70] is that of [+oo] alone. *)
Lemma rank_inf (x : spec_float) :
  ranked x = true -> rank x = 2 ^ 70 -> x = S754_infinity false.
Proof.
  destruct x as [s | s | | s m e]; try discriminate; unfold ranked, rank.
  - intros _. destruct s; [| reflexivity]. intros H. vm_compute in H.
    discriminate H.
  - rewrite !andb_true_iff, !Z.leb_le, Z.ltb_lt.
    change (2 ^ 54) with 18014398509481984.
    change (2 ^ 70) with 1180591620717411303424.
    destruct s; cbn [cond_Zopp]; lia.
Qed.

Lemma mag_nonneg (B : Z) (x : spec_float) : 0 <= mag B x.
Proof.
  destruct x as [| | | s m e]; cbn [mag]; try lia.
Qed.

Lemma mag_pos (s : bool) (m : positive) (e : Z) :
  valid_binary prec emax (S754_finite s m e) = true ->
  0 < mag (-1074) (S754_finite s m e).
Proof.
  intros Hv. destruct (valid_parts _ _ _ Hv) as (He & _). cbn [mag].
  assert (0 < 2 ^ (e - -1074)) by (apply Z.pow_pos_nonneg; lia). lia.
Qed.

Lemma nonneg_cases (x : spec_float) :
  nonneg x = true ->
  (exists s, x = S754_zero s) \/ x = S754_infinity false \/
  (exists m e, x = S754_finite false m e /\
               valid_binary prec emax (S754_finite false m e) = true).
Proof.
  unfold nonneg. rewrite andb_true_iff. intros [Hv Hs].
  destruct x as [s | [] | | [] m e]; try discriminate Hs.
  - left. now exists s.
  - right. now left.
  - right. right. now exists m, e.
Qed.

Lemma RN_nonneg (B X : Z) :
  B <= -1074 -> 0 <= X -> nonneg (RN B false X) = true.
Proof.
  intros HB HX. unfold nonneg. rewrite RN_valid by lia. cbn [andb].
  unfold RN. cbv zeta.
  destruct (rne (fexp prec emax (Zdigits2 X + B) - B) X =? 2 ^ 53).
  - destruct (fexp prec emax (Zdigits2 X + B) + 1 <=? emax - prec);
      reflexivity.
  - destruct (rne (fexp prec emax (Zdigits2 X + B) - B) X); try reflexivity.
    destruct (fexp prec emax (Zdigits2 X + B) <=? emax - prec); reflexivity.
Qed.

(** The product of a number that is not negative and a positive finite
    number. *)
Lemma SFmul_nonneg (x : spec_float) (mc : positive) (ec : Z) :
  nonneg x = true ->
  valid_binary prec emax (S754_finite false mc ec) = true ->
  nonneg (SFmul prec emax x (S754_finite false mc ec)) = true /\
  rank (SFmul prec emax x (S754_finite false mc ec))
  = if finite x
    then rank (RN (-2148) false
                 (mag (-1074) x * mag (-1074) (S754_finite false mc ec)))
    else 2 ^ 70.
Proof.
  intros Hx Hvc.
  pose proof (mag_pos _ _ _ Hvc) as Hc.
  destruct (nonneg_cases x Hx) as [[s ->] | [-> | (m & e & -> & Hv)]].
  - cbn [SFmul finite mag xorb]. rewrite Z.mul_0_l, RN_0 by lia.
    split; reflexivity.
  - split; reflexivity.
  - pose proof (mag_pos _ _ _ Hv) as Hm.
    rewrite SFmul_finite by (assumption || reflexivity).
    cbn [sign xorb finite].
    split; [apply RN_nonneg; nia | reflexivity].
Qed.

(** Multiplying by a positive finite number is monotone on the numbers
    that are not negative. *)
Lemma SFmul_mono (x1 x2 : spec_float) (mc : positive) (ec : Z) :
  nonneg x1 = true -> nonneg x2 = true ->
  valid_binary prec emax (S754_finite false mc ec) = true ->
  rank x1 <= rank x2 ->
  rank (SFmul prec emax x1 (S754_finite false mc ec))
  <= rank (SFmul prec emax x2 (S754_finite false mc ec)).
Proof.
  intros H1 H2 Hvc Hle.
  destruct (SFmul_nonneg x1 mc ec H1 Hvc) as [Hn1 Hr1].
  destruct (SFmul_nonneg x2 mc ec H2 Hvc) as [Hn2 Hr2].
  pose proof (mag_pos _ _ _ Hvc) as Hc.
  destruct (finite x2) eqn:Hf2.
  - destruct (finite x1) eqn:Hf1.
    + rewrite Hr1, Hr2.
      assert (Hm : mag (-1074) x1 <= mag (-1074) x2).
      { unfold nonneg in H1, H2. rewrite andb_true_iff in H1, H2.
        destruct H1 as [Hv1 Hs1], H2 as [Hv2 Hs2].
        apply (rank_mag (-1074) x1 x2); try assumption; try lia.
        - now destruct x1 as [| [] | | [] ? ?].
        - now destruct x2 as [| [] | | [] ? ?]. }
      pose proof (mag_nonneg (-1074) x1) as H0.
      pose proof (RN_mono (-2148)
                    (mag (-1074) x1 * mag (-1074) (S754_finite false mc ec))
                    (mag (-1074) x2 * mag (-1074) (S754_finite false mc ec))
                    ltac:(lia) ltac:(nia)) as H.
      rewrite SFleb_rank in H by (apply RN_ranked; nia).
      now apply Z.leb_le in H.
    + (* x1 is +oo, so x2 is +oo as well *)
      exfalso.
      destruct (nonneg_cases x1 H1) as [[s ->] | [-> | (m & e & -> & _)]];
        try discriminate Hf1.
      cbn [rank cond_Zopp] in Hle.
      pose proof (nonneg_ranked _ H2) as Hrk.
      pose proof (rank_le_inf x2 Hrk) as Hb.
      assert (x2 = S754_infinity false) by (apply rank_inf; [assumption | lia]).
      subst x2. discriminate Hf2.
  - rewrite Hr2. apply (rank_le_inf _ (nonneg_ranked _ Hn1)).
Qed.

(** ** Differences *)

Lemma SFsub_finite_RNs (B : Z) (sx sy : bool) (mx my : positive) (ex ey : Z) :
  B <= -1074 -> B <= ex -> B <= ey ->
  SFsub prec emax (S754_finite sx mx ex) (S754_finite sy my ey)
  = RNs B (sv B (S754_finite sx mx ex) - sv B (S754_finite sy my ey)).
Proof.
  intros HB Hex Hey. cbn [SFsub sv]. cbv zeta.
  rewrite !shl_align_fst by lia.
  rewrite (binary_normalize_RNs B) by lia.
  f_equal.
  replace (ex - B) with (ex - Z.min ex ey + (Z.min ex ey - B)) by lia.
  replace (ey - B) with (ey - Z.min ex ey + (Z.min ex ey - B)) by lia.
  rewrite !Z.pow_add_r by lia.
  destruct sx, sy; cbn [cond_Zopp]; ring.
Qed.

Lemma number_ranked (x : spec_float) : number x = true -> ranked x = true.
Proof. unfold number. rewrite andb_true_iff. tauto. Qed.

Lemma nonneg_number (x : spec_float) : nonneg x = true -> number x = true.
Proof.
  intros H. unfold number. rewrite (nonneg_ranked x H).
  unfold nonneg in H. rewrite andb_true_iff in H. destruct H as [-> _].
  reflexivity.
Qed.

Lemma RNs_number (B D : Z) : B <= -1074 -> number (RNs B D) = true.
Proof.
  intros HB. unfold number. now rewrite RNs_valid, RNs_ranked by lia.
Qed.

Lemma sv_nonneg (x : spec_float) :
  nonneg x = true -> sv (-1074) x = mag (-1074) x.
Proof.
  intros H. destruct (nonneg_cases x H) as [[s ->] | [-> | (m & e & -> & _)]];
    reflexivity.
Qed.

(** Subtracting a larger number gives a smaller result. *)
Lemma SFsub_mono (a b1 b2 : spec_float) :
  number a = true -> a <> S754_infinity false ->
  nonneg b1 = true -> nonneg b2 = true -> rank b1 <= rank b2 ->
  rank (SFsub prec emax a b2) <= rank (SFsub prec emax a b1)
  /\ number (SFsub prec emax a b1) = true
  /\ number (SFsub prec emax a b2) = true.
Proof.
  intros Ha Hinf H1 H2 Hle.
  unfold number in Ha. rewrite andb_true_iff in Ha. destruct Ha as [Hva Hra].
  assert (Hnum : forall b, nonneg b = true ->
            number (SFsub prec emax a b) = true /\
            (finite a = true -> finite b = true ->
             rank (SFsub prec emax a b)
             = rank (RNs (-1074) (sv (-1074) a - mag (-1074) b))) /\
            (finite a = false -> SFsub prec emax a b = S754_infinity true) /\
            (finite a = true -> finite b = false ->
             SFsub prec emax a b = S754_infinity true)).
  { intros b Hb.
    pose proof (nonneg_number b Hb) as Hnb.
    unfold number in Hnb. rewrite andb_true_iff in Hnb.
    destruct Hnb as [Hvb Hrb].
    destruct a as [sa | [] | | sa ma ea]; try discriminate Hra;
      try congruence.
    - (* a zero *)
      destruct (nonneg_cases b Hb) as [[s ->] | [-> | (m & e & -> & Hv)]].
      + destruct (SFsub_finite (S754_zero sa) (S754_zero s) Hva Hvb
                    eq_refl eq_refl) as (Hr & Hv & Hk).
        split; [unfold number; now rewrite Hv, Hk |].
        split; [intros _ _; exact Hr |]. split; discriminate.
      + split; [reflexivity |]. split; [discriminate |].
        split; [discriminate | reflexivity].
      + destruct (SFsub_finite (S754_zero sa) (S754_finite false m e) Hva Hvb
                    eq_refl eq_refl) as (Hr & Hv' & Hk).
        split; [unfold number; now rewrite Hv', Hk |].
        split; [intros _ _; exact Hr |]. split; discriminate.
    - (* -oo *)
      destruct (nonneg_cases b Hb) as [[s ->] | [-> | (m & e & -> & Hv)]];
        (split; [reflexivity |]; split; [discriminate |];
         split; [reflexivity | discriminate]).
    - (* a finite number *)
      destruct (nonneg_cases b Hb) as [[s ->] | [-> | (m & e & -> & Hv)]].
      + destruct (SFsub_finite (S754_finite sa ma ea) (S754_zero s) Hva Hvb
                    eq_refl eq_refl) as (Hr & Hv & Hk).
        split; [unfold number; now rewrite Hv, Hk |].
        split; [intros _ _; exact Hr |]. split; discriminate.
      + split; [reflexivity |]. split; [discriminate |].
        split; [discriminate | reflexivity].
      + destruct (SFsub_finite (S754_finite sa ma ea) (S754_finite false m e)
                    Hva Hvb eq_refl eq_refl) as (Hr & Hv' & Hk).
        split; [unfold number; now rewrite Hv', Hk |].
        split; [intros _ _; exact Hr |]. split; discriminate. }
  destruct (Hnum b1 H1) as (Hn1 & Hf1 & Hi1 & Hj1).
  destruct (Hnum b2 H2) as (Hn2 & Hf2 & Hi2 & Hj2).
  split; [| split; assumption].
  destruct (finite a) eqn:Hfa.
  - destruct (finite b2) eqn:Hfb2.
    + destruct (finite b1) eqn:Hfb1.
      * rewrite (Hf1 eq_refl eq_refl), (Hf2 eq_refl eq_refl).
        apply RNs_mono; [lia |].
        assert (Hm : mag (-1074) b1 <= mag (-1074) b2).
        { unfold nonneg in H1, H2. rewrite andb_true_iff in H1, H2.
          destruct H1 as [Hv1 Hs1], H2 as [Hv2 Hs2].
          apply (rank_mag (-1074) b1 b2); try assumption; try lia.
          - now destruct b1 as [| [] | | [] ? ?].
          - now destruct b2 as [| [] | | [] ? ?]. }
        lia.
      * exfalso.
        destruct (nonneg_cases b1 H1) as [[s ->] | [-> | (m & e & -> & _)]];
          try discriminate Hfb1.
        cbn [rank cond_Zopp] in Hle.
        pose proof (rank_le_inf b2 (nonneg_ranked _ H2)) as Hb.
        assert (b2 = S754_infinity false)
          by (apply rank_inf; [now apply nonneg_ranked | lia]).
        subst b2. discriminate Hfb2.
    + rewrite (Hj2 eq_refl eq_refl).
      pose proof (rank_le_inf _ (number_ranked _ Hn1)) as Hb.
      cbn [rank cond_Zopp]. lia.
  - rewrite (Hi1 eq_refl), (Hi2 eq_refl). lia.
Qed.

End Rounding.

(** * Forecast confidence on binary64 numbers *)

Section Confidence.

Import Round.
#[local] Open Scope Z_scope.

Lemma RNs_nonneg (B D : Z) : B <= -1074 -> 0 <= D -> nonneg (RNs B D) = true.
Proof.
  intros HB HD. destruct D as [| p | p]; [reflexivity | | lia].
  apply RN_nonneg; lia.
Qed.

Lemma positive_finite (c : F64.t) :
  nonneg c = true -> finite c = true -> 0 < rank c ->
  exists m e, c = S754_finite false m e /\
              valid_binary prec emax (S754_finite false m e) = true.
Proof.
  intros Hc Hf Hr.
  destruct (nonneg_cases c Hc) as [[s ->] | [-> | (m & e & -> & Hv)]].
  - cbn [rank] in Hr. lia.
  - discriminate Hf.
  - now exists m, e.
Qed.

(** *** The decay term [i * 0.05] *)

Lemma of_nat_RNs (n : nat) :
  F64.of_nat n = RNs (-1074) (Z.of_nat n * 2 ^ 1074).
Proof.
  unfold F64.of_nat. now rewrite (binary_normalize_RNs (-1074)) by lia.
Qed.

Lemma of_nat_nonneg (n : nat) : nonneg (F64.of_nat n) = true.
Proof. rewrite of_nat_RNs. apply RNs_nonneg; lia. Qed.

Lemma of_nat_mono (i j : nat) :
  (i <= j)%nat -> rank (F64.of_nat i) <= rank (F64.of_nat j).
Proof.
  intros Hij. rewrite !of_nat_RNs. apply RNs_mono; [lia |].
  apply Z.mul_le_mono_nonneg_r; [apply Z.pow_nonneg |]; lia.
Qed.

(** Multiplying by a positive constant. *)
Lemma mul_constant (c x1 x2 : F64.t) :
  nonneg c = true -> finite c = true -> 0 < rank c ->
  nonneg x1 = true -> nonneg x2 = true -> rank x1 <= rank x2 ->
  rank (x1 * c)%f64 <= rank (x2 * c)%f64 /\
  nonneg (x1 * c)%f64 = true /\ nonneg (x2 * c)%f64 = true.
Proof.
  intros Hc Hf Hr H1 H2 Hle.
  destruct (positive_finite c Hc Hf Hr) as (m & e & -> & Hv).
  unfold F64.mul.
  split; [now apply SFmul_mono |].
  split; now apply SFmul_nonneg.
Qed.

Lemma decay_nonneg (i : nat) :
  nonneg (F64.of_nat i * F64.lit 0.05)%f64 = true.
Proof.
  apply (mul_constant (F64.lit 0.05) (F64.of_nat i) (F64.of_nat i));
    try reflexivity; try apply of_nat_nonneg; lia.
Qed.

Lemma decay_mono (i j : nat) :
  (i <= j)%nat ->
  rank (F64.of_nat i * F64.lit 0.05)%f64
  <= rank (F64.of_nat j * F64.lit 0.05)%f64.
Proof.
  intros Hij.
  apply (mul_constant (F64.lit 0.05) (F64.of_nat i) (F64.of_nat j));
    try reflexivity; try apply of_nat_nonneg. now apply of_nat_mono.
Qed.

(** *** The base [1 - volatility / 100] *)

Lemma SFdiv_core_nonneg (m1 m2 : positive) (e1 e2 : Z) :
  0 <= fst (fst (SFdiv_core_binary prec emax (Z.pos m1) e1 (Z.pos m2) e2)).
Proof.
  unfold SFdiv_core_binary. cbv zeta.
  set (s := e1 - e2 - Z.min _ _).
  set (m' := match s with
             | Z.pos _ => Z.shiftl (Z.pos m1) s
             | 0 => Z.pos m1
             | Z.neg _ => 0
             end).
  assert (Hm : 0 <= m').
  { unfold m'. destruct s; try lia. apply Z.shiftl_nonneg. lia. }
  assert (Hq : fst (Z.div_eucl m' (Z.pos m2)) = m' / Z.pos m2) by reflexivity.
  destruct (Z.div_eucl m' (Z.pos m2)) as [q r]. cbn [fst] in *. subst q.
  apply Z.div_pos; lia.
Qed.

(** A number that is not negative, divided by 100. *)
Lemma quotient_signed (v : F64.t) :
  F64.le (F64.lit 0) v = true ->
  F64.signed false (v / F64.lit 100)%f64 \/
  (v / F64.lit 100)%f64 = S754_zero true.
Proof.
  intros Hv. unfold F64.div.
  let c := eval vm_compute in (F64.lit 100) in change (F64.lit 100) with c.
  destruct v as [[] | [] | | [] m e]; try discriminate Hv.
  - now right.
  - left. now left.
  - left. right. now left.
  - left. cbn [SFdiv].
    pose proof (SFdiv_core_nonneg m 7036874417766400 e (-46)) as Hq.
    destruct (SFdiv_core_binary prec emax (Z.pos m) e
                (Z.pos 7036874417766400) (-46)) as [[mz ez] lz].
    cbn [fst] in Hq. cbn [xorb].
    now apply binary_round_aux_signed.
Qed.

Lemma base_number (v : F64.t) :
  F64.le (F64.lit 0) v = true ->
  number (F64.lit 1 - v / F64.lit 100)%f64 = true /\
  (F64.lit 1 - v / F64.lit 100)%f64 <> S754_infinity false.
Proof.
  intros Hv.
  destruct (quotient_signed v Hv) as [[-> | [-> | (m & e & ->)]] | ->].
  - split; [reflexivity | discriminate].
  - split; [reflexivity | discriminate].
  - unfold F64.sub.
    let c := eval vm_compute in (F64.lit 1) in change (F64.lit 1) with c.
    set (B := Z.min (-1074) e).
    rewrite (SFsub_finite_RNs B) by lia.
    split; [apply RNs_number; lia |].
    intros Hinf.
    assert (Hle : rank (RNs B (sv B (S754_finite false 4503599627370496 (-52))
                               - sv B (S754_finite false m e)))
                  <= rank (RNs B (sv B (S754_finite false 4503599627370496
                                          (-52))))).
    { apply RNs_mono; [lia |]. cbn [sv cond_Zopp].
      assert (0 <= Z.pos m * 2 ^ (e - B)) by lia. lia. }
    rewrite Hinf in Hle. cbn [sv cond_Zopp] in Hle.
    assert (Hone : RNs B (4503599627370496 * 2 ^ (-52 - B))
                   = S754_finite false 4503599627370496 (-52)).
    { assert (0 < 2 ^ (-52 - B)) by (apply Z.pow_pos_nonneg; lia).
      destruct (4503599627370496 * 2 ^ (-52 - B)) eqn:H'; try lia.
      cbn [RNs]. rewrite <- H'.
      apply (RN_exact B false 4503599627370496 (-52)); [lia | reflexivity]. }
    rewrite Hone in Hle. revert Hle. vm_compute. intros Hle. now apply Hle.
  - split; [reflexivity | discriminate].
Qed.

(** *** Clamping *)

Lemma rank_positive_finite (x : F64.t) :
  number x = true -> 0 < rank x -> rank x < 2 ^ 70 ->
  nonneg x = true /\ finite x = true.
Proof.
  unfold number, nonneg. rewrite andb_true_iff. intros [Hv Hr] Hpos Hfin.
  rewrite Hv. change (2 ^ 70) with 1180591620717411303424 in Hfin.
  destruct x as [s | [] | | [] m e]; try discriminate Hr;
    cbn [rank cond_Zopp] in Hpos, Hfin;
    change (2 ^ 70) with 1180591620717411303424 in *; try lia.
  - destruct (valid_parts _ _ _ Hv) as (He & _).
    change (2 ^ 54) with 18014398509481984 in *. lia.
  - split; reflexivity.
Qed.

Lemma clamp_rank (x : F64.t) :
  number x = true ->
  let c := F64.Spec.clamp x (F64.lit 0.3) (F64.lit 0.95) in
  nonneg c = true /\ finite c = true /\
  rank c = Z.max (rank (F64.lit 0.3)) (Z.min (rank (F64.lit 0.95)) (rank x)).
Proof.
  intros Hx c. subst c.
  pose proof (number_ranked x Hx) as Hr.
  assert (Hlo : ranked (F64.lit 0.3) = true) by reflexivity.
  assert (Hhi : ranked (F64.lit 0.95) = true) by reflexivity.
  assert (Hmin : F64.Math_min (F64.lit 0.95) x
                 = if SFltb x (F64.lit 0.95) then x else F64.lit 0.95).
  { destruct x as [| | |]; try discriminate Hr; reflexivity. }
  unfold F64.Spec.clamp. rewrite Hmin.
  rewrite (SFltb_rank x (F64.lit 0.95) Hr Hhi).
  destruct (Z.ltb_spec (rank x) (rank (F64.lit 0.95))) as [Hlt | Hge].
  - assert (Hmax : F64.Math_max (F64.lit 0.3) x
                   = if SFltb (F64.lit 0.3) x then x else F64.lit 0.3).
    { destruct x as [| | |]; try discriminate Hr; reflexivity. }
    rewrite Hmax, (SFltb_rank (F64.lit 0.3) x Hlo Hr).
    destruct (Z.ltb_spec (rank (F64.lit 0.3)) (rank x)) as [Hlt' | Hge'].
    + (* x itself *)
      assert (Hpos : 0 < rank x).
      { assert (0 < rank (F64.lit 0.3)) by reflexivity. lia. }
      assert (Hfin : rank x < 2 ^ 70).
      { assert (rank (F64.lit 0.95) < 2 ^ 70) by reflexivity. lia. }
      destruct (rank_positive_finite x Hx Hpos Hfin) as [Hn Hf].
      split; [exact Hn |]. split; [exact Hf | lia].
    + split; [reflexivity |]. split; [reflexivity | lia].
  - change (F64.Math_max (F64.lit 0.3) (F64.lit 0.95)) with (F64.lit 0.95).
    split; [reflexivity |]. split; [reflexivity |].
    assert (rank (F64.lit 0.3) < rank (F64.lit 0.95)) by reflexivity. lia.
Qed.

(** *** Rounding to two decimal places *)

Lemma hundredths_checked : F64.Spec.hundredths_ok = true.
Proof. vm_compute. reflexivity. Qed.

Lemma hundredth_steps (k1 k2 : nat) :
  (k1 <= k2 <= 65)%nat ->
  ranked (F64.Spec.hundredth (30 + Z.of_nat k1)) = true /\
  ranked (F64.Spec.hundredth (30 + Z.of_nat k2)) = true /\
  rank (F64.Spec.hundredth (30 + Z.of_nat k1))
  <= rank (F64.Spec.hundredth (30 + Z.of_nat k2)).
Proof.
  pose proof hundredths_checked as Hok. unfold F64.Spec.hundredths_ok in Hok.
  rewrite !andb_true_iff in Hok. destruct Hok as [[Hall _] _].
  rewrite forallb_forall in Hall.
  assert (Hstep : forall k, (k < 65)%nat ->
            ranked (F64.Spec.hundredth (30 + Z.of_nat k)) = true /\
            ranked (F64.Spec.hundredth (30 + Z.of_nat (S k))) = true /\
            rank (F64.Spec.hundredth (30 + Z.of_nat k))
            <= rank (F64.Spec.hundredth (30 + Z.of_nat (S k)))).
  { intros k Hk. specialize (Hall k). rewrite in_seq in Hall.
    specialize (Hall ltac:(lia)). cbv zeta in Hall.
    rewrite !andb_true_iff, Z.leb_le in Hall. tauto. }
  intros [H12 H2]. induction k2 as [| k2 IH].
  - assert (k1 = 0%nat) by lia. subst k1.
    destruct (Hstep 0%nat ltac:(lia)) as (H0 & _). repeat split; try exact H0.
    lia.
  - destruct (Nat.eq_dec k1 (S k2)) as [-> | Hne].
    + destruct (Hstep k2 ltac:(lia)) as (_ & H1 & _).
      repeat split; try exact H1. lia.
    + destruct (IH ltac:(lia) ltac:(lia)) as (Ha & Hb & Hle).
      destruct (Hstep k2 ltac:(lia)) as (_ & Hc & Hle').
      repeat split; try assumption. lia.
Qed.

Lemma hundredth_mono (n1 n2 : Z) :
  30 <= n1 <= n2 -> n2 <= 95 ->
  ranked (F64.Spec.hundredth n1) = true /\
  ranked (F64.Spec.hundredth n2) = true /\
  rank (F64.Spec.hundredth n1) <= rank (F64.Spec.hundredth n2) /\
  rank (F64.lit 0.3) <= rank (F64.Spec.hundredth n1) /\
  rank (F64.Spec.hundredth n2) <= rank (F64.lit 0.95).
Proof.
  intros H1 H2.
  pose proof hundredths_checked as Hok. unfold F64.Spec.hundredths_ok in Hok.
  rewrite !andb_true_iff, !Z.eqb_eq in Hok. destruct Hok as [[_ H30] H95].
  pose proof (hundredth_steps (Z.to_nat (n1 - 30)) (Z.to_nat (n2 - 30))
                ltac:(lia)) as (Ha & Hb & Hle).
  pose proof (hundredth_steps 0 (Z.to_nat (n1 - 30)) ltac:(lia))
    as (_ & _ & Hlo).
  pose proof (hundredth_steps (Z.to_nat (n2 - 30)) 65 ltac:(lia))
    as (_ & _ & Hhi).
  replace (30 + Z.of_nat (Z.to_nat (n1 - 30))) with n1 in * by lia.
  replace (30 + Z.of_nat (Z.to_nat (n2 - 30))) with n2 in * by lia.
  change (30 + Z.of_nat 0) with 30 in Hlo.
  change (30 + Z.of_nat 65) with 95 in Hhi.
  rewrite H30 in Hlo. rewrite H95 in Hhi. tauto.
Qed.

(** Between [0.3 * 100] and [0.95 * 100], [Math.round] returns an integer
    from 30 to 95, which grows with its argument. *)
Lemma round_range (y : F64.t) :
  nonneg y = true ->
  rank (F64.lit 0.3 * F64.lit 100)%f64 <= rank y
  <= rank (F64.lit 0.95 * F64.lit 100)%f64 ->
  let n := (2 * mag (-1074) y + 2 ^ 1074) / 2 ^ 1075 in
  30 <= n <= 95 /\ F64.Math_round y = binary_normalize prec emax n 0 false.
Proof.
  intros Hy Hrange n.
  assert (Hvlo : nonneg (F64.lit 0.3 * F64.lit 100)%f64 = true) by reflexivity.
  assert (Hvhi : nonneg (F64.lit 0.95 * F64.lit 100)%f64 = true)
    by reflexivity.
  assert (Hmag : mag (-1074) (F64.lit 0.3 * F64.lit 100)%f64
                 <= mag (-1074) y
                 <= mag (-1074) (F64.lit 0.95 * F64.lit 100)%f64).
  { unfold nonneg in Hy, Hvlo, Hvhi. rewrite andb_true_iff in Hy, Hvlo, Hvhi.
    destruct Hy as [Hv Hs].
    assert (Hnf : nonneg_finite y = true).
    { destruct y as [s | [] | | [] m e]; try discriminate Hs;
        try reflexivity.
      exfalso. destruct Hrange as [_ Hhi]. revert Hhi. vm_compute.
      intros Hhi. now apply Hhi. }
    split.
    - apply (rank_mag (-1074)); try tauto; try lia; reflexivity.
    - apply (rank_mag (-1074)); try tauto; try lia; reflexivity. }
  assert (Hn : 30 <= n <= 95).
  { unfold n. destruct Hmag as [Hlo Hhi].
    assert (H2 : 0 < 2 ^ 1075) by (apply Z.pow_pos_nonneg; lia).
    split.
    - apply Z.le_trans
        with ((2 * mag (-1074) (F64.lit 0.3 * F64.lit 100)%f64 + 2 ^ 1074)
              / 2 ^ 1075).
      + vm_compute. discriminate.
      + apply Z.div_le_mono; [exact H2 | lia].
    - apply Z.le_trans
        with ((2 * mag (-1074) (F64.lit 0.95 * F64.lit 100)%f64 + 2 ^ 1074)
              / 2 ^ 1075).
      + apply Z.div_le_mono; [exact H2 | lia].
      + vm_compute. discriminate. }
  split; [exact Hn |].
  destruct (nonneg_cases y Hy) as [[s ->] | [-> | (m & e & -> & Hv)]].
  - exfalso. destruct Hrange as [Hlo _]. revert Hlo. vm_compute.
    intros Hlo. now apply Hlo.
  - exfalso. destruct Hrange as [_ Hhi]. revert Hhi. vm_compute.
    intros Hhi. now apply Hhi.
  - destruct (valid_parts _ _ _ Hv) as (He & Hd & _).
    destruct (Zdigits2_bounds (Z.pos m) ltac:(lia)) as [_ Hm].
    assert (H53 : 2 ^ Zdigits2 (Z.pos m) <= 2 ^ 53)
      by (apply Z.pow_le_mono_r; lia).
    change (2 ^ 53) with 9007199254740992 in H53.
    assert (Hexp : -48 <= e <= -46).
    { destruct Hrange as [Hlo Hhi]. cbn [rank cond_Zopp] in Hlo, Hhi.
      let c := eval vm_compute in (rank (F64.lit 0.3 * F64.lit 100)%f64) in
        change (rank (F64.lit 0.3 * F64.lit 100)%f64) with c in Hlo.
      let c := eval vm_compute in (rank (F64.lit 0.95 * F64.lit 100)%f64) in
        change (rank (F64.lit 0.95 * F64.lit 100)%f64) with c in Hhi.
      change (2 ^ 54) with 18014398509481984 in *. lia. }
    destruct e as [| p | k]; try lia.
    unfold F64.Math_round. cbv zeta. cbn [cond_Zopp].
    f_equal. unfold n. cbn [mag].
    assert (Hk : 46 <= Z.pos k <= 48) by lia.
    replace (2 ^ 1074) with (2 ^ Z.pos k * 2 ^ (1074 - Z.pos k))
      by (rewrite <- Z.pow_add_r by lia; f_equal; lia).
    replace (2 ^ 1075) with (2 ^ (Z.pos k + 1) * 2 ^ (1074 - Z.pos k))
      by (rewrite <- Z.pow_add_r by lia; f_equal; lia).
    replace (Z.neg k - -1074) with (1074 - Z.pos k) by lia.
    replace (2 * (Z.pos m * 2 ^ (1074 - Z.pos k))
             + 2 ^ Z.pos k * 2 ^ (1074 - Z.pos k))
      with ((2 * Z.pos m + 2 ^ Z.pos k) * 2 ^ (1074 - Z.pos k)) by ring.
    rewrite Z.div_mul_cancel_r; [reflexivity | |];
      apply Z.pow_nonzero; lia.
Qed.

(** Clamping and rounding to two decimal places is monotone, and stays
    between 0.3 and 0.95. *)
Lemma round2_clamp_mono (x1 x2 : F64.t) :
  number x1 = true -> number x2 = true -> rank x1 <= rank x2 ->
  let r1 := F64.Spec.round2 (F64.Spec.clamp x1 (F64.lit 0.3) (F64.lit 0.95)) in
  let r2 := F64.Spec.round2 (F64.Spec.clamp x2 (F64.lit 0.3) (F64.lit 0.95)) in
  ranked r1 = true /\ ranked r2 = true /\ rank r1 <= rank r2 /\
  rank (F64.lit 0.3) <= rank r1 /\ rank r2 <= rank (F64.lit 0.95).
Proof.
  intros H1 H2 Hle r1 r2. subst r1 r2.
  destruct (clamp_rank x1 H1) as (Hn1 & Hf1 & Hr1).
  destruct (clamp_rank x2 H2) as (Hn2 & Hf2 & Hr2).
  set (c1 := F64.Spec.clamp x1 (F64.lit 0.3) (F64.lit 0.95)) in *.
  set (c2 := F64.Spec.clamp x2 (F64.lit 0.3) (F64.lit 0.95)) in *.
  assert (Hlo : nonneg (F64.lit 0.3) = true) by reflexivity.
  assert (Hhi : nonneg (F64.lit 0.95) = true) by reflexivity.
  assert (Hc : nonneg (F64.lit 100) = true) by reflexivity.
  assert (Hcf : finite (F64.lit 100) = true) by reflexivity.
  assert (Hcr : 0 < rank (F64.lit 100)) by reflexivity.
  assert (Hlh : rank (F64.lit 0.3) <= rank (F64.lit 0.95))
    by (vm_compute; discriminate).
  destruct (mul_constant (F64.lit 100) c1 c2 Hc Hcf Hcr Hn1 Hn2 ltac:(lia))
    as (Hy & Hny1 & Hny2).
  destruct (mul_constant (F64.lit 100) (F64.lit 0.3) c1 Hc Hcf Hcr Hlo Hn1
              ltac:(lia)) as (Hylo & _ & _).
  destruct (mul_constant (F64.lit 100) c2 (F64.lit 0.95) Hc Hcf Hcr Hn2 Hhi
              ltac:(lia)) as (Hyhi & _ & _).
  destruct (round_range (c1 * F64.lit 100)%f64 Hny1 ltac:(lia)) as [Hb1 He1].
  destruct (round_range (c2 * F64.lit 100)%f64 Hny2 ltac:(lia)) as [Hb2 He2].
  unfold F64.Spec.round2. rewrite He1, He2.
  fold (F64.Spec.hundredth
          ((2 * mag (-1074) (c1 * F64.lit 100)%f64 + 2 ^ 1074) / 2 ^ 1075)).
  fold (F64.Spec.hundredth
          ((2 * mag (-1074) (c2 * F64.lit 100)%f64 + 2 ^ 1074) / 2 ^ 1075)).
  assert (Hm : mag (-1074) (c1 * F64.lit 100)%f64
               <= mag (-1074) (c2 * F64.lit 100)%f64).
  { unfold nonneg in Hny1, Hny2. rewrite andb_true_iff in Hny1, Hny2.
    destruct Hny1 as [Hv1 Hs1], Hny2 as [Hv2 Hs2].
    assert (Hfin : forall y, rank y <= rank (F64.lit 0.95 * F64.lit 100)%f64 ->
              match y with
              | S754_zero _ | S754_infinity false | S754_finite false _ _ => true
              | _ => false
              end = true -> nonneg_finite y = true).
    { intros y Hry Hsy.
      destruct y as [s | [] | | [] m e]; try discriminate Hsy;
        try reflexivity.
      exfalso. revert Hry. vm_compute. intros Hry. now apply Hry. }
    apply (rank_mag (-1074)); try assumption; try lia.
    - apply Hfin; [lia | exact Hs1].
    - apply Hfin; [lia | exact Hs2]. }
  assert (Hnn : (2 * mag (-1074) (c1 * F64.lit 100)%f64 + 2 ^ 1074) / 2 ^ 1075
                <= (2 * mag (-1074) (c2 * F64.lit 100)%f64 + 2 ^ 1074)
                   / 2 ^ 1075).
  { apply Z.div_le_mono; [apply Z.pow_pos_nonneg; lia | lia]. }
  destruct (hundredth_mono _ _ (conj (proj1 Hb1) Hnn) (proj2 Hb2))
    as (Ha & Hb & Hc' & Hd & He).
  repeat split; assumption.
Qed.

(** *** Confidence at a step *)

Lemma confidenceAt_steps (v : F64.t) (i j : nat) :
  F64.le (F64.lit 0) v = true -> (i <= j)%nat ->
  F64.le (F64.Spec.confidenceAt v j) (F64.Spec.confidenceAt v i) = true /\
  F64.le (F64.lit 0.3) (F64.Spec.confidenceAt v j) = true /\
  F64.le (F64.Spec.confidenceAt v i) (F64.lit 0.95) = true.
Proof.
  intros Hv Hij.
  destruct (base_number v Hv) as [Hnum Hinf].
  destruct (SFsub_mono _ _ _ Hnum Hinf (decay_nonneg i) (decay_nonneg j)
              (decay_mono i j Hij)) as (Hle & Hi & Hj).
  destruct (round2_clamp_mono _ _ Hj Hi Hle) as (Hrj & Hri & Hr & Hlo & Hhi).
  unfold F64.Spec.confidenceAt, F64.le, F64.sub.
  rewrite !SFleb_rank by (assumption || reflexivity).
  rewrite !Z.leb_le. repeat split; assumption.
Qed.

(** *** The volatility is a number that is not negative *)

Lemma add_signed (a b : F64.t) :
  F64.signed false a -> F64.signed false b -> F64.signed false (a + b)%f64.
Proof.
  intros [-> | [-> | (ma & ea & ->)]] [-> | [-> | (mb & eb & ->)]];
    unfold F64.add; cbn [SFadd Bool.eqb].
  - now left.
  - right; now left.
  - right; right. now exists mb, eb.
  - right; now left.
  - right; now left.
  - right; now left.
  - right; right. now exists ma, ea.
  - right; now left.
  - cbn [cond_Zopp].
    set (n := Z.pos _ + Z.pos _).
    pose proof (binary_normalize_signed prec emax n (Z.min ea eb) false) as H.
    assert (Hn : 0 < n) by (unfold n; lia).
    clearbody n.
    destruct (Z.eqb_spec n 0) as [Hz | _]; [lia |].
    destruct (Z.ltb_spec n 0); [lia | exact H].
Qed.

Lemma add_finite_not_nan (a b : F64.t) :
  F64.is_nan a = false -> F64.is_finite b = true ->
  F64.is_nan (a + b)%f64 = false.
Proof.
  destruct a as [sa | sa | | sa ma ea], b as [sb | sb | | sb mb eb];
    try discriminate; intros _ _.
  - destruct sa, sb; reflexivity.
  - reflexivity.
  - reflexivity.
  - reflexivity.
  - reflexivity.
  - apply binary_normalize_not_nan.
Qed.

Lemma sum_from_not_nan (ys : list F64.t) (init : F64.t) :
  Forall (fun y => F64.is_finite y = true) ys -> F64.is_nan init = false ->
  F64.is_nan (fold_left F64.add ys init) = false.
Proof.
  intros H. revert init. induction H as [| y ys Hy _ IH]; intros init Hi.
  - exact Hi.
  - cbn [fold_left]. apply IH. now apply add_finite_not_nan.
Qed.

Lemma sum_from_signed (xs : list F64.t) (init : F64.t) :
  Forall (F64.signed false) xs -> F64.signed false init ->
  F64.signed false (fold_left F64.add xs init).
Proof.
  intros H. revert init. induction H as [| x xs Hx _ IH]; intros init Hi.
  - exact Hi.
  - cbn [fold_left]. apply IH. now apply add_signed.
Qed.

Lemma div_not_nan (x : F64.t) (m : positive) (e : Z) :
  F64.is_nan x = false ->
  F64.is_nan (x / S754_finite false m e)%f64 = false.
Proof.
  destruct x as [s | s | | s mx ex]; try discriminate; intros _;
    unfold F64.div; cbn [SFdiv]; try reflexivity.
  pose proof (SFdiv_core_nonneg mx m ex e) as Hq.
  destruct (SFdiv_core_binary prec emax (Z.pos mx) ex (Z.pos m) e)
    as [[mz ez] lz].
  cbn [fst] in Hq.
  exact (signed_not_nan _ _ (binary_round_aux_signed _ _ _ _ _ _ Hq)).
Qed.

Lemma div_signed (x : F64.t) (m : positive) (e : Z) :
  F64.signed false x -> F64.signed false (x / S754_finite false m e)%f64.
Proof.
  intros [-> | [-> | (mx & ex & ->)]]; unfold F64.div; cbn [SFdiv xorb].
  - now left.
  - right; now left.
  - pose proof (SFdiv_core_nonneg mx m ex e) as Hq.
    destruct (SFdiv_core_binary prec emax (Z.pos mx) ex (Z.pos m) e)
      as [[mz ez] lz].
    cbn [fst] in Hq. now apply binary_round_aux_signed.
Qed.

Lemma square_signed (x : F64.t) :
  F64.is_nan x = false -> F64.signed false (x * x)%f64.
Proof.
  destruct x as [s | s | | s m e]; try discriminate; intros _;
    unfold F64.mul; cbn [SFmul]; rewrite xorb_nilpotent.
  - now left.
  - right; now left.
  - apply binary_round_aux_signed. lia.
Qed.

Lemma sqrt_signed (x : F64.t) :
  F64.signed false x -> F64.signed false (F64.Math_sqrt x).
Proof.
  intros [-> | [-> | (m & e & ->)]].
  - now left.
  - right; now left.
  - unfold F64.Math_sqrt. cbn [SFsqrt].
    assert (Hq : 0 <= fst (fst (SFsqrt_core_binary prec emax (Z.pos m) e))).
    { unfold SFsqrt_core_binary. cbv zeta.
      match goal with
      | |- context [Z.sqrtrem ?a] =>
          pose proof (Z.sqrtrem_sqrt a) as Hs;
          pose proof (Z.sqrt_nonneg a) as Hn;
          destruct (Z.sqrtrem a) as [q r]
      end.
      cbn [fst] in *. lia. }
    destruct (SFsqrt_core_binary prec emax (Z.pos m) e) as [[mz ez] lz].
    cbn [fst] in Hq. now apply binary_round_aux_signed.
Qed.

Lemma signed_le_0 (v : F64.t) :
  F64.signed false v -> F64.le (F64.lit 0) v = true.
Proof. intros [-> | [-> | (m & e & ->)]]; reflexivity. Qed.

(** The number of readings considered, as a binary64 number. *)
Lemma count_positive (n : nat) :
  (1 <= n <= 6)%nat -> exists m e, F64.of_nat n = S754_finite false m e.
Proof.
  intros Hn.
  do 7 (destruct n as [| n]; [try lia; vm_compute; now eexists _, _ |]).
  lia.
Qed.

Lemma finite_sub_not_nan (y mu : F64.t) :
  F64.is_finite y = true -> F64.is_nan mu = false ->
  F64.is_nan (y - mu)%f64 = false.
Proof.
  destruct y as [sy | sy | | sy my ey], mu as [s | s | | s m e];
    try discriminate; intros _ _.
  - destruct sy, s; reflexivity.
  - reflexivity.
  - reflexivity.
  - reflexivity.
  - reflexivity.
  - apply binary_normalize_not_nan.
Qed.

Lemma stddev_signed (ys : list F64.t) :
  (1 <= length ys <= 6)%nat ->
  Forall (fun y => F64.is_finite y = true) ys ->
  F64.signed false (F64.Spec.stddev ys).
Proof.
  intros Hn Hys. unfold F64.Spec.stddev, F64.Spec.mean, F64.Spec.sum.
  destruct (count_positive _ Hn) as (m & e & ->).
  assert (Hm : F64.is_nan (fold_left F64.add ys (F64.lit 0)
                            / S754_finite false m e)%f64 = false).
  { apply div_not_nan, sum_from_not_nan; [exact Hys | reflexivity]. }
  revert Hm.
  generalize (fold_left F64.add ys (F64.lit 0) / S754_finite false m e)%f64.
  intros mu Hm.
  apply sqrt_signed, div_signed, sum_from_signed; [| now left].
  apply Forall_map. apply Forall_forall. intros y Hy.
  apply square_signed, finite_sub_not_nan; [| exact Hm].
  rewrite Forall_forall in Hys. now apply Hys.
Qed.

Lemma considered_finite (historical : list F64.Reading.t) :
  Forall (fun r => F64.is_finite (F64.Reading.aqi r) = true) historical ->
  Forall (fun y => F64.is_finite y = true) (F64.Spec.considered historical).
Proof.
  intros H. unfold F64.Spec.considered. apply Forall_map.
  rewrite Forall_forall in *. intros r Hr. apply H.
  apply in_rev in Hr. apply in_rev.
  rewrite <- (firstn_skipn 6 (rev historical)). apply in_or_app. now left.
Qed.

Lemma volatility_nonneg (historical : list F64.Reading.t) :
  Forall (fun r => F64.is_finite (F64.Reading.aqi r) = true) historical ->
  F64.le (F64.lit 0)
    (F64.TrendSummary.volatility (F64.analyzeAQITrend historical)) = true.
Proof.
  intros H.
  destruct (Nat.lt_ge_cases (length historical) 2) as [Hlt | Hge].
  - unfold F64.analyzeAQITrend. apply Nat.ltb_lt in Hlt. rewrite Hlt.
    reflexivity.
  - rewrite (analyzeAQITrend_long historical Hge).
    cbn [F64.TrendSummary.volatility].
    apply signed_le_0, stddev_signed; [| now apply considered_finite].
    rewrite considered_length. lia.
Qed.

End Confidence.


